(** * NumCosmo: the parameter schema of a model type and its instances

    A shallow embedding of [numcosmo/math/ncm_model.c] (class level
    registration of scalar and vector parameters, property-id dispatch,
    instance construction, reparametrization attach and detach, name lookup,
    bound checks, fit flags) and of the variant decoder of
    [numcosmo/math/ncm_matrix.c].

    Conventions.
    - A [guint] is a [Z] reduced modulo [2^32] after every operation.
    - A [gdouble] is a binary64 primitive float.
    - [g_error], a failed [g_assert] and [g_assert_not_reached] abort the
      program: they are the [Fatal] outcomes of the [Res] monad.  Reading
      through a NULL pointer or past the end of an array is undefined in C;
      it is the [Fatal invalid_memory_access] outcome.
    - Vectors live in a store indexed by locations, so that two pointers to
      one vector are two copies of one location.  Reference counts are not
      modelled: [ncm_vector_ref] is the identity on locations. *)

From Stdlib Require Import ZArith List Lia Bool Floats.
From stdpp Require Import base option list gmap strings pretty.

Open Scope Z_scope.

(** ** GLib: unsigned arithmetic, fatal errors, function pointers, variants *)

Module Glib.

Definition guint_modulus : Z := 2 ^ 32.

(** Reduction of an integer to the range of [guint]. *)
Definition guint (z : Z) : Z := z mod guint_modulus.

Definition guint_add (a b : Z) : Z := guint (a + b).
Definition guint_sub (a b : Z) : Z := guint (a - b).
Definition guint_mul (a b : Z) : Z := guint (a * b).

Definition is_guint (z : Z) : Prop := 0 <= z < guint_modulus.

(** The ways the program stops for good. *)
Inductive fatal : Type :=
| g_error (msg : string)
| g_assert_failed (expr : string)
| g_assert_not_reached
| invalid_memory_access.

Inductive Res (A : Type) : Type :=
| Ok (a : A)
| Fatal (e : fatal).
Arguments Ok {A} a.
Arguments Fatal {A} e.

#[global] Instance Res_ret : MRet Res := fun A a => Ok a.
#[global] Instance Res_bind : MBind Res := fun A B f m =>
  match m with
  | Ok a => f a
  | Fatal e => Fatal e
  end.

Definition g_assert (b : bool) (expr : string) : Res unit :=
  if b then Ok tt else Fatal (g_assert_failed expr).

Definition is_ok {A} (r : Res A) : bool :=
  match r with Ok _ => true | Fatal _ => false end.

Definition aborts {A} (r : Res A) : Prop :=
  match r with Ok _ => False | Fatal _ => True end.

(** A function pointer, known by the symbol it points to. *)
Inductive fnptr : Type := FnPtr (symbol : string).

#[global] Instance fnptr_eq_dec : EqDecision fnptr.
Proof. solve_decision. Defined.

(** [g_ptr_array_index] and [g_array_index] on an array that may be NULL. *)
Definition g_ptr_array_index {A} (arr : option (list (option A))) (i : Z)
  : Res (option A) :=
  match arr with
  | None => Fatal invalid_memory_access
  | Some l =>
      if (0 <=? i) && (i <? Z.of_nat (length l))
      then match l !! Z.to_nat i with
           | Some x => Ok x
           | None => Fatal invalid_memory_access
           end
      else Fatal invalid_memory_access
  end.

Definition g_array_index {A} (arr : list A) (i : Z) : Res A :=
  if (0 <=? i) && (i <? Z.of_nat (length arr))
  then match arr !! Z.to_nat i with
       | Some x => Ok x
       | None => Fatal invalid_memory_access
       end
  else Fatal invalid_memory_access.

Definition g_array_set {A} (arr : list A) (i : Z) (x : A) : Res (list A) :=
  if (0 <=? i) && (i <? Z.of_nat (length arr))
  then Ok (<[Z.to_nat i := x]> arr)
  else Fatal invalid_memory_access.

(** [g_ptr_array_set_size] on a fresh array: [n] NULL entries. *)
Definition g_ptr_array_sized {A} (n : Z) : list (option A) :=
  replicate (Z.to_nat n) None.

(** [g_array_set_size] on a zero-clearing array: truncate or pad. *)
Definition g_array_set_size {A} (zero : A) (arr : list A) (n : Z) : list A :=
  take (Z.to_nat n) arr ++ replicate (Z.to_nat n - length arr)%nat zero.

(** [for (i = 0; i < n; i++) body], the body threading a state and
    free to abort. *)
Fixpoint for_loop_from {St} (i : Z) (count : nat) (body : Z -> St -> Res St)
  (s : St) : Res St :=
  match count with
  | O => Ok s
  | S c => s' ← body i s; for_loop_from (i + 1) c body s'
  end.

Definition for_loop {St} (n : Z) (body : Z -> St -> Res St) (s : St) : Res St :=
  for_loop_from 0 (Z.to_nat n) body s.

(** The type strings of the variants the sources build and test. *)
Inductive GVariantType : Type :=
| G_VARIANT_TYPE_BOOLEAN
| G_VARIANT_TYPE_INT32
| G_VARIANT_TYPE_UINT32
| G_VARIANT_TYPE_DOUBLE
| G_VARIANT_TYPE_ARRAY_OF (elt : GVariantType).

#[global] Instance GVariantType_eq_dec : EqDecision GVariantType.
Proof. solve_decision. Defined.

(** A variant value; an array carries the type of its elements, as the
    serialised form does (an empty array still has a type). *)
#[warnings="-register-all"]
Inductive GVariant : Type :=
| g_variant_new_boolean (b : bool)
| g_variant_new_int32 (i : Z)
| g_variant_new_uint32 (u : Z)
| g_variant_new_double (d : float)
| g_variant_new_array (elt : GVariantType) (children : list GVariant).

Definition g_variant_get_type (v : GVariant) : GVariantType :=
  match v with
  | g_variant_new_boolean _ => G_VARIANT_TYPE_BOOLEAN
  | g_variant_new_int32 _ => G_VARIANT_TYPE_INT32
  | g_variant_new_uint32 _ => G_VARIANT_TYPE_UINT32
  | g_variant_new_double _ => G_VARIANT_TYPE_DOUBLE
  | g_variant_new_array elt _ => G_VARIANT_TYPE_ARRAY_OF elt
  end.

Definition g_variant_is_of_type (v : GVariant) (t : GVariantType) : bool :=
  bool_decide (g_variant_get_type v = t).

Definition g_variant_n_children (v : GVariant) : Z :=
  match v with
  | g_variant_new_array _ children => Z.of_nat (length children)
  | _ => 0
  end.

(** [g_variant_get_child_value]: the index must be in range. *)
Definition g_variant_get_child_value (v : GVariant) (i : Z) : Res GVariant :=
  match v with
  | g_variant_new_array _ children => g_array_index children i
  | _ => Fatal invalid_memory_access
  end.

(** [g_variant_get_child (row, j, "d", &val)]. *)
Definition g_variant_get_child_double (v : GVariant) (j : Z) : Res float :=
  c ← g_variant_get_child_value v j;
  match c with
  | g_variant_new_double d => Ok d
  | _ => Fatal invalid_memory_access
  end.

(** [g_variant_new_array (child_type, children, n_children)]: the
    first [n_children] pointers of [children] are read, each has to point
    to a variant of the element type. *)
Definition g_variant_new_array_from (elt : GVariantType)
  (children : list (option GVariant)) (n_children : Z) : Res GVariant :=
  cs ← for_loop n_children (fun i acc =>
         c ← g_array_index children i;
         match c with
         | Some v =>
             if g_variant_is_of_type v elt then Ok (acc ++ [v])
             else Fatal invalid_memory_access
         | None => Fatal invalid_memory_access
         end) [];
  Ok (g_variant_new_array elt cs).

(** [g_variant_get_boolean], [g_variant_get_int32] and
    [g_variant_get_child (var, i, "b", &b)], [(var, i, "i", &n)]: the
    variant has to be of the type asked for. *)
Definition g_variant_get_boolean (v : GVariant) : Res bool :=
  match v with
  | g_variant_new_boolean b => Ok b
  | _ => Fatal invalid_memory_access
  end.

Definition g_variant_get_int32 (v : GVariant) : Res Z :=
  match v with
  | g_variant_new_int32 i => Ok i
  | _ => Fatal invalid_memory_access
  end.

Definition g_variant_get_child_boolean (v : GVariant) (i : Z) : Res bool :=
  c ← g_variant_get_child_value v i; g_variant_get_boolean c.

Definition g_variant_get_child_int32 (v : GVariant) (i : Z) : Res Z :=
  c ← g_variant_get_child_value v i; g_variant_get_int32 c.

End Glib.

(** ** Parameter descriptors *)

Module Param.

Import Glib.

(** Modelled from the spec: the fit type of [ncm_sparam.h], free or
    fixed. *)
Inductive NcmParamType : Type :=
| NCM_PARAM_TYPE_FREE
| NCM_PARAM_TYPE_FIXED.

#[global] Instance NcmParamType_eq_dec : EqDecision NcmParamType.
Proof. solve_decision. Defined.

(** Modelled from the spec: the scalar descriptor [NcmSParam] of
    [ncm_sparam.h], which is not among the sources; the spec lists its
    fields as name, symbol, lower and upper bound, scale, absolute
    tolerance, default value and default fit type. *)
Record NcmSParam : Type := {
  sp_name : string;
  sp_symbol : string;
  sp_lower_bound : float;
  sp_upper_bound : float;
  sp_scale : float;
  sp_abstol : float;
  sp_default_value : float;
  sp_fit_type : NcmParamType
}.

(** Modelled from the spec: the constructor and the getters of
    [ncm_sparam.c], which build and read the fields above. *)
Definition ncm_sparam_new (name symbol : string)
  (lower_bound upper_bound scale abstol default_value : float)
  (ftype : NcmParamType) : NcmSParam :=
  {| sp_name := name; sp_symbol := symbol;
     sp_lower_bound := lower_bound; sp_upper_bound := upper_bound;
     sp_scale := scale; sp_abstol := abstol;
     sp_default_value := default_value; sp_fit_type := ftype |}.

(** Modelled from the spec: descriptors are copied by value
    ([ncm_sparam_copy] is a deep copy), so a copy is the same record. *)
Definition ncm_sparam_copy (sp : NcmSParam) : NcmSParam := sp.

Definition ncm_sparam_name := sp_name.
Definition ncm_sparam_get_lower_bound := sp_lower_bound.
Definition ncm_sparam_get_upper_bound := sp_upper_bound.
Definition ncm_sparam_get_default_value := sp_default_value.

(** Modelled from the spec: the vector descriptor [NcmVParam] of
    [ncm_vparam.h]: a scalar template and a default length. *)
Record NcmVParam : Type := {
  vp_len : Z;
  vp_default_sparam : NcmSParam
}.

(** Modelled from the spec: the constructor, the copy and the change
    of length of [ncm_vparam.c]. *)
Definition ncm_vparam_full_new (len : Z) (name symbol : string)
  (lower_bound upper_bound scale abstol default_value : float)
  (ftype : NcmParamType) : NcmVParam :=
  {| vp_len := len;
     vp_default_sparam :=
       ncm_sparam_new name symbol lower_bound upper_bound scale abstol
         default_value ftype |}.

Definition ncm_vparam_copy (vp : NcmVParam) : NcmVParam := vp.

Definition ncm_vparam_set_len (vp : NcmVParam) (len : Z) : NcmVParam :=
  {| vp_len := len; vp_default_sparam := vp_default_sparam vp |}.

(** Modelled from the spec: [ncm_sparam_set_default_value] of
    [ncm_sparam.h], the setter of the descriptor's default value. *)
Definition ncm_sparam_set_default_value (sp : NcmSParam) (val : float)
  : NcmSParam :=
  {| sp_name := sp_name sp; sp_symbol := sp_symbol sp;
     sp_lower_bound := sp_lower_bound sp; sp_upper_bound := sp_upper_bound sp;
     sp_scale := sp_scale sp; sp_abstol := sp_abstol sp;
     sp_default_value := val; sp_fit_type := sp_fit_type sp |}.

End Param.

(** ** [ncm_matrix.c]: decoding a matrix from a variant *)

Module Matrix.

Import Glib.

Inductive NcmMatrixType : Type :=
| NCM_MATRIX_SLICE
| NCM_MATRIX_GARRAY
| NCM_MATRIX_MALLOC
| NCM_MATRIX_GSL_MATRIX
| NCM_MATRIX_DERIVED.

(** Modelled from the spec: the dense matrix container declared in
    [ncm_matrix.h], which is not among the sources.  It holds a
    [gsl_matrix] view: dimensions, row stride and row-major data. *)
Record NcmMatrix : Type := {
  size1 : Z;
  size2 : Z;
  tda : Z;
  data : list float;
  type : NcmMatrixType
}.

(** Modelled from the spec: the accessors of [ncm_matrix.h]; the
    setter is [gsl_matrix_set], cell [(i, j)] being [data[i * tda + j]]. *)
Definition ncm_matrix_nrows (cm : NcmMatrix) : Z := size1 cm.
Definition ncm_matrix_ncols (cm : NcmMatrix) : Z := size2 cm.

Definition ncm_matrix_set (cm : NcmMatrix) (i j : Z) (val : float)
  : Res NcmMatrix :=
  d ← g_array_set (data cm) (i * tda cm + j) val;
  Ok {| size1 := size1 cm; size2 := size2 cm; tda := tda cm;
        data := d; type := type cm |}.

(** [gsl_matrix_view_array] over a block just obtained from
    [g_slice_alloc]; the block is not initialised by the allocator, it is
    taken as zeros here and every cell is written by the copy loop. *)
Definition gsl_matrix_view_array_fresh (nrows ncols : Z) : NcmMatrix :=
  {| size1 := nrows; size2 := ncols; tda := ncols;
     data := replicate (Z.to_nat (nrows * ncols)) 0%float;
     type := NCM_MATRIX_SLICE |}.

Definition aad : GVariantType :=
  G_VARIANT_TYPE_ARRAY_OF (G_VARIANT_TYPE_ARRAY_OF G_VARIANT_TYPE_DOUBLE).

Definition set_from_variant_type_msg : string :=
  "ncm_matrix_set_from_variant: Cannot convert `%s' variant to an array of arrays of doubles".

Definition set_from_variant_shape_msg : string :=
  "ncm_matrix_set_from_variant: cannot set matrix values, variant contains (%u, %u) childs but matrix dimension is (%u, %u)".

Definition ncm_matrix_set_from_variant (cm : NcmMatrix) (var : GVariant)
  : Res NcmMatrix :=
  if negb (g_variant_is_of_type var aad)
  then Fatal (g_error set_from_variant_type_msg)
  else
    row ← g_variant_get_child_value var 0;
    let nrows := guint (g_variant_n_children var) in
    let ncols := guint (g_variant_n_children row) in
    cm0 ← (if (ncm_matrix_nrows cm =? 0) && (ncm_matrix_ncols cm =? 0)
           then Ok (gsl_matrix_view_array_fresh nrows ncols)
           else if negb (nrows =? ncm_matrix_nrows cm)
                   || negb (ncols =? ncm_matrix_ncols cm)
           then Fatal (g_error set_from_variant_shape_msg)
           else Ok cm);
    for_loop nrows (fun i cmi =>
      row ← g_variant_get_child_value var i;
      for_loop ncols (fun j cmj =>
        val ← g_variant_get_child_double row j;
        ncm_matrix_set cmj i j val) cmi) cm0.

(** Modelled from the spec: [ncm_matrix_get] of [ncm_matrix.h], the
    reader that goes with [ncm_matrix_set]: cell [(i, j)] is
    [data[i * tda + j]]. *)
Definition ncm_matrix_get (cm : NcmMatrix) (i j : Z) : Res float :=
  g_array_index (data cm) (i * tda cm + j).

(** [ncm_matrix_init]: the view is zeroed, so the matrix has no rows, no
    columns and no data; the type is the value 0 of its enumeration. *)
Definition ncm_matrix_init : NcmMatrix :=
  {| size1 := 0; size2 := 0; tda := 0; data := []; type := NCM_MATRIX_SLICE |}.

(** [_ncm_matrix_set_property] for the only property of the class,
    [values]. *)
Definition _ncm_matrix_set_property (m : NcmMatrix) (value : GVariant)
  : Res NcmMatrix :=
  ncm_matrix_set_from_variant m value.

(** [ncm_matrix_new_variant]: an object is initialised and its property
    [values] set from the variant. *)
Definition ncm_matrix_new_variant (var : GVariant) : Res NcmMatrix :=
  _ncm_matrix_set_property ncm_matrix_init var.

(** [ncm_matrix_get_variant]: the array [row_i_vals] is allocated once
    and written anew for every row. *)
Definition ncm_matrix_get_variant (cm : NcmMatrix) : Res GVariant :=
  let nrows := guint (ncm_matrix_nrows cm) in
  let ncols := guint (ncm_matrix_ncols cm) in
  let row_i_vals : list (option GVariant) := g_ptr_array_sized ncols in
  let rows : list (option GVariant) := g_ptr_array_sized nrows in
  acc ← for_loop nrows (fun i acc =>
          vals ← for_loop ncols (fun j vals =>
                   val ← ncm_matrix_get cm i j;
                   g_array_set vals j (Some (g_variant_new_double val)))
                 (fst acc);
          row ← g_variant_new_array_from G_VARIANT_TYPE_DOUBLE vals ncols;
          rows' ← g_array_set (snd acc) i (Some row);
          Ok (vals, rows')) (row_i_vals, rows);
  g_variant_new_array_from (G_VARIANT_TYPE_ARRAY_OF G_VARIANT_TYPE_DOUBLE)
    (snd acc) nrows.

(** A matrix whose view lies within its data: [nrows] rows of [ncols]
    cells, [tda] cells apart. *)
Definition matrix_holds (cm : NcmMatrix) (nrows ncols : Z) : Prop :=
  size1 cm = nrows /\ size2 cm = ncols
  /\ ncols <= tda cm
  /\ (nrows - 1) * tda cm + ncols <= Z.of_nat (length (data cm)).

(** The cells of a matrix, row by row. *)
Definition matrix_cell (cm : NcmMatrix) (i j : nat) : float :=
  default 0%float
    (data cm !! Z.to_nat (Z.of_nat i * tda cm + Z.of_nat j)).

Definition matrix_rows (cm : NcmMatrix) : list (list float) :=
  (fun i => matrix_cell cm i <$> seq 0 (Z.to_nat (size2 cm)))
  <$> seq 0 (Z.to_nat (size1 cm)).

End Matrix.

(** ** [ncm_model.c], class level: the schema of a model type *)

Module ModelClass.

Import Glib Param.

(** The property specifications the sources install. *)
Inductive GParamSpec : Type :=
| g_param_spec_string (pname blurb : string)
| g_param_spec_uint (pname blurb : string) (minimum maximum dflt : Z)
    (construct_only : bool)
| g_param_spec_uint64 (pname blurb : string)
| g_param_spec_boxed (pname blurb : string)
| g_param_spec_object (pname blurb : string)
| g_param_spec_double (pname blurb : string) (minimum maximum dflt : float)
| g_param_spec_boolean (pname blurb : string) (dflt : bool)
| g_param_spec_variant (pname blurb : string) (type_string : string).

Definition PROP_0 : Z := 0.
Definition PROP_NAME : Z := 1.
Definition PROP_NICK : Z := 2.
Definition PROP_SPARAMS_LEN : Z := 3.
Definition PROP_VPARAMS_LEN : Z := 4.
Definition PROP_IMPLEMENTATION : Z := 5.
Definition PROP_PTYPES : Z := 6.
Definition PROP_REPARAM : Z := 7.

(** Modelled from the spec: the class structure [NcmModelClass] is
    declared in [ncm_model.h], which is not among the sources; its fields
    are those [ncm_model.c] reads and writes, together with the fields of
    its [GObjectClass] the file touches.  [oc_properties] is the sequence of
    [g_object_class_install_property] calls, latest first, each id being
    relative to the level that makes the call; the checks GLib makes on
    its own property pool are outside this model. *)
Record NcmModelClass : Type := {
  oc_set_property : fnptr;
  oc_get_property : fnptr;
  oc_properties : list (Z * GParamSpec);
  valid : fnptr;
  set_property : option fnptr;
  get_property : option fnptr;
  model_id : Z;
  name : option string;
  nick : option string;
  nonparam_prop_len : Z;
  sparam_len : Z;
  vparam_len : Z;
  parent_sparam_len : Z;
  parent_vparam_len : Z;
  sparam : option (list (option NcmSParam));
  vparam : option (list (option NcmVParam))
}.

Definition _ncm_model_valid : fnptr := FnPtr "_ncm_model_valid".
Definition _ncm_model_set_property : fnptr := FnPtr "_ncm_model_set_property".
Definition _ncm_model_get_property : fnptr := FnPtr "_ncm_model_get_property".
Definition _ncm_model_class_set_property_ptr : fnptr :=
  FnPtr "_ncm_model_class_set_property".
Definition _ncm_model_class_get_property_ptr : fnptr :=
  FnPtr "_ncm_model_class_get_property".

(** The class structure as [ncm_model_class_init] leaves it; the two
    parent counts are not assigned there and keep the zero of the freshly
    allocated class structure. *)
Definition ncm_model_class_init : NcmModelClass :=
  {| oc_set_property := _ncm_model_set_property;
     oc_get_property := _ncm_model_get_property;
     oc_properties :=
       [ (PROP_REPARAM, g_param_spec_object "reparam" "Model reparametrization");
         (PROP_PTYPES, g_param_spec_boxed "params-types" "Parameters' types");
         (PROP_IMPLEMENTATION,
          g_param_spec_uint64 "implementation"
            "Bitwise specification of functions implementation");
         (PROP_VPARAMS_LEN,
          g_param_spec_uint "vector-params-len" "Number of vector parameters"
            0 (guint_modulus - 1) 0 false);
         (PROP_SPARAMS_LEN,
          g_param_spec_uint "scalar-params-len" "Number of scalar parameters"
            0 (guint_modulus - 1) 0 false);
         (PROP_NICK, g_param_spec_string "nick" "Model's nick");
         (PROP_NAME, g_param_spec_string "name" "Model's name") ];
     valid := _ncm_model_valid;
     set_property := None;
     get_property := None;
     model_id := -1;
     name := None;
     nick := None;
     nonparam_prop_len := 0;
     sparam_len := 0;
     vparam_len := 0;
     parent_sparam_len := 0;
     parent_vparam_len := 0;
     sparam := None;
     vparam := None |}.

(** Where a property request ends up. *)
Inductive prop_target : Type :=
| ClassHandler (handler : fnptr) (prop_id : Z)
| SParamValue (sparam_id : Z)
| VParamValue (vparam_id : Z)
| VParamLength (vparam_len_id : Z)
| SParamFit (sparam_fit_id : Z)
| VParamFit (vparam_fit_id : Z)
| AssertNotReached.

(** The routing of [_ncm_model_class_get_property]: which accessor the
    request for [prop_id] on the level [model_class] is answered by. *)
Definition _ncm_model_class_get_property (model_class : NcmModelClass)
  (prop_id : Z) : prop_target :=
  let sparam_id :=
    guint_add (guint_sub prop_id (nonparam_prop_len model_class))
      (parent_sparam_len model_class) in
  let vparam_id :=
    guint_add (guint_sub sparam_id (sparam_len model_class))
      (parent_vparam_len model_class) in
  let vparam_len_id :=
    guint_add (guint_sub vparam_id (vparam_len model_class))
      (parent_vparam_len model_class) in
  let sparam_fit_id :=
    guint_add (guint_sub vparam_len_id (vparam_len model_class))
      (parent_sparam_len model_class) in
  let vparam_fit_id :=
    guint_add (guint_sub sparam_fit_id (sparam_len model_class))
      (parent_vparam_len model_class) in
  match prop_id <? nonparam_prop_len model_class, get_property model_class with
  | true, Some handler => ClassHandler handler prop_id
  | _, _ =>
      if sparam_id <? sparam_len model_class then SParamValue sparam_id
      else if vparam_id <? vparam_len model_class then VParamValue vparam_id
      else if vparam_len_id <? vparam_len model_class
      then VParamLength vparam_len_id
      else if sparam_fit_id <? sparam_len model_class
      then SParamFit sparam_fit_id
      else if vparam_fit_id <? vparam_len model_class
      then VParamFit vparam_fit_id
      else AssertNotReached
  end.

(** The routing of [_ncm_model_class_set_property]. *)
Definition _ncm_model_class_set_property (model_class : NcmModelClass)
  (prop_id : Z) : prop_target :=
  let sparam_id :=
    guint_add (guint_sub prop_id (nonparam_prop_len model_class))
      (parent_sparam_len model_class) in
  let vparam_id :=
    guint_add (guint_sub sparam_id (sparam_len model_class))
      (parent_vparam_len model_class) in
  let vparam_len_id :=
    guint_add (guint_sub vparam_id (vparam_len model_class))
      (parent_vparam_len model_class) in
  let sparam_fit_id :=
    guint_add (guint_sub vparam_len_id (vparam_len model_class))
      (parent_sparam_len model_class) in
  let vparam_fit_id :=
    guint_add (guint_sub sparam_fit_id (sparam_len model_class))
      (parent_vparam_len model_class) in
  match prop_id <? nonparam_prop_len model_class, set_property model_class with
  | true, Some handler => ClassHandler handler prop_id
  | _, _ =>
      if sparam_id <? sparam_len model_class then SParamValue sparam_id
      else if vparam_id <? vparam_len model_class then VParamValue vparam_id
      else if vparam_len_id <? vparam_len model_class
      then VParamLength vparam_len_id
      else if sparam_fit_id <? sparam_len model_class
      then SParamFit sparam_fit_id
      else if vparam_fit_id <? vparam_len model_class
      then VParamFit vparam_fit_id
      else AssertNotReached
  end.

(** The resolution as the specification words it: subtract the nonparam
    count, then walk the five regions in order, each as long as the number
    of slots this level declares itself. *)
Definition own_sparam_count (model_class : NcmModelClass) : Z :=
  sparam_len model_class - parent_sparam_len model_class.

Definition own_vparam_count (model_class : NcmModelClass) : Z :=
  vparam_len model_class - parent_vparam_len model_class.

Definition spec_walk_regions (model_class : NcmModelClass) (prop_id : Z)
  : prop_target :=
  let own_s := own_sparam_count model_class in
  let own_v := own_vparam_count model_class in
  let k0 := prop_id - nonparam_prop_len model_class in
  if k0 <? own_s then SParamValue (parent_sparam_len model_class + k0)
  else
    let k1 := k0 - own_s in
    if k1 <? own_v then VParamValue (parent_vparam_len model_class + k1)
    else
      let k2 := k1 - own_v in
      if k2 <? own_v then VParamLength (parent_vparam_len model_class + k2)
      else
        let k3 := k2 - own_v in
        if k3 <? own_s then SParamFit (parent_sparam_len model_class + k3)
        else
          let k4 := k3 - own_s in
          if k4 <? own_v then VParamFit (parent_vparam_len model_class + k4)
          else AssertNotReached.

(** What the region tests make of an id below the nonparam count, in
    the same words: the distance [prop_id - nonparam_prop_len] is
    negative, the first region reaches back into the scalar slots
    inherited from the parent, the second into the inherited vector
    slots, and an id that reaches back past both is in no region. *)
Definition walk_regions_below_nonparam (model_class : NcmModelClass)
  (prop_id : Z) : prop_target :=
  let own_s := own_sparam_count model_class in
  let k0 := prop_id - nonparam_prop_len model_class in
  if 0 <=? parent_sparam_len model_class + k0
  then SParamValue (parent_sparam_len model_class + k0)
  else
    let k1 := k0 - own_s in
    if 0 <=? parent_vparam_len model_class + k1
    then VParamValue (parent_vparam_len model_class + k1)
    else AssertNotReached.

(** The assignments [model_class->set_property = set] and
    [model_class->get_property = get] by which the [class_init] function
    of a type installs the handlers of its own properties. *)
Definition with_property_handlers (model_class : NcmModelClass)
  (set get : fnptr) : NcmModelClass :=
  {| oc_set_property := oc_set_property model_class;
     oc_get_property := oc_get_property model_class;
     oc_properties := oc_properties model_class;
     valid := valid model_class;
     set_property := Some set;
     get_property := Some get;
     model_id := model_id model_class;
     name := name model_class;
     nick := nick model_class;
     nonparam_prop_len := nonparam_prop_len model_class;
     sparam_len := sparam_len model_class;
     vparam_len := vparam_len model_class;
     parent_sparam_len := parent_sparam_len model_class;
     parent_vparam_len := parent_vparam_len model_class;
     sparam := sparam model_class;
     vparam := vparam model_class |}.

(** The five counters of a class level are unsigned and the parent's
    counts do not exceed the totals. *)
Definition counts_wf (model_class : NcmModelClass) : Prop :=
  is_guint (nonparam_prop_len model_class)
  /\ is_guint (sparam_len model_class)
  /\ is_guint (vparam_len model_class)
  /\ 0 <= parent_sparam_len model_class <= sparam_len model_class
  /\ 0 <= parent_vparam_len model_class <= vparam_len model_class.

(** A property id for which no step of the 32-bit arithmetic wraps. *)
Definition prop_id_in_range (model_class : NcmModelClass) (prop_id : Z) : Prop :=
  0 <= prop_id
  /\ prop_id + sparam_len model_class + vparam_len model_class < guint_modulus.

(** The loop of [ncm_model_class_add_params] that copies the parent's
    descriptors into the new array. *)
Definition copy_parent_params {A} (copy : A -> A)
  (old : option (list (option A))) (fresh : list (option A))
  (parent_len : Z) : Res (list (option A)) :=
  for_loop parent_len (fun i arr =>
    x ← g_ptr_array_index old i;
    match x with
    | None => Fatal invalid_memory_access
    | Some d => g_array_set arr i (Some (copy d))
    end) fresh.

Definition grow_params {A} (copy : A -> A) (old : option (list (option A)))
  (new_len parent_len : Z) : Res (option (list (option A))) :=
  if 0 <? new_len
  then match old with
       | None => Ok (Some (g_ptr_array_sized new_len))
       | Some _ =>
           arr ← copy_parent_params copy old (g_ptr_array_sized new_len)
                   parent_len;
           Ok (Some arr)
       end
  else Ok old.

Definition ncm_model_class_add_params (model_class : NcmModelClass)
  (n_sparam n_vparam n_nonparam_prop : Z) : Res NcmModelClass :=
  let parent_s := sparam_len model_class in
  let parent_v := vparam_len model_class in
  let new_s := guint_add (sparam_len model_class) n_sparam in
  let new_v := guint_add (vparam_len model_class) n_vparam in
  sp ← grow_params ncm_sparam_copy (sparam model_class) new_s parent_s;
  vp ← grow_params ncm_vparam_copy (vparam model_class) new_v parent_v;
  Ok {| oc_set_property := _ncm_model_class_set_property_ptr;
        oc_get_property := _ncm_model_class_get_property_ptr;
        oc_properties := oc_properties model_class;
        valid := valid model_class;
        set_property := set_property model_class;
        get_property := get_property model_class;
        model_id := model_id model_class;
        name := name model_class;
        nick := nick model_class;
        nonparam_prop_len := n_nonparam_prop;
        sparam_len := new_s;
        vparam_len := new_v;
        parent_sparam_len := parent_s;
        parent_vparam_len := parent_v;
        sparam := sp;
        vparam := vp |}.

(** The class after [g_object_class_install_property (object_class,
    prop_id, pspec)]. *)
Definition g_object_class_install_property (model_class : NcmModelClass)
  (prop_id : Z) (pspec : GParamSpec) : NcmModelClass :=
  {| oc_set_property := oc_set_property model_class;
     oc_get_property := oc_get_property model_class;
     oc_properties := (prop_id, pspec) :: oc_properties model_class;
     valid := valid model_class;
     set_property := set_property model_class;
     get_property := get_property model_class;
     model_id := model_id model_class;
     name := name model_class;
     nick := nick model_class;
     nonparam_prop_len := nonparam_prop_len model_class;
     sparam_len := sparam_len model_class;
     vparam_len := vparam_len model_class;
     parent_sparam_len := parent_sparam_len model_class;
     parent_vparam_len := parent_vparam_len model_class;
     sparam := sparam model_class;
     vparam := vparam model_class |}.

Definition with_sparam (model_class : NcmModelClass)
  (arr : option (list (option NcmSParam))) : NcmModelClass :=
  {| oc_set_property := oc_set_property model_class;
     oc_get_property := oc_get_property model_class;
     oc_properties := oc_properties model_class;
     valid := valid model_class;
     set_property := set_property model_class;
     get_property := get_property model_class;
     model_id := model_id model_class;
     name := name model_class;
     nick := nick model_class;
     nonparam_prop_len := nonparam_prop_len model_class;
     sparam_len := sparam_len model_class;
     vparam_len := vparam_len model_class;
     parent_sparam_len := parent_sparam_len model_class;
     parent_vparam_len := parent_vparam_len model_class;
     sparam := arr;
     vparam := vparam model_class |}.

Definition with_vparam (model_class : NcmModelClass)
  (arr : option (list (option NcmVParam))) : NcmModelClass :=
  {| oc_set_property := oc_set_property model_class;
     oc_get_property := oc_get_property model_class;
     oc_properties := oc_properties model_class;
     valid := valid model_class;
     set_property := set_property model_class;
     get_property := get_property model_class;
     model_id := model_id model_class;
     name := name model_class;
     nick := nick model_class;
     nonparam_prop_len := nonparam_prop_len model_class;
     sparam_len := sparam_len model_class;
     vparam_len := vparam_len model_class;
     parent_sparam_len := parent_sparam_len model_class;
     parent_vparam_len := parent_vparam_len model_class;
     sparam := sparam model_class;
     vparam := arr |}.

Definition ncm_model_class_set_name_nick (model_class : NcmModelClass)
  (new_name new_nick : string) : NcmModelClass :=
  {| oc_set_property := oc_set_property model_class;
     oc_get_property := oc_get_property model_class;
     oc_properties := oc_properties model_class;
     valid := valid model_class;
     set_property := set_property model_class;
     get_property := get_property model_class;
     model_id := model_id model_class;
     name := Some new_name;
     nick := Some new_nick;
     nonparam_prop_len := nonparam_prop_len model_class;
     sparam_len := sparam_len model_class;
     vparam_len := vparam_len model_class;
     parent_sparam_len := parent_sparam_len model_class;
     parent_vparam_len := parent_vparam_len model_class;
     sparam := sparam model_class;
     vparam := vparam model_class |}.

(** [g_ptr_array_index (arr, i) = x]. *)
Definition g_ptr_array_store {A} (arr : option (list (option A))) (i : Z)
  (x : A) : Res (option (list (option A))) :=
  match arr with
  | None => Fatal invalid_memory_access
  | Some l => l' ← g_array_set l i (Some x); Ok (Some l')
  end.

Definition sparam_already_set_msg : string :=
  "Scalar Parameter: %u is already set.".

Definition vparam_already_set_msg : string :=
  "Vector Parameter: %u is already set.".

Definition ncm_model_class_set_sparam (model_class : NcmModelClass)
  (sparam_id : Z) (symbol pname : string)
  (lower_bound upper_bound scale abstol default_value : float)
  (ppt : NcmParamType) : Res NcmModelClass :=
  let prop_id :=
    guint_add (guint_sub sparam_id (parent_sparam_len model_class))
      (nonparam_prop_len model_class) in
  let prop_fit_id :=
    guint_add
      (guint_add prop_id
         (guint_sub (sparam_len model_class) (parent_sparam_len model_class)))
      (guint_mul 2
         (guint_sub (vparam_len model_class) (parent_vparam_len model_class))) in
  let sp :=
    ncm_sparam_new pname symbol lower_bound upper_bound scale abstol
      default_value ppt in
  _ ← g_assert (0 <? prop_id) "prop_id > 0";
  slot ← g_ptr_array_index (sparam model_class) sparam_id;
  match slot with
  | Some _ => Fatal (g_error sparam_already_set_msg)
  | None =>
      arr ← g_ptr_array_store (sparam model_class) sparam_id sp;
      let c1 := with_sparam model_class arr in
      let c2 :=
        g_object_class_install_property c1 prop_id
          (g_param_spec_double pname symbol lower_bound upper_bound
             default_value) in
      Ok (g_object_class_install_property c2 prop_fit_id
            (g_param_spec_boolean (pname +:+ "-fit") (symbol +:+ ":fit")
               (bool_decide (ppt = NCM_PARAM_TYPE_FREE))))
  end.

Definition ncm_model_class_set_vparam (model_class : NcmModelClass)
  (vparam_id default_length : Z) (symbol pname : string)
  (lower_bound upper_bound scale abstol default_value : float)
  (ppt : NcmParamType) : Res NcmModelClass :=
  let own_v :=
    guint_sub (vparam_len model_class) (parent_vparam_len model_class) in
  let own_s :=
    guint_sub (sparam_len model_class) (parent_sparam_len model_class) in
  let prop_id :=
    guint_add
      (guint_sub (guint_add vparam_id (nonparam_prop_len model_class))
         (parent_vparam_len model_class))
      own_s in
  let prop_len_id := guint_add prop_id own_v in
  let prop_fit_id := guint_add (guint_add prop_len_id own_v) own_s in
  let vp :=
    ncm_vparam_full_new default_length pname symbol lower_bound upper_bound
      scale abstol default_value ppt in
  _ ← g_assert (0 <? prop_id) "prop_id > 0";
  _ ← g_assert (0 <? prop_len_id) "prop_len_id > 0";
  slot ← g_ptr_array_index (vparam model_class) vparam_id;
  match slot with
  | Some _ => Fatal (g_error vparam_already_set_msg)
  | None =>
      arr ← g_ptr_array_store (vparam model_class) vparam_id vp;
      let c1 := with_vparam model_class arr in
      let c2 :=
        g_object_class_install_property c1 prop_id
          (g_param_spec_variant pname symbol "ad") in
      let c3 :=
        g_object_class_install_property c2 prop_len_id
          (g_param_spec_uint (pname +:+ "-length") (symbol +:+ ":length")
             0 (guint_modulus - 1) default_length true) in
      Ok (g_object_class_install_property c3 prop_fit_id
            (g_param_spec_variant (pname +:+ "-fit") (symbol +:+ ":fit") "a*"))
  end.

Definition check_not_initialized_msg : string :=
  "Class size or params not initialized, call ncm_model_class_add_params.".

Definition check_sparam_msg : string :=
  "Class (%s) didn't initialized scalar parameter %lu/%u".

Definition check_vparam_msg : string :=
  "Class (%s) didn't initialized vector parameter %lu/%u".

Definition check_set_property_msg : string :=
  "Class (%s) set object_class set_property, use model_class set_property instead.".

Definition check_get_property_msg : string :=
  "Class (%s) set object_class get_property, use model_class get_property instead.".

Definition check_all_set {A} (arr : option (list (option A))) (len : Z)
  (msg : string) : Res unit :=
  for_loop len (fun i _ =>
    slot ← g_ptr_array_index arr i;
    match slot with
    | None => Fatal (g_error msg)
    | Some _ => Ok tt
    end) tt.

Definition ncm_model_class_check_params_info (model_class : NcmModelClass)
  : Res unit :=
  let total_params_len :=
    guint_add (sparam_len model_class) (vparam_len model_class) in
  _ ← (if (total_params_len =? 0) && (nonparam_prop_len model_class =? 0)
       then Fatal (g_error check_not_initialized_msg) else Ok tt);
  _ ← check_all_set (sparam model_class) (sparam_len model_class)
        check_sparam_msg;
  _ ← check_all_set (vparam model_class) (vparam_len model_class)
        check_vparam_msg;
  _ ← (if bool_decide
            (oc_set_property model_class = _ncm_model_class_set_property_ptr)
       then Ok tt else Fatal (g_error check_set_property_msg));
  if bool_decide
       (oc_get_property model_class = _ncm_model_class_get_property_ptr)
  then Ok tt else Fatal (g_error check_get_property_msg).

(** A closed class: every declared slot has its descriptor, which is
    what [ncm_model_class_check_params_info] tests. *)
Definition class_closed (model_class : NcmModelClass) : Prop :=
  (forall i, 0 <= i < sparam_len model_class ->
             exists d, g_ptr_array_index (sparam model_class) i = Ok (Some d))
  /\ (forall i, 0 <= i < vparam_len model_class ->
                exists d, g_ptr_array_index (vparam model_class) i = Ok (Some d)).

(** One call of the registration code of a model type. *)
Inductive setup_call : Type :=
| add_params (n_sparam n_vparam n_nonparam_prop : Z)
| set_sparam (sparam_id : Z) (symbol pname : string)
    (lower_bound upper_bound scale abstol default_value : float)
    (ppt : NcmParamType)
| set_vparam (vparam_id default_length : Z) (symbol pname : string)
    (lower_bound upper_bound scale abstol default_value : float)
    (ppt : NcmParamType)
| set_name_nick (new_name new_nick : string)
| check_params_info.

Definition run_setup_call (model_class : NcmModelClass) (c : setup_call)
  : Res NcmModelClass :=
  match c with
  | add_params s v n => ncm_model_class_add_params model_class s v n
  | set_sparam i sy na lb ub sc tol dv pt =>
      ncm_model_class_set_sparam model_class i sy na lb ub sc tol dv pt
  | set_vparam i dl sy na lb ub sc tol dv pt =>
      ncm_model_class_set_vparam model_class i dl sy na lb ub sc tol dv pt
  | set_name_nick na ni => Ok (ncm_model_class_set_name_nick model_class na ni)
  | check_params_info =>
      _ ← ncm_model_class_check_params_info model_class; Ok model_class
  end.

(** A [class_init] function: its calls in order, on the class structure
    inherited from the parent type. *)
Fixpoint run_class_init (calls : list setup_call) (model_class : NcmModelClass)
  : Res NcmModelClass :=
  match calls with
  | [] => Ok model_class
  | c :: rest =>
      model_class' ← run_setup_call model_class c;
      run_class_init rest model_class'
  end.

(** The scalar and vector slots a [class_init] function declares. *)
Definition declared_sparams (calls : list setup_call) : Z :=
  foldr (fun c acc =>
           match c with add_params s _ _ => s + acc | _ => acc end) 0 calls.

Definition declared_vparams (calls : list setup_call) : Z :=
  foldr (fun c acc =>
           match c with add_params _ v _ => v + acc | _ => acc end) 0 calls.

(** The property ids of a level all fit: the nonparam ids, then its own
    scalar values, vector values, vector lengths, scalar fit flags and
    vector fit flags, with room left for the additions the routers make. *)
Definition level_ids_fit (model_class : NcmModelClass) : Prop :=
  nonparam_prop_len model_class
  + 2 * own_sparam_count model_class + 3 * own_vparam_count model_class
  + sparam_len model_class + vparam_len model_class < guint_modulus.

End ModelClass.

(** ** Vectors in the store *)

Module Vector.

Import Glib.

(** Modelled from the spec: the numeric vector container of
    [ncm_vector.h] with its create, get, set and length operations.  A
    location names one allocated [NcmVector]; the store gives its
    contents. *)
Abbreviation loc := positive.
Abbreviation store := (gmap positive (list float)).

(** Modelled from the spec: [ncm_vector_new] gives a vector of [n]
    cells, zero-filled, at a location not in use. *)
Definition ncm_vector_new (st : store) (n : Z) : store * loc :=
  let l := fresh (dom st) in
  (<[l := replicate (Z.to_nat n) 0%float]> st, l).

(** Modelled from the spec: the accessors of [ncm_vector.h].  A vector
    pointer may be NULL or dangling, and an index out of range; reading
    or writing through these is undefined in C. *)
Definition ncm_vector_data (st : store) (v : option loc) : Res (list float) :=
  match v with
  | None => Fatal invalid_memory_access
  | Some l =>
      match st !! l with
      | Some d => Ok d
      | None => Fatal invalid_memory_access
      end
  end.

Definition ncm_vector_len (st : store) (v : option loc) : Res Z :=
  d ← ncm_vector_data st v; Ok (Z.of_nat (length d)).

Definition ncm_vector_get (st : store) (v : option loc) (i : Z) : Res float :=
  d ← ncm_vector_data st v; g_array_index d i.

Definition ncm_vector_set (st : store) (v : option loc) (i : Z) (x : float)
  : Res store :=
  d ← ncm_vector_data st v;
  d' ← g_array_set d i x;
  match v with
  | Some l => Ok (<[l := d']> st)
  | None => Fatal invalid_memory_access
  end.

(** Overwriting the whole contents of an allocated vector. *)
Definition ncm_vector_store (st : store) (v : option loc) (d : list float)
  : Res store :=
  _ ← ncm_vector_data st v;
  match v with
  | Some l => Ok (<[l := d]> st)
  | None => Fatal invalid_memory_access
  end.

End Vector.

(** ** Reparametrizations, as the model consumes them *)

Module Reparam.

Import Glib Param Vector.

(** Modelled from the spec: the [NcmReparam] object of [ncm_reparam.h],
    which is not among the sources.  It owns the working vector
    [new_params], knows its [length], may carry descriptors for the
    slots it renames, with their names in its own table, and provides the
    forward map [old2new] (original to working vector) and the map back
    [new2old]; either map, being code of the transform, may abort. *)
Record NcmReparam : Type := {
  g_type : string;
  length : Z;
  new_params : loc;
  sparams : list (option NcmSParam);
  sparams_name_id : gmap string Z;
  old2new : list float -> Res (list float);
  new2old : list float -> Res (list float)
}.

(** Modelled from the spec: lookup in the transform's own table of
    renamed slots, giving found or not found and the index. *)
Definition ncm_reparam_index_from_name (reparam : NcmReparam)
  (param_name : string) : bool * Z :=
  match sparams_name_id reparam !! param_name with
  | Some i => (true, i)
  | None => (false, guint (-1))
  end.

(** Modelled from the spec: the descriptor the transform gives slot [i],
    NULL when it does not rename that slot. *)
Definition ncm_reparam_peek_param_desc (reparam : NcmReparam) (i : Z)
  : option NcmSParam :=
  if 0 <=? i then mjoin (sparams reparam !! Z.to_nat i) else None.

(** Modelled from the spec: [ncm_reparam_old2new (reparam, model, src,
    dest)] runs the forward map on the contents of [src] and writes the
    result to [dest]; [ncm_reparam_new2old] is the map back. *)
Definition ncm_reparam_old2new (st : store) (reparam : NcmReparam)
  (src dest : option loc) : Res store :=
  d ← ncm_vector_data st src;
  w ← old2new reparam d;
  ncm_vector_store st dest w.

Definition ncm_reparam_new2old (st : store) (reparam : NcmReparam)
  (src dest : option loc) : Res store :=
  d ← ncm_vector_data st src;
  w ← new2old reparam d;
  ncm_vector_store st dest w.

End Reparam.

(** ** [ncm_model.c], instance level *)

Module Model.

Import Glib Param Vector.

(** Modelled from the spec: the instance structure [NcmModel] is
    declared in [ncm_model.h], which is not among the sources; its fields
    are those [ncm_model.c] reads and writes.  [g_type] is the concrete type
    recorded in the instance header ([G_OBJECT_TYPE]); [klass] is its
    class structure ([NCM_MODEL_GET_CLASS]).  [params] is the original
    vector, [p] the working vector: both are pointers into the store. *)
Record NcmModel : Type := {
  g_type : string;
  klass : ModelClass.NcmModelClass;
  sparams : list (option NcmSParam);
  sparams_name_id : gmap string Z;
  params : option loc;
  p : option loc;
  vparam_len : list Z;
  vparam_pos : list Z;
  pkey : Z;
  skey : Z;
  reparam : option Reparam.NcmReparam;
  ptypes : list NcmParamType;
  total_len : Z
}.

(** [ncm_model_init], on the zeroed instance GObject hands it.  It is
    the instance initialiser of [NcmModel]: GObject runs it, for an
    instance of whatever concrete type, with the instance's class pointer
    set to the class of [NcmModel] itself, and sets the pointer to the
    concrete class only afterwards.  So [NCM_MODEL_GET_CLASS] here is the
    class structure as [ncm_model_class_init] leaves it, whose
    [vparam_len] is 0, and the two tables [vparam_len] and [vparam_pos]
    are created without any entry.  The field [klass] is the concrete
    class [model_class], which every later [NCM_MODEL_GET_CLASS] reads. *)
Definition ncm_model_init (type_name : string)
  (model_class : ModelClass.NcmModelClass) : NcmModel :=
  let init_class := ModelClass.ncm_model_class_init in
  {| g_type := type_name;
     klass := model_class;
     sparams := [];
     sparams_name_id := ∅;
     params := None;
     p := None;
     vparam_len :=
       g_array_set_size 0 [] (ModelClass.vparam_len init_class);
     vparam_pos :=
       g_array_set_size 0 [] (ModelClass.vparam_len init_class);
     pkey := 1;
     skey := 0;
     reparam := None;
     ptypes := [];
     total_len := 0 |}.

(** Modelled from the spec: [ncm_model_peek_reparam] of [ncm_model.h],
    the transform attached to the instance, if any. *)
Definition ncm_model_peek_reparam (model : NcmModel)
  : option Reparam.NcmReparam := reparam model.

(** Modelled from the spec: [ncm_model_param_peek_desc] of
    [ncm_model.h], the descriptor of slot [n] of the working space: the
    one the active transform gives the slot when it renames it, else the
    instance's own.  A NULL descriptor is dereferenced by every caller. *)
Definition ncm_model_param_peek_desc (model : NcmModel) (n : Z)
  : Res NcmSParam :=
  _ ← g_assert (n <? total_len model) "n < model->total_len";
  match
    match ncm_model_peek_reparam model with
    | Some r => Reparam.ncm_reparam_peek_param_desc r n
    | None => None
    end
  with
  | Some sp => Ok sp
  | None =>
      slot ← g_array_index (sparams model) n;
      match slot with
      | Some sp => Ok sp
      | None => Fatal invalid_memory_access
      end
  end.

(** Modelled from the spec: [param_get] reads the working vector,
    [orig_param_get] the original vector ([ncm_model.h]). *)
Definition ncm_model_param_get (st : store) (model : NcmModel) (n : Z)
  : Res float :=
  ncm_vector_get st (p model) n.

Definition ncm_model_orig_param_get (st : store) (model : NcmModel) (n : Z)
  : Res float :=
  ncm_vector_get st (params model) n.

Definition ncm_model_param_get_lower_bound (model : NcmModel) (n : Z)
  : Res float :=
  sp ← ncm_model_param_peek_desc model n;
  Ok (ncm_sparam_get_lower_bound sp).

Definition ncm_model_param_get_upper_bound (model : NcmModel) (n : Z)
  : Res float :=
  sp ← ncm_model_param_peek_desc model n;
  Ok (ncm_sparam_get_upper_bound sp).

Definition with_ptypes (model : NcmModel) (a : list NcmParamType) : NcmModel :=
  {| g_type := g_type model; klass := klass model;
     sparams := sparams model; sparams_name_id := sparams_name_id model;
     params := params model; p := p model;
     vparam_len := vparam_len model; vparam_pos := vparam_pos model;
     pkey := pkey model; skey := skey model; reparam := reparam model;
     ptypes := a; total_len := total_len model |}.

Definition with_reparam_p (model : NcmModel)
  (r : option Reparam.NcmReparam) (v : option loc) : NcmModel :=
  {| g_type := g_type model; klass := klass model;
     sparams := sparams model; sparams_name_id := sparams_name_id model;
     params := params model; p := v;
     vparam_len := vparam_len model; vparam_pos := vparam_pos model;
     pkey := pkey model; skey := skey model; reparam := r;
     ptypes := ptypes model; total_len := total_len model |}.

Definition with_pkey (model : NcmModel) (k : Z) : NcmModel :=
  {| g_type := g_type model; klass := klass model;
     sparams := sparams model; sparams_name_id := sparams_name_id model;
     params := params model; p := p model;
     vparam_len := vparam_len model; vparam_pos := vparam_pos model;
     pkey := k; skey := skey model; reparam := reparam model;
     ptypes := ptypes model; total_len := total_len model |}.

Definition ncm_model_param_get_ftype (model : NcmModel) (n : Z)
  : Res NcmParamType :=
  g_array_index (ptypes model) n.

Definition ncm_model_param_set_ftype (model : NcmModel) (n : Z)
  (ptype : NcmParamType) : Res NcmModel :=
  a ← g_array_set (ptypes model) n ptype;
  Ok (with_ptypes model a).

Definition _ncm_model_sparams_remove_reparam (st : store) (model : NcmModel)
  : store * NcmModel :=
  match reparam model with
  | Some _ => (st, with_reparam_p model None (params model))
  | None => (st, model)
  end.

Definition ncm_model_set_reparam (st : store) (model : NcmModel)
  (new_reparam : option Reparam.NcmReparam) : Res (store * NcmModel) :=
  match new_reparam with
  | Some r =>
      let model' := with_reparam_p model (Some r) (Some (Reparam.new_params r)) in
      st' ← Reparam.ncm_reparam_old2new st r (params model')
              (Some (Reparam.new_params r));
      Ok (st', model')
  | None => Ok (_ncm_model_sparams_remove_reparam st model)
  end.

Definition ncm_model_is_equal (st : store) (model1 model2 : NcmModel)
  : Res bool :=
  if negb (bool_decide (g_type model1 = g_type model2)) then Ok false
  else
    len1 ← ncm_vector_len st (params model1);
    len2 ← ncm_vector_len st (params model2);
    if negb (len1 =? len2) then Ok false
    else
      match reparam model1 with
      | Some r1 =>
          match reparam model2 with
          | None => Ok false
          | Some r2 =>
              if negb (bool_decide (Reparam.g_type r1 = Reparam.g_type r2))
              then Ok false
              else Ok true
          end
      | None => Ok true
      end.

(** The loop of [ncm_model_params_valid_bounds], from slot [i] on. *)
Fixpoint params_valid_bounds_from (st : store) (model : NcmModel) (i : Z)
  (count : nat) : Res bool :=
  match count with
  | O => Ok true
  | S c =>
      lb ← ncm_model_param_get_lower_bound model i;
      ub ← ncm_model_param_get_lower_bound model i;
      val ← ncm_model_param_get st model i;
      if PrimFloat.ltb val lb || PrimFloat.ltb ub val then Ok false
      else params_valid_bounds_from st model (i + 1) c
  end.

Definition ncm_model_params_valid_bounds (st : store) (model : NcmModel)
  : Res bool :=
  params_valid_bounds_from st model 0 (Z.to_nat (total_len model)).

(** What the specification asks of the bound check: every original
    value within the slot's lower and upper bound. *)
Fixpoint spec_bounds_check_from (st : store) (model : NcmModel) (i : Z)
  (count : nat) : Res bool :=
  match count with
  | O => Ok true
  | S c =>
      lb ← ncm_model_param_get_lower_bound model i;
      ub ← ncm_model_param_get_upper_bound model i;
      val ← ncm_model_orig_param_get st model i;
      if PrimFloat.ltb val lb || PrimFloat.ltb ub val then Ok false
      else spec_bounds_check_from st model (i + 1) c
  end.

Definition spec_bounds_check (st : store) (model : NcmModel) : Res bool :=
  spec_bounds_check_from st model 0 (Z.to_nat (total_len model)).

Definition ncm_model_orig_param_index_from_name (model : NcmModel)
  (param_name : string) : bool * Z :=
  match sparams_name_id model !! param_name with
  | Some param_id => (true, param_id)
  | None => (false, guint (-1))
  end.

Definition index_from_name_changed_msg : string :=
  "ncm_model_param_index_from_name: parameter (%s) was changed by a NcmReparam, it is now named (%s).".

(** The result is the returned flag with the index left in [*i]. *)
Definition ncm_model_param_index_from_name (model : NcmModel)
  (param_name : string) : Res (bool * Z) :=
  match ncm_model_peek_reparam model with
  | Some r =>
      let '(found, i) := Reparam.ncm_reparam_index_from_name r param_name in
      if found then Ok (true, i)
      else
        let '(found, i) :=
          ncm_model_orig_param_index_from_name model param_name in
        if found
        then match Reparam.ncm_reparam_peek_param_desc r i with
             | Some _ => Fatal (g_error index_from_name_changed_msg)
             | None => Ok (true, i)
             end
        else Ok (false, i)
  | None => Ok (ncm_model_orig_param_index_from_name model param_name)
  end.

Definition with_tables (model : NcmModel) (pt : list NcmParamType)
  (sps : list (option NcmSParam)) (names : gmap string Z) : NcmModel :=
  {| g_type := g_type model; klass := klass model;
     sparams := sps; sparams_name_id := names;
     params := params model; p := p model;
     vparam_len := vparam_len model; vparam_pos := vparam_pos model;
     pkey := pkey model; skey := skey model; reparam := reparam model;
     ptypes := pt; total_len := total_len model |}.

(** What both loops of [_ncm_model_set_sparams] do for slot [n]: the fit
    type is set to fixed, the descriptor is stored and its name entered
    in the name table. *)
Definition set_sparams_slot (model : NcmModel) (n : Z) (sp : NcmSParam)
  : Res NcmModel :=
  pt ← g_array_set (ptypes model) n NCM_PARAM_TYPE_FIXED;
  sps ← g_array_set (sparams model) n (Some sp);
  Ok (with_tables model pt sps
        (<[ncm_sparam_name sp := n]> (sparams_name_id model))).

(** Modelled from the spec: [ncm_model_params_update] of [ncm_model.h].
    Its documentation in [ncm_model.c] reads: force the parameters to
    update its internal flags and update the original parameters if
    necessary.  The flag is the key [pkey], which advances (its width is
    declared in the missing header and is left unbounded); with a
    transform attached the original vector is rewritten from the working
    one by the transform's map back. *)
Definition ncm_model_params_update (st : store) (model : NcmModel)
  : Res (store * NcmModel) :=
  let model' := with_pkey model (pkey model + 1) in
  match reparam model' with
  | Some r =>
      st' ← Reparam.ncm_reparam_new2old st r (p model') (params model');
      Ok (st', model')
  | None => Ok (st, model')
  end.

Definition ncm_model_params_set_default (st : store) (model : NcmModel)
  : Res (store * NcmModel) :=
  st' ← for_loop (total_len model) (fun i s =>
          sp ← ncm_model_param_peek_desc model i;
          ncm_vector_set s (p model) i (ncm_sparam_get_default_value sp)) st;
  ncm_model_params_update st' model.

(** The first loop of [_ncm_model_constructed]: the position of every
    vector parameter and the total length. *)
Definition constructed_layout (model_class : ModelClass.NcmModelClass)
  (lens pos : list Z) : Res (list Z * Z) :=
  for_loop (ModelClass.vparam_len model_class) (fun i acc =>
    pos' ← g_array_set (fst acc) i (snd acc);
    len ← g_array_index lens i;
    Ok (pos', guint_add (snd acc) len))
  (pos, ModelClass.sparam_len model_class).

(** A transform that can be attached to the instance [m] in the store
    [st]: its working vector is allocated and is not the instance's
    original vector (the transform owns it), and its forward map returns
    on the current original values. *)
Definition valid_reparam (st : store) (m : NcmModel)
  (r : Reparam.NcmReparam) : Prop :=
  params m <> Some (Reparam.new_params r)
  /\ is_Some (st !! Reparam.new_params r)
  /\ forall v, ncm_vector_data st (params m) = Ok v ->
               exists w, Reparam.old2new r v = Ok w.

(** The sum of the lengths of the vector parameters of an instance. *)
Definition sum_lengths (lens : list Z) : Z := foldr Z.add 0 lens.

(** What setting the fit type, the descriptor and the name of slots
    leaves alone in an instance. *)
Definition same_frame (m m' : NcmModel) : Prop :=
  g_type m' = g_type m
  /\ klass m' = klass m
  /\ params m' = params m
  /\ p m' = p m
  /\ vparam_len m' = vparam_len m
  /\ vparam_pos m' = vparam_pos m
  /\ pkey m' = pkey m
  /\ reparam m' = reparam m
  /\ total_len m' = total_len m
  /\ length (ptypes m') = length (ptypes m)
  /\ length (sparams m') = length (sparams m).

(** The shape of an instance that has been constructed: the tables have
    one entry per slot and the original vector is allocated with one cell
    per slot. *)
Definition instance_wf (st : store) (m : NcmModel) : Prop :=
  0 <= total_len m
  /\ length (ptypes m) = Z.to_nat (total_len m)
  /\ length (sparams m) = Z.to_nat (total_len m)
  /\ exists l v, params m = Some l /\ st !! l = Some v
                 /\ length v = Z.to_nat (total_len m).

(** The slots below [k] have their descriptor. *)
Definition filled_below (k : Z) (m : NcmModel) : Prop :=
  forall n, 0 <= n < k -> exists sp, g_array_index (sparams m) n = Ok (Some sp).

Section Construction.

(** Modelled from the spec: [ncm_vparam_peek_sparam] of [ncm_vparam.h],
    the [j]-th of the independent descriptor copies a vector descriptor
    expands into.  The spec leaves the naming of the copies open, so the
    expansion is a parameter of the construction. *)
Variable ncm_vparam_peek_sparam : NcmVParam -> Z -> NcmSParam.

Definition _ncm_model_set_sparams (model : NcmModel) : Res NcmModel :=
  let model_class := klass model in
  let model0 :=
    with_tables model (ptypes model) (g_ptr_array_sized (total_len model)) ∅ in
  model1 ← for_loop (ModelClass.sparam_len model_class) (fun i m =>
             slot ← g_ptr_array_index (ModelClass.sparam model_class) i;
             match slot with
             | None => Fatal invalid_memory_access
             | Some sp => set_sparams_slot m i (ncm_sparam_copy sp)
             end) model0;
  for_loop (ModelClass.vparam_len model_class) (fun i m =>
    len ← g_array_index (vparam_len m) i;
    pos ← g_array_index (vparam_pos m) i;
    slot ← g_ptr_array_index (ModelClass.vparam model_class) i;
    match slot with
    | None => Fatal invalid_memory_access
    | Some vp0 =>
        let vp := ncm_vparam_set_len (ncm_vparam_copy vp0) len in
        for_loop len (fun j m' =>
          set_sparams_slot m' (guint_add pos j) (ncm_vparam_peek_sparam vp j)) m
    end) model1.

Definition _ncm_model_constructed (st : store) (model : NcmModel)
  : Res (store * NcmModel) :=
  let model_class := klass model in
  layout ← constructed_layout model_class (vparam_len model) (vparam_pos model);
  let total := snd layout in
  let '(st1, l) := ncm_vector_new st total in
  let model1 :=
    {| g_type := g_type model; klass := klass model;
       sparams := sparams model; sparams_name_id := sparams_name_id model;
       params := Some l; p := Some l;
       vparam_len := vparam_len model; vparam_pos := fst layout;
       pkey := pkey model; skey := skey model; reparam := reparam model;
       ptypes := g_array_set_size NCM_PARAM_TYPE_FREE (ptypes model) total;
       total_len := total |} in
  model2 ← _ncm_model_set_sparams model1;
  ncm_model_params_set_default st1 model2.

Definition with_vparam_len (model : NcmModel) (lens : list Z) : NcmModel :=
  {| g_type := g_type model; klass := klass model;
     sparams := sparams model; sparams_name_id := sparams_name_id model;
     params := params model; p := p model;
     vparam_len := lens; vparam_pos := vparam_pos model;
     pkey := pkey model; skey := skey model; reparam := reparam model;
     ptypes := ptypes model; total_len := total_len model |}.

(** The branch of [_ncm_model_class_set_property] for the length of a
    vector parameter: [g_array_index (model->vparam_len, guint,
    vparam_len_id) = psize]. *)
Definition set_property_vparam_len (model : NcmModel) (vparam_len_id : Z)
  (psize : Z) : Res NcmModel :=
  a ← g_array_set (vparam_len model) vparam_len_id psize;
  Ok (with_vparam_len model a).

(** A new instance of the type [type_name] with class [model_class]:
    [ncm_model_init], then the length of each vector parameter written
    by the property machinery, one construct-time property per vector
    parameter, then [_ncm_model_constructed]. *)
Definition ncm_model_new (st : store) (type_name : string)
  (model_class : ModelClass.NcmModelClass) (lens : list Z)
  : Res (store * NcmModel) :=
  model ← for_loop (Z.of_nat (length lens)) (fun i m =>
             psize ← g_array_index lens i;
             set_property_vparam_len m i psize)
           (ncm_model_init type_name model_class);
  _ncm_model_constructed st model.

End Construction.

(** An instance whose tables [vparam_len] and [vparam_pos] are given. *)
Definition with_vparam_tables (model : NcmModel) (lens pos : list Z)
  : NcmModel :=
  {| g_type := g_type model; klass := klass model;
     sparams := sparams model; sparams_name_id := sparams_name_id model;
     params := params model; p := p model;
     vparam_len := lens; vparam_pos := pos;
     pkey := pkey model; skey := skey model; reparam := reparam model;
     ptypes := ptypes model; total_len := total_len model |}.

(** [ncm_model_param_get_by_name] and its counterpart on the original
    vector: the name is looked up, the lookup is asserted to have found
    it, and the value at the index is read. *)
Definition ncm_model_param_get_by_name (st : store) (model : NcmModel)
  (param_name : string) : Res float :=
  r ← ncm_model_param_index_from_name model param_name;
  _ ← g_assert (fst r) "has_param";
  ncm_model_param_get st model (snd r).

Definition ncm_model_orig_param_get_by_name (st : store) (model : NcmModel)
  (param_name : string) : Res float :=
  let r := ncm_model_orig_param_index_from_name model param_name in
  _ ← g_assert (fst r) "has_param";
  ncm_model_orig_param_get st model (snd r).



Section ReparamDerivatives.

(** Modelled from the spec: [ncm_reparam_grad_old2new] and
    [ncm_reparam_M_old2new] of [ncm_reparam.h], code of the transform
    that writes to a vector, or to a matrix, and may abort. *)
Variable ncm_reparam_grad_old2new :
  Reparam.NcmReparam -> NcmModel -> option loc -> option loc -> store ->
  Res store.
Variable ncm_reparam_M_old2new :
  Reparam.NcmReparam -> NcmModel -> Matrix.NcmMatrix -> Matrix.NcmMatrix ->
  Res Matrix.NcmMatrix.

Definition ncm_model_reparam_df (st : store) (model : NcmModel)
  (fv v : option loc) : Res store :=
  _ ← g_assert (bool_decide (is_Some (reparam model))) "model->reparam";
  _ ← (Fatal g_assert_not_reached : Res unit);
  match reparam model with
  | Some r => ncm_reparam_grad_old2new r model fv v st
  | None => Fatal invalid_memory_access
  end.

Definition ncm_model_reparam_J (model : NcmModel)
  (fJ J : Matrix.NcmMatrix) : Res Matrix.NcmMatrix :=
  _ ← g_assert (bool_decide (is_Some (reparam model))) "model->reparam";
  _ ← (Fatal g_assert_not_reached : Res unit);
  match reparam model with
  | Some r => ncm_reparam_M_old2new r model fJ J
  | None => Fatal invalid_memory_access
  end.

End ReparamDerivatives.

(** Modelled from the spec: [ncm_model_vparam_index] of [ncm_model.h]:
    the slot of component [i] of the vector parameter [n] is its
    position plus [i]. *)
Definition ncm_model_vparam_index (model : NcmModel) (n i : Z) : Res Z :=
  pos ← g_array_index (vparam_pos model) n;
  Ok (guint_add pos i).

(** [tofit ? NCM_PARAM_TYPE_FREE : NCM_PARAM_TYPE_FIXED] and
    [ftype == NCM_PARAM_TYPE_FREE ? TRUE : FALSE]. *)
Definition tofit_ftype (tofit : bool) : NcmParamType :=
  if tofit then NCM_PARAM_TYPE_FREE else NCM_PARAM_TYPE_FIXED.

Definition ftype_tofit (ftype : NcmParamType) : bool :=
  match ftype with
  | NCM_PARAM_TYPE_FREE => true
  | NCM_PARAM_TYPE_FIXED => false
  end.

(** The branch of [_ncm_model_class_get_property] for the fit flags of
    a vector parameter: an array of booleans, one per component. *)
Definition get_property_vparam_fit (model : NcmModel) (vparam_fit_id : Z)
  : Res GVariant :=
  n ← g_array_index (vparam_len model) vparam_fit_id;
  builder ← for_loop n (fun i builder =>
              pid ← ncm_model_vparam_index model vparam_fit_id i;
              ftype ← ncm_model_param_get_ftype model pid;
              Ok (builder ++ [g_variant_new_boolean (ftype_tofit ftype)])) [];
  Ok (g_variant_new_array G_VARIANT_TYPE_BOOLEAN builder).

Definition set_fit_convert_msg : string :=
  "set_property: Cannot convert `%s' variant to an array of booleans".

Definition set_fit_count_msg : string :=
  "set_property: cannot set fit type of vector parameter, variant contains %zu childs but vector dimension is %u".

(** The branch of [_ncm_model_class_set_property] for the fit flags of
    a vector parameter. *)
Definition set_property_vparam_fit (model : NcmModel) (vparam_fit_id : Z)
  (var : GVariant) : Res NcmModel :=
  let n := g_variant_n_children var in
  nv ← g_array_index (vparam_len model) vparam_fit_id;
  if n =? 1 then
    varc ← g_variant_get_child_value var 0;
    tofit ← (if g_variant_is_of_type varc G_VARIANT_TYPE_BOOLEAN
             then g_variant_get_boolean varc
             else if g_variant_is_of_type varc G_VARIANT_TYPE_INT32
             then i ← g_variant_get_int32 varc; Ok (negb (i =? 0))
             else Fatal (g_error set_fit_convert_msg));
    for_loop nv (fun i m =>
      pid ← ncm_model_vparam_index m vparam_fit_id i;
      ncm_model_param_set_ftype m pid (tofit_ftype tofit)) model
  else if negb (n =? nv) then Fatal (g_error set_fit_count_msg)
  else if g_variant_is_of_type var
            (G_VARIANT_TYPE_ARRAY_OF G_VARIANT_TYPE_BOOLEAN)
  then
    for_loop n (fun i m =>
      pid ← ncm_model_vparam_index m vparam_fit_id i;
      tofit ← g_variant_get_child_boolean var i;
      ncm_model_param_set_ftype m pid (tofit_ftype tofit)) model
  else if g_variant_is_of_type var
            (G_VARIANT_TYPE_ARRAY_OF G_VARIANT_TYPE_INT32)
  then
    for_loop n (fun i m =>
      pid ← ncm_model_vparam_index m vparam_fit_id i;
      tofit ← g_variant_get_child_int32 var i;
      ncm_model_param_set_ftype m pid (tofit_ftype (negb (tofit =? 0)))) model
  else Fatal (g_error set_fit_convert_msg).

(** [ncm_model_params_set_all_data]: [data] is a C array, read at
    every index below the length of the working vector. *)
Definition ncm_model_params_set_all_data (st : store) (model : NcmModel)
  (data : list float) : Res (store * NcmModel) :=
  len ← ncm_vector_len st (p model);
  st' ← for_loop len (fun i s =>
          x ← g_array_index data i;
          ncm_vector_set s (p model) i x) st;
  ncm_model_params_update st' model.

(** The fit flags of the vector parameter [id] of an instance lie in
    the table of fit types: [nv] flags from [pos] on. *)
Definition fit_block (model : NcmModel) (id pos nv : Z) : Prop :=
  g_array_index (vparam_len model) id = Ok nv
  /\ g_array_index (vparam_pos model) id = Ok pos
  /\ 0 <= pos /\ 0 <= nv
  /\ pos + nv <= Z.of_nat (length (ptypes model))
  /\ pos + nv <= guint_modulus.

(** A store through the pointer [ncm_model_param_peek_desc] returned
    for slot [n]: descriptors are held by pointer, so the entry of the
    table the pointer came from changes, the transform's when it gives
    the slot a descriptor, the instance's own otherwise. *)
Definition reparam_with_desc (r : Reparam.NcmReparam) (n : Z)
  (sp : NcmSParam) : Reparam.NcmReparam :=
  {| Reparam.g_type := Reparam.g_type r;
     Reparam.length := Reparam.length r;
     Reparam.new_params := Reparam.new_params r;
     Reparam.sparams := <[Z.to_nat n := Some sp]> (Reparam.sparams r);
     Reparam.sparams_name_id := Reparam.sparams_name_id r;
     Reparam.old2new := Reparam.old2new r;
     Reparam.new2old := Reparam.new2old r |}.

Definition store_desc (model : NcmModel) (n : Z) (sp : NcmSParam)
  : Res NcmModel :=
  match
    match ncm_model_peek_reparam model with
    | Some r =>
        match Reparam.ncm_reparam_peek_param_desc r n with
        | Some _ => Some r
        | None => None
        end
    | None => None
    end
  with
  | Some r =>
      Ok (with_reparam_p model (Some (reparam_with_desc r n sp)) (p model))
  | None =>
      sps ← g_array_set (sparams model) n (Some sp);
      Ok (with_tables model (ptypes model) sps (sparams_name_id model))
  end.

Definition ncm_model_params_save_as_default (st : store) (model : NcmModel)
  : Res NcmModel :=
  for_loop (total_len model) (fun i m =>
    sp ← ncm_model_param_peek_desc m i;
    val ← ncm_vector_get st (p m) i;
    store_desc m i (ncm_sparam_set_default_value sp val)) model.

(** A class of which [ncm_model_new] constructs instances: it has
    passed [ncm_model_class_check_params_info], its scalar count is
    unsigned and it has no vector parameter, the tables of a new
    instance having no room for one. *)
Definition constructible (model_class : ModelClass.NcmModelClass) : Prop :=
  ModelClass.ncm_model_class_check_params_info model_class = Ok tt
  /\ is_guint (ModelClass.sparam_len model_class)
  /\ ModelClass.vparam_len model_class = 0.

(** An instance on which [_ncm_model_constructed] runs to its end: its
    class has passed [ncm_model_class_check_params_info] and has an
    unsigned scalar count, the table [vparam_len] holds one length per
    vector parameter of the class, none negative, the table [vparam_pos]
    has as many entries, no transform is attached, and the total fits in
    32 bits. *)
Definition ready_to_construct (model : NcmModel) (lens : list Z) : Prop :=
  ModelClass.ncm_model_class_check_params_info (klass model) = Ok tt
  /\ is_guint (ModelClass.sparam_len (klass model))
  /\ Z.of_nat (length lens) = ModelClass.vparam_len (klass model)
  /\ vparam_len model = lens
  /\ length (vparam_pos model) = length lens
  /\ reparam model = None
  /\ Forall (fun x => 0 <= x) lens
  /\ ModelClass.sparam_len (klass model) + sum_lengths lens < guint_modulus.

(** Where the [i]-th vector parameter starts in an instance with the
    vector lengths [lens]. *)
Definition vparam_start (model_class : ModelClass.NcmModelClass)
  (lens : list Z) (i : Z) : Z :=
  ModelClass.sparam_len model_class + sum_lengths (take (Z.to_nat i) lens).

(** The descriptor [_ncm_model_set_sparams] stores at slot [n]: the
    class's descriptor of scalar [n], or component [j] of the expansion
    of the class's vector descriptor [i] to the instance's length. *)
Definition slot_descriptor (peek : NcmVParam -> Z -> NcmSParam)
  (model_class : ModelClass.NcmModelClass) (lens : list Z) (n : Z)
  (sp : NcmSParam) : Prop :=
  (0 <= n < ModelClass.sparam_len model_class
   /\ g_ptr_array_index (ModelClass.sparam model_class) n = Ok (Some sp))
  \/ (exists i vp len j,
        0 <= i
        /\ lens !! Z.to_nat i = Some len
        /\ g_ptr_array_index (ModelClass.vparam model_class) i = Ok (Some vp)
        /\ 0 <= j < len
        /\ n = vparam_start model_class lens i + j
        /\ sp = peek (ncm_vparam_set_len (ncm_vparam_copy vp) len) j).

(** The tables of an instance filled up to slot [k]. *)
Definition tables_filled (peek : NcmVParam -> Z -> NcmSParam)
  (lens : list Z) (k : Z) (m : NcmModel) : Prop :=
  (forall n, 0 <= n < k ->
     exists sp, slot_descriptor peek (klass m) lens n sp
                /\ g_array_index (sparams m) n = Ok (Some sp)
                /\ g_array_index (ptypes m) n = Ok NCM_PARAM_TYPE_FIXED)
  /\ (forall s i, sparams_name_id m !! s = Some i ->
         0 <= i < k
         /\ exists sp, g_array_index (sparams m) i = Ok (Some sp)
                       /\ sp_name sp = s)
  /\ (forall n sp, 0 <= n < k ->
         g_array_index (sparams m) n = Ok (Some sp) ->
         exists j, n <= j < k /\ sparams_name_id m !! sp_name sp = Some j).

End Model.

(** ** Concrete model types and instances used below *)

Module Scenario.

Import Glib Param Vector.

(** A model type with one scalar parameter bounded by 0 and 1, whose
    default value is [dflt]. *)
Definition unit_interval_calls (dflt : float) : list ModelClass.setup_call :=
  [ ModelClass.add_params 1 0 1;
    ModelClass.set_sparam 0 "x" "x" 0%float 1%float 1%float 0%float dflt
      NCM_PARAM_TYPE_FREE;
    ModelClass.check_params_info ].

Definition unit_interval_class (dflt : float) : Res ModelClass.NcmModelClass :=
  ModelClass.run_class_init (unit_interval_calls dflt)
    ModelClass.ncm_model_class_init.

(** An expansion of vector descriptors that numbers the copies. *)
Definition numbered_component (vp : NcmVParam) (j : Z) : NcmSParam :=
  let t := vp_default_sparam vp in
  ncm_sparam_new (sp_name t +:+ "_" +:+ pretty j)
    (sp_symbol t +:+ "_" +:+ pretty j)
    (sp_lower_bound t) (sp_upper_bound t) (sp_scale t) (sp_abstol t)
    (sp_default_value t) (sp_fit_type t).

(** A fresh instance of the one-parameter type, in an empty store: its
    only slot holds [dflt]. *)
Definition unit_interval_instance (dflt : float)
  : Res (store * Model.NcmModel) :=
  c ← unit_interval_class dflt;
  Model.ncm_model_new numbered_component ∅ "FooUnit" c [].

(** A base type with one scalar and one vector parameter, and a child
    type that declares two more scalars in two calls of
    [ncm_model_class_add_params]. *)
Definition base_calls : list ModelClass.setup_call :=
  [ ModelClass.add_params 1 1 1;
    ModelClass.set_sparam 0 "a" "a" 0%float 10%float 1%float 0%float 2%float
      NCM_PARAM_TYPE_FREE;
    ModelClass.set_vparam 0 3 "v" "v" 0%float 1%float 1%float 0%float 0.5%float
      NCM_PARAM_TYPE_FIXED;
    ModelClass.check_params_info ].

Definition child_calls : list ModelClass.setup_call :=
  [ ModelClass.add_params 1 0 1;
    ModelClass.set_sparam 1 "b" "b" 0%float 10%float 1%float 0%float 5%float
      NCM_PARAM_TYPE_FREE;
    ModelClass.add_params 1 0 1;
    ModelClass.set_sparam 2 "c" "c" 0%float 10%float 1%float 0%float 7%float
      NCM_PARAM_TYPE_FREE;
    ModelClass.check_params_info ].

Definition base_class : Res ModelClass.NcmModelClass :=
  ModelClass.run_class_init base_calls ModelClass.ncm_model_class_init.

Definition child_class : Res ModelClass.NcmModelClass :=
  b ← base_class; ModelClass.run_class_init child_calls b.

(** The instance [_ncm_model_constructed] builds for the child type
    from an instance whose tables [vparam_len] and [vparam_pos] have an
    entry for the type's vector parameter, of length 3.  The tables
    [ncm_model_init] creates have no entry, so this is the state of an
    instance whose tables have the room, not one [ncm_model_new] goes
    through. *)
Definition child_instance : Res (store * Model.NcmModel) :=
  c ← child_class;
  Model._ncm_model_constructed numbered_component ∅
    (Model.with_vparam_tables (Model.ncm_model_init "FooChild" c) [3] [0]).

(** A base type with one scalar and ten vector parameters, and a child
    type that declares two more scalars. *)
Definition many_base_calls : list ModelClass.setup_call :=
  ModelClass.add_params 1 10 1
  :: ModelClass.set_sparam 0 "a" "a" 0%float 10%float 1%float 0%float 2%float
       NCM_PARAM_TYPE_FREE
  :: ((fun i =>
         ModelClass.set_vparam i 1 ("v" +:+ pretty i) ("v" +:+ pretty i)
           0%float 1%float 1%float 0%float 0.5%float NCM_PARAM_TYPE_FIXED)
      <$> [0; 1; 2; 3; 4; 5; 6; 7; 8; 9])
  ++ [ ModelClass.check_params_info ].

Definition many_child_calls : list ModelClass.setup_call :=
  [ ModelClass.add_params 2 0 1;
    ModelClass.set_sparam 1 "b" "b" 0%float 10%float 1%float 0%float 5%float
      NCM_PARAM_TYPE_FREE;
    ModelClass.set_sparam 2 "c" "c" 0%float 10%float 1%float 0%float 7%float
      NCM_PARAM_TYPE_FREE;
    ModelClass.check_params_info ].

Definition many_base_level : ModelClass.NcmModelClass :=
  Eval vm_compute in
    match ModelClass.run_class_init many_base_calls
            ModelClass.ncm_model_class_init with
    | Ok c => c
    | Fatal _ => ModelClass.ncm_model_class_init
    end.

Definition many_child_level : ModelClass.NcmModelClass :=
  Eval vm_compute in
    match ModelClass.run_class_init many_child_calls many_base_level with
    | Ok c => c
    | Fatal _ => ModelClass.ncm_model_class_init
    end.

(** A type level with one own property below its parameters (ids 1 is
    the own property, the nonparam count is 2), no property handler of
    its own, and one inherited scalar parameter. *)
Definition handlerless_calls : list ModelClass.setup_call :=
  [ ModelClass.add_params 0 0 2 ].

Definition handlerless_class : Res ModelClass.NcmModelClass :=
  b ← unit_interval_class 0.5%float;
  ModelClass.run_class_init handlerless_calls b.

(** The class level [handlerless_class] evaluates to, spelled out. *)
Definition handlerless_level : ModelClass.NcmModelClass :=
  Eval vm_compute in
    match handlerless_class with
    | Ok c => c
    | Fatal _ => ModelClass.ncm_model_class_init
    end.

(** A child of the one-parameter type with one own property below its
    parameters (id 1, the nonparam count being 2), handlers for it, one
    own scalar and one own vector parameter: id 2 is the value of the
    own scalar, 3 the value of the vector, 4 its length, 5 the fit flag
    of the scalar and 6 the fit flags of the vector. *)
Definition handled_calls : list ModelClass.setup_call :=
  [ ModelClass.add_params 1 1 2;
    ModelClass.set_sparam 1 "b" "b" 0%float 10%float 1%float 0%float 5%float
      NCM_PARAM_TYPE_FREE;
    ModelClass.set_vparam 0 3 "v" "v" 0%float 10%float 1%float 0%float
      4%float NCM_PARAM_TYPE_FIXED;
    ModelClass.check_params_info ].

Definition foo_set_property : fnptr := FnPtr "foo_set_property".
Definition foo_get_property : fnptr := FnPtr "foo_get_property".

Definition handled_class : Res ModelClass.NcmModelClass :=
  b ← unit_interval_class 0.5%float;
  c ← ModelClass.run_class_init handled_calls b;
  Ok (ModelClass.with_property_handlers c foo_set_property foo_get_property).

Definition handled_level : ModelClass.NcmModelClass :=
  Eval vm_compute in
    match handled_class with
    | Ok c => c
    | Fatal _ => ModelClass.ncm_model_class_init
    end.

(** The two levels and the child instance, spelled out. *)
Definition base_level : ModelClass.NcmModelClass :=
  Eval vm_compute in
    match base_class with
    | Ok c => c
    | Fatal _ => ModelClass.ncm_model_class_init
    end.

Definition child_level : ModelClass.NcmModelClass :=
  Eval vm_compute in
    match child_class with
    | Ok c => c
    | Fatal _ => ModelClass.ncm_model_class_init
    end.

Definition child_model : store * Model.NcmModel :=
  Eval vm_compute in
    match child_instance with
    | Ok x => x
    | Fatal _ => (∅, Model.ncm_model_init "none" ModelClass.ncm_model_class_init)
    end.

(** A level with one scalar slot declared and not yet registered, and
    the same level after the slot has been registered. *)
Definition one_slot_level : ModelClass.NcmModelClass :=
  Eval vm_compute in
    match ModelClass.ncm_model_class_add_params
            ModelClass.ncm_model_class_init 1 0 1 with
    | Ok c => c
    | Fatal _ => ModelClass.ncm_model_class_init
    end.

Definition one_slot_level_set : ModelClass.NcmModelClass :=
  Eval vm_compute in
    match ModelClass.ncm_model_class_set_sparam one_slot_level 0 "x" "x"
            0%float 1%float 1%float 0%float 0.5%float NCM_PARAM_TYPE_FREE with
    | Ok c => c
    | Fatal _ => ModelClass.ncm_model_class_init
    end.

(** A transform between vectors of length [len] that copies the first
    [len] cells it is given, padding with zeros: it checks nothing. *)
Definition padding_reparam (len : Z) (target : loc) : Reparam.NcmReparam :=
  {| Reparam.g_type := "FooReparamPad";
     Reparam.length := len;
     Reparam.new_params := target;
     Reparam.sparams := replicate (Z.to_nat len) None;
     Reparam.sparams_name_id := ∅;
     Reparam.old2new := fun v =>
       Ok (take (Z.to_nat len) v
           ++ replicate (Z.to_nat len - length v)%nat 0%float);
     Reparam.new2old := fun v => Ok v |}.

(** The one-parameter instance together with a further vector of [len]
    cells for a transform to own. *)
Definition instance_and_target (dflt : float) (len : Z)
  : Res (store * Model.NcmModel * loc) :=
  '(st, m) ← unit_interval_instance dflt;
  let '(st', l) := ncm_vector_new st len in
  Ok (st', m, l).

(** A transform that renames slot 0 of the one-parameter type to [y]. *)
Definition renaming_reparam (target : loc) : Reparam.NcmReparam :=
  {| Reparam.g_type := "FooReparamRename";
     Reparam.length := 1;
     Reparam.new_params := target;
     Reparam.sparams :=
       [Some (ncm_sparam_new "y" "y" 0%float 1%float 1%float 0%float 0.5%float
                NCM_PARAM_TYPE_FREE)];
     Reparam.sparams_name_id := {[ "y" := 0 ]};
     Reparam.old2new := fun v => Ok v;
     Reparam.new2old := fun v => Ok v |}.

(** Two instances of the one-parameter type in one store; the second
    has a transform of the right length attached, the first has none. *)
Definition two_instances : Res (store * Model.NcmModel * Model.NcmModel) :=
  c ← unit_interval_class 0.5%float;
  '(st1, a) ← Model.ncm_model_new numbered_component ∅ "FooUnit" c [];
  '(st2, b) ← Model.ncm_model_new numbered_component st1 "FooUnit" c [];
  let '(st3, l) := ncm_vector_new st2 1 in
  '(st4, b') ← Model.ncm_model_set_reparam st3 b (Some (padding_reparam 1 l));
  Ok (st4, a, b').

Definition plain_and_reparametrized
  : store * Model.NcmModel * Model.NcmModel :=
  Eval vm_compute in
    match two_instances with
    | Ok x => x
    | Fatal _ =>
        (∅, Model.ncm_model_init "none" ModelClass.ncm_model_class_init,
         Model.ncm_model_init "none" ModelClass.ncm_model_class_init)
    end.

Definition shared_store : store := fst (fst plain_and_reparametrized).
Definition plain_instance : Model.NcmModel :=
  snd (fst plain_and_reparametrized).
Definition reparametrized_instance : Model.NcmModel :=
  snd plain_and_reparametrized.

(** The one-parameter instance holding 0.5, -1 and 2. *)
Definition instance_at (dflt : float) : store * Model.NcmModel :=
  match unit_interval_instance dflt with
  | Ok x => x
  | Fatal _ => (∅, Model.ncm_model_init "none" ModelClass.ncm_model_class_init)
  end.

Definition instance_half : store * Model.NcmModel :=
  Eval vm_compute in instance_at 0.5%float.

Definition instance_minus_one : store * Model.NcmModel :=
  Eval vm_compute in instance_at (-1)%float.

Definition instance_two : store * Model.NcmModel :=
  Eval vm_compute in instance_at 2%float.

(** The one-parameter instance and a free vector of two cells. *)
Definition half_and_target : store * Model.NcmModel * loc :=
  Eval vm_compute in
    match instance_and_target 0.5%float 2 with
    | Ok x => x
    | Fatal _ =>
        (∅, Model.ncm_model_init "none" ModelClass.ncm_model_class_init,
         1%positive)
    end.

(** The one-parameter instance with the renaming transform attached. *)
Definition renamed_instance : store * Model.NcmModel :=
  Eval vm_compute in
    match
      '(st, m, l) ← instance_and_target 0.5%float 1;
      Model.ncm_model_set_reparam st m (Some (renaming_reparam l))
    with
    | Ok x => x
    | Fatal _ => (∅, Model.ncm_model_init "none" ModelClass.ncm_model_class_init)
    end.

(** A 1 x 1 target matrix and a 2 x 2 serialized matrix. *)
Definition target_1x1 : Matrix.NcmMatrix :=
  {| Matrix.size1 := 1; Matrix.size2 := 1; Matrix.tda := 1;
     Matrix.data := [7%float]; Matrix.type := Matrix.NCM_MATRIX_SLICE |}.

Definition row_of (ds : list float) : GVariant :=
  g_variant_new_array G_VARIANT_TYPE_DOUBLE (g_variant_new_double <$> ds).

Definition blob_2x2 : GVariant :=
  g_variant_new_array (G_VARIANT_TYPE_ARRAY_OF G_VARIANT_TYPE_DOUBLE)
    [ row_of [1%float; 2%float]; row_of [3%float; 4%float] ].

Definition blob_1x1 : GVariant :=
  g_variant_new_array (G_VARIANT_TYPE_ARRAY_OF G_VARIANT_TYPE_DOUBLE)
    [ row_of [9%float] ].

End Scenario.

(** ** Further concrete model types *)

Module ScenarioExtra.

Import Glib Param Vector Scenario.

(** A level that declares two scalars and two vector parameters on top
    of the one-parameter type, before any of them is registered. *)
Definition wide_level : ModelClass.NcmModelClass :=
  Eval vm_compute in
    match ModelClass.ncm_model_class_add_params one_slot_level_set 2 2 3 with
    | Ok c => c
    | Fatal _ => ModelClass.ncm_model_class_init
    end.

(** The wide level after the registration of its scalar slot 1, and
    after the registration of its vector slot 0. *)
Definition wide_level_scalar : ModelClass.NcmModelClass :=
  Eval vm_compute in
    match ModelClass.ncm_model_class_set_sparam wide_level 1 "s" "s"
            0%float 1%float 1%float 0%float 0.5%float NCM_PARAM_TYPE_FREE with
    | Ok c => c
    | Fatal _ => ModelClass.ncm_model_class_init
    end.

Definition wide_level_vector : ModelClass.NcmModelClass :=
  Eval vm_compute in
    match ModelClass.ncm_model_class_set_vparam wide_level 0 4 "w" "w"
            0%float 1%float 1%float 0%float 0.5%float NCM_PARAM_TYPE_FIXED with
    | Ok c => c
    | Fatal _ => ModelClass.ncm_model_class_init
    end.

(** A level that reserves no property id below its parameters. *)
Definition idless_level : ModelClass.NcmModelClass :=
  Eval vm_compute in
    match ModelClass.ncm_model_class_add_params one_slot_level_set 1 0 0 with
    | Ok c => c
    | Fatal _ => ModelClass.ncm_model_class_init
    end.

(** A base type with one scalar parameter and a child type that
    declares two more, none of them with a vector parameter. *)
Definition scalar_base_calls : list ModelClass.setup_call :=
  [ ModelClass.add_params 1 0 1;
    ModelClass.set_sparam 0 "a" "a" 0%float 10%float 1%float 0%float 2%float
      NCM_PARAM_TYPE_FREE;
    ModelClass.check_params_info ].

Definition scalar_child_level : ModelClass.NcmModelClass :=
  Eval vm_compute in
    match
      b ← ModelClass.run_class_init scalar_base_calls
            ModelClass.ncm_model_class_init;
      ModelClass.run_class_init many_child_calls b
    with
    | Ok c => c
    | Fatal _ => ModelClass.ncm_model_class_init
    end.

(** An instance of the child type with one vector parameter before
    [_ncm_model_constructed] runs, its two tables holding an entry for
    the vector parameter, of length 3. *)
Definition child_start : Model.NcmModel :=
  Model.with_vparam_tables (Model.ncm_model_init "FooChild" child_level)
    [3] [0].

(** The variant of type [aad] with the given rows. *)
Definition blob_of (m : list (list float)) : GVariant :=
  g_variant_new_array (G_VARIANT_TYPE_ARRAY_OF G_VARIANT_TYPE_DOUBLE)
    (row_of <$> m).

(** A 2 x 2 matrix kept in a block with rows three cells apart. *)
Definition padded_2x2 : Matrix.NcmMatrix :=
  {| Matrix.size1 := 2; Matrix.size2 := 2; Matrix.tda := 3;
     Matrix.data := [1%float; 2%float; 0%float; 3%float; 4%float];
     Matrix.type := Matrix.NCM_MATRIX_DERIVED |}.

(** Where the one-parameter instance keeps its values. *)
Definition half_location : loc :=
  Eval vm_compute in
    match Model.p (snd instance_half) with
    | Some l => l
    | None => 1%positive
    end.

(** The variant of type [ab] with the given booleans. *)
Definition flags_of (bs : list bool) : GVariant :=
  g_variant_new_array G_VARIANT_TYPE_BOOLEAN (g_variant_new_boolean <$> bs).

End ScenarioExtra.

(** * Properties *)

(** ** Facts about the GLib layer *)

Module GlibFacts.

Import Glib.

Lemma guint_modulus_pos : 0 < guint_modulus.
Proof. reflexivity. Qed.

Lemma guint_range z : is_guint (guint z).
Proof. unfold is_guint, guint. apply Z.mod_pos_bound, guint_modulus_pos. Qed.

Lemma guint_small z : is_guint z -> guint z = z.
Proof. unfold is_guint, guint. intros H. now apply Z.mod_small. Qed.

Lemma guint_idemp z : guint (guint z) = guint z.
Proof. apply guint_small, guint_range. Qed.

Lemma guint_add_l a b : guint (guint a + b) = guint (a + b).
Proof. unfold guint. apply Zplus_mod_idemp_l. Qed.

Lemma guint_add_r a b : guint (a + guint b) = guint (a + b).
Proof. unfold guint. apply Zplus_mod_idemp_r. Qed.

(** One subtraction followed by one addition, when the exact result fits. *)
Lemma guint_add_sub_small a b c :
  is_guint (a - b + c) -> guint_add (guint_sub a b) c = a - b + c.
Proof.
  intros H. unfold guint_add, guint_sub.
  rewrite guint_add_l. now apply guint_small.
Qed.

(** The same on a minuend that is itself reduced, whatever the size. *)
Lemma guint_add_sub_guint a b c :
  guint_add (guint_sub (guint a) b) c = guint (a - b + c).
Proof.
  unfold guint_add, guint_sub. rewrite guint_add_l.
  replace (guint a - b + c) with (guint a + (c - b)) by lia.
  rewrite guint_add_l. f_equal. lia.
Qed.

(** A negative number wraps to the top of the range. *)
Lemma guint_wrap z :
  - guint_modulus <= z < 0 -> guint z = z + guint_modulus.
Proof.
  intros H. unfold guint.
  rewrite <- (Z.mod_add z 1 guint_modulus) by (unfold guint_modulus; lia).
  apply Z.mod_small. lia.
Qed.

Lemma bind_Ok {A B} (m : Res A) (f : A -> Res B) (b : B) :
  m ≫= f = Ok b -> exists a, m = Ok a /\ f a = Ok b.
Proof. destruct m as [a|e]; simpl; [eauto | discriminate]. Qed.

(** Inversion of a bind that returned. *)
Tactic Notation "bind_inv" hyp(H) "as" simple_intropattern(x) ident(Hx) :=
  apply bind_Ok in H as (x & Hx & H).

Lemma g_assert_Ok b expr : g_assert b expr = Ok tt -> b = true.
Proof. destruct b; [reflexivity | discriminate]. Qed.

Lemma g_array_index_Ok {A} (arr : list A) i x :
  g_array_index arr i = Ok x ->
  0 <= i < Z.of_nat (length arr) /\ arr !! Z.to_nat i = Some x.
Proof.
  unfold g_array_index.
  destruct (Z.leb_spec 0 i), (Z.ltb_spec i (Z.of_nat (length arr)));
    simpl; try discriminate.
  destruct (arr !! Z.to_nat i) eqn:E; [|discriminate].
  intros [= ->]. split; [lia | reflexivity].
Qed.

Lemma g_array_index_lookup {A} (arr : list A) i x :
  0 <= i -> arr !! Z.to_nat i = Some x -> g_array_index arr i = Ok x.
Proof.
  intros Hi E. unfold g_array_index.
  pose proof (lookup_lt_Some _ _ _ E) as Hlt.
  destruct (Z.leb_spec 0 i); [|lia].
  destruct (Z.ltb_spec i (Z.of_nat (length arr))); [|lia].
  simpl. now rewrite E.
Qed.

Lemma g_array_set_Ok {A} (arr arr' : list A) i x :
  g_array_set arr i x = Ok arr' ->
  0 <= i < Z.of_nat (length arr) /\ arr' = <[Z.to_nat i := x]> arr.
Proof.
  unfold g_array_set.
  destruct (Z.leb_spec 0 i), (Z.ltb_spec i (Z.of_nat (length arr)));
    simpl; try discriminate.
  intros [= <-]. split; [lia | reflexivity].
Qed.

Lemma g_array_set_in_range {A} (arr : list A) i x :
  0 <= i < Z.of_nat (length arr) ->
  g_array_set arr i x = Ok (<[Z.to_nat i := x]> arr).
Proof.
  intros [H0 H1]. unfold g_array_set.
  destruct (Z.leb_spec 0 i); [|lia].
  destruct (Z.ltb_spec i (Z.of_nat (length arr))); [|lia].
  reflexivity.
Qed.

Lemma g_array_set_length {A} (arr arr' : list A) i x :
  g_array_set arr i x = Ok arr' -> length arr' = length arr.
Proof.
  intros H. apply g_array_set_Ok in H as [_ ->]. apply length_insert.
Qed.

(** Reading back after a store into an array. *)
Lemma g_array_index_set_eq {A} (arr arr' : list A) i x :
  g_array_set arr i x = Ok arr' -> g_array_index arr' i = Ok x.
Proof.
  intros H. apply g_array_set_Ok in H as [Hi ->].
  apply g_array_index_lookup; [lia|].
  apply list_lookup_insert_eq. lia.
Qed.

Lemma g_array_index_set_ne {A} (arr arr' : list A) i k x :
  g_array_set arr i x = Ok arr' -> k <> i ->
  g_array_index arr' k = g_array_index arr k.
Proof.
  intros H Hne. apply g_array_set_Ok in H as [Hi ->].
  unfold g_array_index. rewrite length_insert.
  destruct (Z.leb_spec 0 k), (Z.ltb_spec k (Z.of_nat (length arr)));
    simpl; try reflexivity.
  rewrite list_lookup_insert_ne; [reflexivity | lia].
Qed.

(** An invariant indexed by the loop counter holds when the loop is left. *)
Lemma for_loop_from_ind {St} (P : Z -> St -> Prop) (body : Z -> St -> Res St)
  (count : nat) :
  forall i0 s s',
    P i0 s ->
    (forall i s1 s2,
        i0 <= i < i0 + Z.of_nat count ->
        P i s1 -> body i s1 = Ok s2 -> P (i + 1) s2) ->
    for_loop_from i0 count body s = Ok s' ->
    P (i0 + Z.of_nat count) s'.
Proof.
  induction count as [|c IH]; intros i0 s s' HP Hstep Hrun; simpl in Hrun.
  - injection Hrun as <-. now replace (i0 + Z.of_nat 0) with i0 by lia.
  - apply bind_Ok in Hrun as (s1 & Hb & Hrest).
    replace (i0 + Z.of_nat (S c)) with ((i0 + 1) + Z.of_nat c) by lia.
    apply (IH (i0 + 1) s1 s'); [| |exact Hrest].
    + apply (Hstep i0 s s1); [lia | exact HP | exact Hb].
    + intros i s2 s3 Hi. apply Hstep. lia.
Qed.

Lemma for_loop_ind {St} (P : Z -> St -> Prop) (body : Z -> St -> Res St) n s s' :
  0 <= n ->
  P 0 s ->
  (forall i s1 s2, 0 <= i < n -> P i s1 -> body i s1 = Ok s2 -> P (i + 1) s2) ->
  for_loop n body s = Ok s' ->
  P n s'.
Proof.
  intros Hn HP Hstep Hrun. unfold for_loop in Hrun.
  replace n with (0 + Z.of_nat (Z.to_nat n)) at 1 by lia.
  apply (for_loop_from_ind P body (Z.to_nat n) 0 s s' HP); [|exact Hrun].
  intros i s1 s2 Hi. apply Hstep. lia.
Qed.

(** An invariant that does not mention the counter. *)
Lemma for_loop_preserves {St} (P : St -> Prop) (body : Z -> St -> Res St) n s s' :
  P s ->
  (forall i s1 s2, P s1 -> body i s1 = Ok s2 -> P s2) ->
  for_loop n body s = Ok s' ->
  P s'.
Proof.
  intros HP Hstep Hrun. unfold for_loop in Hrun.
  apply (for_loop_from_ind (fun _ => P) body (Z.to_nat n) 0 s s' HP);
    [|exact Hrun].
  intros i s1 s2 _. apply Hstep.
Qed.

(** A loop whose body never aborts on the states of an invariant runs to
    its end. *)
Lemma for_loop_from_total {St} (P : Z -> St -> Prop) (body : Z -> St -> Res St)
  (count : nat) :
  forall i0 s,
    P i0 s ->
    (forall i s1,
        i0 <= i < i0 + Z.of_nat count -> P i s1 ->
        exists s2, body i s1 = Ok s2 /\ P (i + 1) s2) ->
    exists s', for_loop_from i0 count body s = Ok s'
               /\ P (i0 + Z.of_nat count) s'.
Proof.
  induction count as [|c IH]; intros i0 s HP Hstep; simpl.
  - exists s. split; [reflexivity|].
    now replace (i0 + Z.of_nat 0) with i0 by lia.
  - destruct (Hstep i0 s) as (s1 & Hb & HP1); [lia | exact HP |].
    rewrite Hb. simpl.
    replace (i0 + Z.of_nat (S c)) with ((i0 + 1) + Z.of_nat c) by lia.
    apply IH; [exact HP1|].
    intros i s2 Hi. apply Hstep. lia.
Qed.

Lemma for_loop_total {St} (P : Z -> St -> Prop) (body : Z -> St -> Res St) n s :
  0 <= n ->
  P 0 s ->
  (forall i s1, 0 <= i < n -> P i s1 ->
                exists s2, body i s1 = Ok s2 /\ P (i + 1) s2) ->
  exists s', for_loop n body s = Ok s' /\ P n s'.
Proof.
  intros Hn HP Hstep. unfold for_loop.
  destruct (for_loop_from_total P body (Z.to_nat n) 0 s HP) as (s' & Hrun & HP').
  - intros i s1 Hi. apply Hstep. lia.
  - exists s'. split; [exact Hrun|].
    now replace n with (0 + Z.of_nat (Z.to_nat n)) by lia.
Qed.

End GlibFacts.

(** ** The variant decoder of [ncm_matrix.c] *)

Module MatrixSpec.

Import Glib Matrix Scenario.

(** C9, as the code has it.  When the serialized matrix has type "aad"
    and at least one row, and the target is already allocated (its two
    dimensions are not both zero) with a number of rows or of columns
    that differs from the serialized one, [ncm_matrix_set_from_variant]
    stops the program with [g_error]: nothing is returned to the caller
    and no cell of the target has been written. *)
Theorem set_from_variant_shape_mismatch_is_fatal
  (cm : NcmMatrix) (var row : GVariant) :
  g_variant_is_of_type var aad = true ->
  g_variant_get_child_value var 0 = Ok row ->
  ~ (ncm_matrix_nrows cm = 0 /\ ncm_matrix_ncols cm = 0) ->
  guint (g_variant_n_children var) <> ncm_matrix_nrows cm
  \/ guint (g_variant_n_children row) <> ncm_matrix_ncols cm ->
  ncm_matrix_set_from_variant cm var
  = Fatal (g_error set_from_variant_shape_msg).
Proof.
  intros Hty Hrow Halloc Hshape.
  unfold ncm_matrix_set_from_variant.
  rewrite Hty, Hrow. simpl.
  destruct (Z.eqb_spec (ncm_matrix_nrows cm) 0) as [Hr|Hr];
    destruct (Z.eqb_spec (ncm_matrix_ncols cm) 0) as [Hc|Hc]; simpl;
    try (exfalso; apply Halloc; split; assumption).
  all: destruct (Z.eqb_spec (guint (g_variant_n_children var))
                   (ncm_matrix_nrows cm)) as [E1|E1];
    destruct (Z.eqb_spec (guint (g_variant_n_children row))
                (ncm_matrix_ncols cm)) as [E2|E2]; simpl;
    try reflexivity.
  all: exfalso; destruct Hshape as [H|H]; [apply H, E1 | apply H, E2].
Qed.

Lemma set_from_variant_shape_mismatch_is_fatal_witness :
  g_variant_is_of_type blob_2x2 aad = true
  /\ ~ (ncm_matrix_nrows target_1x1 = 0 /\ ncm_matrix_ncols target_1x1 = 0)
  /\ guint (g_variant_n_children blob_2x2) <> ncm_matrix_nrows target_1x1
  /\ ncm_matrix_set_from_variant target_1x1 blob_2x2
     = Fatal (g_error set_from_variant_shape_msg).
Proof.
  assert (H1 : g_variant_is_of_type blob_2x2 aad = true) by reflexivity.
  assert (H2 : ~ (ncm_matrix_nrows target_1x1 = 0
                  /\ ncm_matrix_ncols target_1x1 = 0))
    by (intros [H _]; discriminate H).
  assert (H3 : guint (g_variant_n_children blob_2x2)
               <> ncm_matrix_nrows target_1x1)
    by (intros H; discriminate H).
  split; [exact H1 | split; [exact H2 | split; [exact H3 |]]].
  apply (set_from_variant_shape_mismatch_is_fatal target_1x1 blob_2x2
           (row_of [1%float; 2%float]) H1 eq_refl H2 (or_introl H3)).
Defined.

(** C9 as the specification words it fails: on a 1 x 1 target and a
    2 x 2 serialized matrix the decoder does not come back to its caller
    with a failure to handle, it aborts. *)
Lemma set_from_variant_mismatch_not_recoverable :
  ncm_matrix_nrows target_1x1 = 1
  /\ ncm_matrix_ncols target_1x1 = 1
  /\ g_variant_n_children blob_2x2 = 2
  /\ aborts (ncm_matrix_set_from_variant target_1x1 blob_2x2)
  /\ ~ (exists cm', ncm_matrix_set_from_variant target_1x1 blob_2x2 = Ok cm').
Proof.
  repeat split.
  intros [cm' H]. discriminate H.
Qed.

(** When the shapes agree the decoder does return, with the cells of the
    serialized matrix. *)
Lemma set_from_variant_same_shape :
  ncm_matrix_set_from_variant target_1x1 blob_1x1
  = Ok {| size1 := 1; size2 := 1; tda := 1; data := [9%float];
          type := NCM_MATRIX_SLICE |}.
Proof. reflexivity. Qed.

End MatrixSpec.

(** ** The class level: property ids, registration, inheritance *)

Module ModelClassSpec.

Import Glib GlibFacts Param ModelClass Scenario.

(** The region tests on their own: what both routers do once the own
    handler is out of the way. *)
Lemma region_tests_walk (model_class : NcmModelClass) (prop_id : Z) :
  counts_wf model_class ->
  prop_id_in_range model_class prop_id ->
  nonparam_prop_len model_class <= prop_id ->
  let sparam_id :=
    guint_add (guint_sub prop_id (nonparam_prop_len model_class))
      (parent_sparam_len model_class) in
  let vparam_id :=
    guint_add (guint_sub sparam_id (sparam_len model_class))
      (parent_vparam_len model_class) in
  let vparam_len_id :=
    guint_add (guint_sub vparam_id (vparam_len model_class))
      (parent_vparam_len model_class) in
  let sparam_fit_id :=
    guint_add (guint_sub vparam_len_id (vparam_len model_class))
      (parent_sparam_len model_class) in
  let vparam_fit_id :=
    guint_add (guint_sub sparam_fit_id (sparam_len model_class))
      (parent_vparam_len model_class) in
  (if sparam_id <? sparam_len model_class then SParamValue sparam_id
   else if vparam_id <? vparam_len model_class then VParamValue vparam_id
   else if vparam_len_id <? vparam_len model_class
   then VParamLength vparam_len_id
   else if sparam_fit_id <? sparam_len model_class
   then SParamFit sparam_fit_id
   else if vparam_fit_id <? vparam_len model_class
   then VParamFit vparam_fit_id
   else AssertNotReached)
  = spec_walk_regions model_class prop_id.
Proof.
  intros (Hnp & Hsl & Hvl & Hps & Hpv) [Hid Hfit] Hge s v vl sf vf.
  unfold is_guint, guint_modulus in Hnp, Hsl, Hvl, Hfit.
  unfold spec_walk_regions, own_sparam_count, own_vparam_count. cbv zeta.
  assert (Es : s = prop_id - nonparam_prop_len model_class
                   + parent_sparam_len model_class).
  { apply guint_add_sub_small. unfold is_guint, guint_modulus. lia. }
  destruct (Z.ltb_spec s (sparam_len model_class)) as [H1|H1];
    destruct (Z.ltb_spec (prop_id - nonparam_prop_len model_class)
                (sparam_len model_class - parent_sparam_len model_class))
      as [K1|K1]; try lia.
  { f_equal. lia. }
  assert (Ev : v = s - sparam_len model_class + parent_vparam_len model_class).
  { apply guint_add_sub_small. unfold is_guint, guint_modulus. lia. }
  destruct (Z.ltb_spec v (vparam_len model_class)) as [H2|H2];
    match goal with
    | |- context [?a <? vparam_len model_class - parent_vparam_len model_class] =>
        destruct (Z.ltb_spec a
                    (vparam_len model_class - parent_vparam_len model_class))
          as [K2|K2]
    end; try lia.
  { f_equal. lia. }
  assert (Evl : vl = v - vparam_len model_class + parent_vparam_len model_class).
  { apply guint_add_sub_small. unfold is_guint, guint_modulus. lia. }
  destruct (Z.ltb_spec vl (vparam_len model_class)) as [H3|H3];
    match goal with
    | |- context [?a <? vparam_len model_class - parent_vparam_len model_class] =>
        destruct (Z.ltb_spec a
                    (vparam_len model_class - parent_vparam_len model_class))
          as [K3|K3]
    end; try lia.
  { f_equal. lia. }
  assert (Esf : sf = vl - vparam_len model_class + parent_sparam_len model_class).
  { apply guint_add_sub_small. unfold is_guint, guint_modulus. lia. }
  destruct (Z.ltb_spec sf (sparam_len model_class)) as [H4|H4];
    match goal with
    | |- context [?a <? sparam_len model_class - parent_sparam_len model_class] =>
        destruct (Z.ltb_spec a
                    (sparam_len model_class - parent_sparam_len model_class))
          as [K4|K4]
    end; try lia.
  { f_equal. lia. }
  assert (Evf : vf = sf - sparam_len model_class + parent_vparam_len model_class).
  { apply guint_add_sub_small. unfold is_guint, guint_modulus. lia. }
  destruct (Z.ltb_spec vf (vparam_len model_class)) as [H5|H5];
    match goal with
    | |- context [?a <? vparam_len model_class - parent_vparam_len model_class] =>
        destruct (Z.ltb_spec a
                    (vparam_len model_class - parent_vparam_len model_class))
          as [K5|K5]
    end; try lia.
  { f_equal. lia. }
  reflexivity.
Qed.

Lemma region_tests_never_handler (a b c d e sl vl : Z) (h : fnptr) (n : Z) :
  (if a <? sl then SParamValue a
   else if b <? vl then VParamValue b
   else if c <? vl then VParamLength c
   else if d <? sl then SParamFit d
   else if e <? vl then VParamFit e
   else AssertNotReached) <> ClassHandler h n.
Proof.
  destruct (a <? sl), (b <? vl), (c <? vl), (d <? sl), (e <? vl);
    discriminate.
Qed.

(** The region tests on an id below the nonparam count: the 32-bit ids
    of the regions wrap unless they reach back into the inherited
    slots. *)
Lemma region_tests_below (model_class : NcmModelClass) (prop_id : Z) :
  counts_wf model_class ->
  level_ids_fit model_class ->
  0 <= prop_id < nonparam_prop_len model_class ->
  let sparam_id :=
    guint_add (guint_sub prop_id (nonparam_prop_len model_class))
      (parent_sparam_len model_class) in
  let vparam_id :=
    guint_add (guint_sub sparam_id (sparam_len model_class))
      (parent_vparam_len model_class) in
  let vparam_len_id :=
    guint_add (guint_sub vparam_id (vparam_len model_class))
      (parent_vparam_len model_class) in
  let sparam_fit_id :=
    guint_add (guint_sub vparam_len_id (vparam_len model_class))
      (parent_sparam_len model_class) in
  let vparam_fit_id :=
    guint_add (guint_sub sparam_fit_id (sparam_len model_class))
      (parent_vparam_len model_class) in
  (if sparam_id <? sparam_len model_class then SParamValue sparam_id
   else if vparam_id <? vparam_len model_class then VParamValue vparam_id
   else if vparam_len_id <? vparam_len model_class
   then VParamLength vparam_len_id
   else if sparam_fit_id <? sparam_len model_class
   then SParamFit sparam_fit_id
   else if vparam_fit_id <? vparam_len model_class
   then VParamFit vparam_fit_id
   else AssertNotReached)
  = walk_regions_below_nonparam model_class prop_id.
Proof.
  intros (Hnp & Hsl & Hvl & Hps & Hpv) Hfit Hid s v vl sf vf.
  unfold level_ids_fit, own_sparam_count, own_vparam_count in Hfit.
  unfold walk_regions_below_nonparam, own_sparam_count. cbv zeta.
  set (np := nonparam_prop_len model_class) in *.
  set (sl := sparam_len model_class) in *.
  set (vln := vparam_len model_class) in *.
  set (ps := parent_sparam_len model_class) in *.
  set (pv := parent_vparam_len model_class) in *.
  assert (Es : s = guint (prop_id - np + ps)).
  { unfold s, guint_add, guint_sub. apply guint_add_l. }
  assert (Ev : v = guint (prop_id - np + ps - sl + pv)).
  { unfold v. rewrite Es. apply guint_add_sub_guint. }
  assert (Evl : vl = guint (prop_id - np + ps - sl + pv - vln + pv)).
  { unfold vl. rewrite Ev. apply guint_add_sub_guint. }
  assert (Esf : sf = guint (prop_id - np + ps - sl + pv - vln + pv - vln + ps)).
  { unfold sf. rewrite Evl. apply guint_add_sub_guint. }
  assert (Evf : vf = guint (prop_id - np + ps - sl + pv - vln + pv - vln + ps
                            - sl + pv)).
  { unfold vf. rewrite Esf. apply guint_add_sub_guint. }
  clearbody s v vl sf vf. subst s v vl sf vf.
  unfold is_guint in Hnp, Hsl, Hvl.
  destruct (Z.leb_spec 0 (ps + (prop_id - np))) as [K0|K0].
  { rewrite (guint_small (prop_id - np + ps)) by (unfold is_guint; lia).
    destruct (Z.ltb_spec (prop_id - np + ps) sl) as [_|H]; [|lia].
    f_equal. lia. }
  rewrite (guint_wrap (prop_id - np + ps)) by lia.
  destruct (Z.ltb_spec (prop_id - np + ps + guint_modulus) sl) as [H|_];
    [lia|].
  destruct (Z.leb_spec 0 (pv + (prop_id - np - (sl - ps)))) as [K1|K1].
  { rewrite (guint_small (prop_id - np + ps - sl + pv))
      by (unfold is_guint; lia).
    destruct (Z.ltb_spec (prop_id - np + ps - sl + pv) vln) as [_|H]; [|lia].
    f_equal. lia. }
  rewrite (guint_wrap (prop_id - np + ps - sl + pv)) by lia.
  destruct (Z.ltb_spec (prop_id - np + ps - sl + pv + guint_modulus) vln)
    as [H|_]; [lia|].
  rewrite (guint_wrap (prop_id - np + ps - sl + pv - vln + pv)) by lia.
  destruct (Z.ltb_spec
              (prop_id - np + ps - sl + pv - vln + pv + guint_modulus) vln)
    as [H|_]; [lia|].
  rewrite (guint_wrap (prop_id - np + ps - sl + pv - vln + pv - vln + ps))
    by lia.
  destruct (Z.ltb_spec
              (prop_id - np + ps - sl + pv - vln + pv - vln + ps
               + guint_modulus) sl) as [H|_]; [lia|].
  rewrite (guint_wrap (prop_id - np + ps - sl + pv - vln + pv - vln + ps
                       - sl + pv)) by lia.
  destruct (Z.ltb_spec
              (prop_id - np + ps - sl + pv - vln + pv - vln + ps - sl + pv
               + guint_modulus) vln) as [H|_]; [lia|].
  reflexivity.
Qed.

(** C2, as the code has it.  On a class level with unsigned counters and
    for a property id that the 32-bit arithmetic does not wrap: an id at
    or above the nonparam count is resolved, by the getter and by the
    setter alike, by subtracting the nonparam count and walking the five
    regions own scalar values, own vector values, own vector lengths, own
    scalar fit flags, own vector fit flags, each as long as the number of
    slots this level declares itself, and it goes to the first region it
    falls in.  An id below the nonparam count goes to the level's own
    property handler when the level has installed one.  When it has not,
    the id is never handed to a handler: it falls through to the same
    region tests, which on a level whose ids fit in 32 bits answer it
    from the inherited scalar slot [parent_sparam_len - d], [d] being the
    distance of the id below the nonparam count, when there is one, else
    from the inherited vector slot the second test reaches back to, and
    else end in [g_assert_not_reached]. *)
Theorem property_dispatch_walks_own_regions
  (model_class : NcmModelClass) (prop_id : Z) :
  counts_wf model_class ->
  prop_id_in_range model_class prop_id ->
  (nonparam_prop_len model_class <= prop_id ->
   _ncm_model_class_get_property model_class prop_id
   = spec_walk_regions model_class prop_id
   /\ _ncm_model_class_set_property model_class prop_id
      = spec_walk_regions model_class prop_id)
  /\ (prop_id < nonparam_prop_len model_class ->
      (forall h, get_property model_class = Some h ->
                 _ncm_model_class_get_property model_class prop_id
                 = ClassHandler h prop_id)
      /\ (forall h, set_property model_class = Some h ->
                    _ncm_model_class_set_property model_class prop_id
                    = ClassHandler h prop_id)
      /\ (get_property model_class = None ->
          (forall h n, _ncm_model_class_get_property model_class prop_id
                       <> ClassHandler h n)
          /\ (level_ids_fit model_class ->
              _ncm_model_class_get_property model_class prop_id
              = walk_regions_below_nonparam model_class prop_id))
      /\ (set_property model_class = None ->
          (forall h n, _ncm_model_class_set_property model_class prop_id
                       <> ClassHandler h n)
          /\ (level_ids_fit model_class ->
              _ncm_model_class_set_property model_class prop_id
              = walk_regions_below_nonparam model_class prop_id))).
Proof.
  intros Hwf Hid. split.
  - intros Hge.
    pose proof (region_tests_walk model_class prop_id Hwf Hid Hge) as Hwalk.
    cbv zeta in Hwalk.
    unfold _ncm_model_class_get_property, _ncm_model_class_set_property.
    cbv zeta.
    destruct (Z.ltb_spec prop_id (nonparam_prop_len model_class)); [lia|].
    split; exact Hwalk.
  - intros Hlt.
    pose proof (fun Hfit =>
                  region_tests_below model_class prop_id Hwf Hfit
                    (conj (proj1 Hid) Hlt)) as Hbelow.
    cbv zeta in Hbelow.
    unfold _ncm_model_class_get_property, _ncm_model_class_set_property.
    cbv zeta.
    destruct (Z.ltb_spec prop_id (nonparam_prop_len model_class)); [|lia].
    split; [intros h ->; reflexivity|].
    split; [intros h ->; reflexivity|].
    split; intros ->;
      (split; [intros h n; apply region_tests_never_handler | exact Hbelow]).
Qed.

Lemma handlerless_level_built : handlerless_class = Ok handlerless_level.
Proof. reflexivity. Qed.

Lemma handlerless_level_wf :
  counts_wf handlerless_level /\ prop_id_in_range handlerless_level 1.
Proof.
  unfold counts_wf, prop_id_in_range, is_guint, guint_modulus. cbn. lia.
Qed.

Lemma handled_level_built : handled_class = Ok handled_level.
Proof. reflexivity. Qed.

Lemma handled_level_wf : counts_wf handled_level.
Proof. unfold counts_wf, is_guint, guint_modulus. cbn. lia. Qed.

Lemma property_dispatch_walks_own_regions_witness :
  (counts_wf handled_level
   /\ prop_id_in_range handled_level 1
   /\ 1 < nonparam_prop_len handled_level
   /\ get_property handled_level = Some foo_get_property
   /\ set_property handled_level = Some foo_set_property
   /\ _ncm_model_class_get_property handled_level 1
      = ClassHandler foo_get_property 1
   /\ _ncm_model_class_set_property handled_level 1
      = ClassHandler foo_set_property 1)
  /\ (prop_id_in_range handled_level 5
      /\ nonparam_prop_len handled_level <= 5
      /\ spec_walk_regions handled_level 5 = SParamFit 1
      /\ _ncm_model_class_get_property handled_level 5
         = spec_walk_regions handled_level 5
      /\ _ncm_model_class_set_property handled_level 5
         = spec_walk_regions handled_level 5)
  /\ (counts_wf handlerless_level
      /\ prop_id_in_range handlerless_level 1
      /\ 1 < nonparam_prop_len handlerless_level
      /\ get_property handlerless_level = None
      /\ set_property handlerless_level = None
      /\ level_ids_fit handlerless_level
      /\ walk_regions_below_nonparam handlerless_level 1 = SParamValue 0
      /\ _ncm_model_class_get_property handlerless_level 1
         = walk_regions_below_nonparam handlerless_level 1
      /\ _ncm_model_class_set_property handlerless_level 1
         = walk_regions_below_nonparam handlerless_level 1).
Proof.
  assert (Hwf : counts_wf handled_level) by apply handled_level_wf.
  assert (Hid1 : prop_id_in_range handled_level 1)
    by (unfold prop_id_in_range, guint_modulus; cbn; lia).
  assert (Hid5 : prop_id_in_range handled_level 5)
    by (unfold prop_id_in_range, guint_modulus; cbn; lia).
  assert (Hlt : 1 < nonparam_prop_len handled_level) by (cbn; lia).
  assert (Hge : nonparam_prop_len handled_level <= 5) by (cbn; lia).
  assert (Hwf0 : counts_wf handlerless_level) by apply handlerless_level_wf.
  assert (Hid0 : prop_id_in_range handlerless_level 1)
    by apply handlerless_level_wf.
  assert (Hlt0 : 1 < nonparam_prop_len handlerless_level) by (cbn; lia).
  assert (Hfit0 : level_ids_fit handlerless_level)
    by (unfold level_ids_fit, own_sparam_count, own_vparam_count,
          guint_modulus; cbn; lia).
  pose proof (proj2 (property_dispatch_walks_own_regions handled_level 1
                       Hwf Hid1) Hlt) as (Hget & Hset & _).
  pose proof (proj1 (property_dispatch_walks_own_regions handled_level 5
                       Hwf Hid5) Hge) as [Hget5 Hset5].
  pose proof (proj2 (property_dispatch_walks_own_regions handlerless_level 1
                       Hwf0 Hid0) Hlt0) as (_ & _ & Hget0 & Hset0).
  split; [|split].
  - split; [exact Hwf|]. split; [exact Hid1|]. split; [exact Hlt|].
    split; [reflexivity|]. split; [reflexivity|].
    split; [exact (Hget foo_get_property eq_refl)
           | exact (Hset foo_set_property eq_refl)].
  - split; [exact Hid5|]. split; [exact Hge|]. split; [reflexivity|].
    split; [exact Hget5 | exact Hset5].
  - split; [exact Hwf0|]. split; [exact Hid0|]. split; [exact Hlt0|].
    split; [reflexivity|]. split; [reflexivity|]. split; [exact Hfit0|].
    split; [reflexivity|].
    split; [exact (proj2 (Hget0 eq_refl) Hfit0)
           | exact (proj2 (Hset0 eq_refl) Hfit0)].
Defined.

(** C2 as the specification words it fails for ids below the nonparam
    count: the level built by [handlerless_calls] (nonparam count 2, one
    inherited scalar, no handler of its own) answers id 1 from the value
    of the inherited scalar slot 0, not from a handler of its own. *)
Lemma handlerless_level_aliases_parent_slot :
  handlerless_class = Ok handlerless_level
  /\ counts_wf handlerless_level
  /\ prop_id_in_range handlerless_level 1
  /\ 1 < nonparam_prop_len handlerless_level
  /\ _ncm_model_class_get_property handlerless_level 1 = SParamValue 0
  /\ _ncm_model_class_set_property handlerless_level 1 = SParamValue 0
  /\ ~ (exists h, _ncm_model_class_get_property handlerless_level 1
                  = ClassHandler h 1).
Proof.
  split; [reflexivity|].
  split; [apply handlerless_level_wf|].
  split; [apply handlerless_level_wf|].
  split; [cbn; lia|].
  split; [reflexivity|].
  split; [reflexivity|].
  intros [h H]. discriminate H.
Qed.

(** *** Registration of a scalar slot *)

Lemma set_sparam_inv model_class i sy na lb ub sc tol dv pt model_class' :
  ncm_model_class_set_sparam model_class i sy na lb ub sc tol dv pt
  = Ok model_class' ->
  exists l,
    sparam model_class = Some l
    /\ 0 <= i < Z.of_nat (length l)
    /\ l !! Z.to_nat i = Some None
    /\ sparam model_class'
       = Some (<[Z.to_nat i := Some (ncm_sparam_new na sy lb ub sc tol dv pt)]> l)
    /\ vparam model_class' = vparam model_class
    /\ nonparam_prop_len model_class' = nonparam_prop_len model_class
    /\ sparam_len model_class' = sparam_len model_class
    /\ vparam_len model_class' = vparam_len model_class
    /\ parent_sparam_len model_class' = parent_sparam_len model_class
    /\ parent_vparam_len model_class' = parent_vparam_len model_class
    /\ 0 < guint_add (guint_sub i (parent_sparam_len model_class))
             (nonparam_prop_len model_class).
Proof.
  unfold ncm_model_class_set_sparam. intros H.
  bind_inv H as [] Hassert. apply g_assert_Ok in Hassert.
  bind_inv H as [d|] Hslot; [discriminate|].
  bind_inv H as arr Hstore. injection H as <-.
  destruct (sparam model_class) as [l|] eqn:El; [|discriminate].
  simpl in Hslot. apply g_array_index_Ok in Hslot as [Hi Hl].
  simpl in Hstore. bind_inv Hstore as l' Hset. injection Hstore as <-.
  apply g_array_set_Ok in Hset as [_ ->].
  exists l. cbn. repeat split; try reflexivity; try lia; try assumption.
Qed.

(** C7.  Once [ncm_model_class_set_sparam] has installed a descriptor at
    a scalar slot, a second call on the same index, with whatever
    arguments, stops with the fatal error "Scalar Parameter: %u is
    already set." and the descriptor installed first is what the slot
    holds. *)
Theorem set_sparam_twice_is_fatal
  (model_class model_class' : NcmModelClass) (sparam_id : Z)
  (symbol1 name1 : string) (lb1 ub1 scale1 abstol1 default1 : float)
  (ppt1 : NcmParamType)
  (symbol2 name2 : string) (lb2 ub2 scale2 abstol2 default2 : float)
  (ppt2 : NcmParamType) :
  ncm_model_class_set_sparam model_class sparam_id symbol1 name1
    lb1 ub1 scale1 abstol1 default1 ppt1 = Ok model_class' ->
  ncm_model_class_set_sparam model_class' sparam_id symbol2 name2
    lb2 ub2 scale2 abstol2 default2 ppt2
  = Fatal (g_error sparam_already_set_msg)
  /\ g_ptr_array_index (sparam model_class') sparam_id
     = Ok (Some (ncm_sparam_new name1 symbol1 lb1 ub1 scale1 abstol1 default1
                   ppt1)).
Proof.
  intros H.
  apply set_sparam_inv in H
    as (l & El & Hi & Hl & Es & Ev & Enp & Esl & Evl & Eps & Epv & Hpos).
  assert (Hslot :
    g_ptr_array_index (sparam model_class') sparam_id
    = Ok (Some (ncm_sparam_new name1 symbol1 lb1 ub1 scale1 abstol1 default1
                  ppt1))).
  { rewrite Es. apply (g_array_index_lookup _ sparam_id); [lia|].
    apply list_lookup_insert_eq. lia. }
  split; [|exact Hslot].
  unfold ncm_model_class_set_sparam.
  rewrite Eps, Enp.
  apply Z.ltb_lt in Hpos. rewrite Hpos. simpl.
  rewrite Hslot. reflexivity.
Qed.

(** Whenever the slot already holds a descriptor the registration is
    refused, by the assertion on the property id or by the error on the
    slot; it never returns a class. *)
Lemma set_sparam_on_set_slot_aborts model_class i d sy na lb ub sc tol dv pt :
  g_ptr_array_index (sparam model_class) i = Ok (Some d) ->
  aborts (ncm_model_class_set_sparam model_class i sy na lb ub sc tol dv pt).
Proof.
  intros H. unfold ncm_model_class_set_sparam.
  destruct (g_assert _ _) as [[]|e]; simpl; [|exact I].
  rewrite H. exact I.
Qed.

Lemma set_sparam_twice_is_fatal_witness :
  ncm_model_class_set_sparam one_slot_level 0 "x" "x"
    0%float 1%float 1%float 0%float 0.5%float NCM_PARAM_TYPE_FREE
  = Ok one_slot_level_set
  /\ ncm_model_class_set_sparam one_slot_level_set 0 "y" "y"
       0%float 2%float 1%float 0%float 1.5%float NCM_PARAM_TYPE_FIXED
     = Fatal (g_error sparam_already_set_msg)
  /\ g_ptr_array_index (sparam one_slot_level_set) 0
     = Ok (Some (ncm_sparam_new "x" "x" 0%float 1%float 1%float 0%float
                   0.5%float NCM_PARAM_TYPE_FREE)).
Proof.
  assert (H : ncm_model_class_set_sparam one_slot_level 0 "x" "x"
                0%float 1%float 1%float 0%float 0.5%float NCM_PARAM_TYPE_FREE
              = Ok one_slot_level_set) by reflexivity.
  split; [exact H|].
  exact (set_sparam_twice_is_fatal one_slot_level one_slot_level_set 0
           "x" "x" 0%float 1%float 1%float 0%float 0.5%float
           NCM_PARAM_TYPE_FREE
           "y" "y" 0%float 2%float 1%float 0%float 1.5%float
           NCM_PARAM_TYPE_FIXED H).
Defined.

(** *** Extending a level: [ncm_model_class_add_params] *)

Lemma g_ptr_array_index_Some {A} (l : list (option A)) i :
  g_ptr_array_index (Some l) i = g_array_index l i.
Proof. reflexivity. Qed.

Lemma copy_parent_params_spec {A} (copy : A -> A)
  (old : option (list (option A))) (fresh arr : list (option A))
  (parent_len : Z) :
  copy_parent_params copy old fresh parent_len = Ok arr ->
  forall i d,
    0 <= i < parent_len ->
    g_ptr_array_index old i = Ok (Some d) ->
    g_array_index arr i = Ok (Some (copy d)).
Proof.
  intros Hrun i d Hi. revert i d Hi.
  destruct (Z_le_gt_dec 0 parent_len) as [Hn|Hn]; [|intros; lia].
  unfold copy_parent_params in Hrun.
  refine (for_loop_ind
            (fun n a => forall i d, 0 <= i < n ->
                          g_ptr_array_index old i = Ok (Some d) ->
                          g_array_index a i = Ok (Some (copy d)))
            _ parent_len fresh arr Hn _ _ Hrun); [intros; lia |].
  intros n a a' Hn' IH Hbody i d Hi Hold.
  bind_inv Hbody as [d'|] Hread; [|discriminate].
  destruct (Z.eq_dec i n) as [->|Hne].
  - rewrite Hread in Hold. injection Hold as ->.
    now apply g_array_index_set_eq in Hbody.
  - rewrite (g_array_index_set_ne _ _ _ _ _ Hbody Hne).
    apply IH; [lia | exact Hold].
Qed.

Lemma grow_params_copies {A} (copy : A -> A)
  (old new : option (list (option A))) (new_len parent_len : Z) :
  (forall d, copy d = d) ->
  grow_params copy old new_len parent_len = Ok new ->
  forall i d,
    0 <= i < parent_len ->
    g_ptr_array_index old i = Ok (Some d) ->
    g_ptr_array_index new i = Ok (Some d).
Proof.
  intros Hcopy Hrun i d Hi Hold. unfold grow_params in Hrun.
  destruct (0 <? new_len).
  - destruct old as [l|]; [|discriminate].
    bind_inv Hrun as arr Hloop. injection Hrun as <-.
    rewrite g_ptr_array_index_Some.
    rewrite <- (Hcopy d).
    exact (copy_parent_params_spec copy (Some l) _ arr parent_len Hloop i d
             Hi Hold).
  - injection Hrun as <-. exact Hold.
Qed.

(** What one call of [ncm_model_class_add_params] leaves in the class. *)
Lemma add_params_spec model_class n_sparam n_vparam n_nonparam model_class' :
  ncm_model_class_add_params model_class n_sparam n_vparam n_nonparam
  = Ok model_class' ->
  parent_sparam_len model_class' = sparam_len model_class
  /\ parent_vparam_len model_class' = vparam_len model_class
  /\ sparam_len model_class' = guint (sparam_len model_class + n_sparam)
  /\ vparam_len model_class' = guint (vparam_len model_class + n_vparam)
  /\ nonparam_prop_len model_class' = n_nonparam
  /\ (forall i d,
         0 <= i < sparam_len model_class ->
         g_ptr_array_index (sparam model_class) i = Ok (Some d) ->
         g_ptr_array_index (sparam model_class') i = Ok (Some d))
  /\ (forall i d,
         0 <= i < vparam_len model_class ->
         g_ptr_array_index (vparam model_class) i = Ok (Some d) ->
         g_ptr_array_index (vparam model_class') i = Ok (Some d)).
Proof.
  unfold ncm_model_class_add_params. intros H.
  bind_inv H as sp Hsp. bind_inv H as vp Hvp. injection H as <-. cbn.
  repeat split; try reflexivity.
  - exact (grow_params_copies ncm_sparam_copy _ _ _ _ (fun d => eq_refl) Hsp).
  - exact (grow_params_copies ncm_vparam_copy _ _ _ _ (fun d => eq_refl) Hvp).
Qed.

Lemma set_vparam_counts model_class i dl sy na lb ub sc tol dv pt model_class' :
  ncm_model_class_set_vparam model_class i dl sy na lb ub sc tol dv pt
  = Ok model_class' ->
  sparam_len model_class' = sparam_len model_class
  /\ vparam_len model_class' = vparam_len model_class.
Proof.
  unfold ncm_model_class_set_vparam. intros H.
  bind_inv H as [] Ha1. bind_inv H as [] Ha2.
  bind_inv H as [d|] Hslot; [discriminate|].
  bind_inv H as arr Hstore. injection H as <-. cbn. split; reflexivity.
Qed.

Lemma run_setup_call_counts model_class c model_class' :
  run_setup_call model_class c = Ok model_class' ->
  sparam_len model_class'
  = match c with
    | add_params s _ _ => guint (sparam_len model_class + s)
    | _ => sparam_len model_class
    end
  /\ vparam_len model_class'
     = match c with
       | add_params _ v _ => guint (vparam_len model_class + v)
       | _ => vparam_len model_class
       end.
Proof.
  destruct c; simpl; intros H.
  - apply add_params_spec in H as (_ & _ & Hs & Hv & _). now split.
  - apply set_sparam_inv in H as (l & _ & _ & _ & _ & _ & _ & Hs & Hv & _).
    now split.
  - now apply set_vparam_counts in H.
  - injection H as <-. now split.
  - bind_inv H as [] Hc. injection H as <-. now split.
Qed.

(** A [class_init] function adds to the counts of the inherited class
    exactly the slots it declares, whatever number of calls it uses. *)
Lemma run_class_init_counts calls :
  forall model_class model_class',
    is_guint (sparam_len model_class) ->
    is_guint (vparam_len model_class) ->
    run_class_init calls model_class = Ok model_class' ->
    sparam_len model_class'
    = guint (sparam_len model_class + declared_sparams calls)
    /\ vparam_len model_class'
       = guint (vparam_len model_class + declared_vparams calls).
Proof.
  induction calls as [|c rest IH]; intros mc mc' Hs Hv Hrun; simpl in Hrun.
  - injection Hrun as <-. simpl. rewrite !Z.add_0_r.
    now rewrite !guint_small.
  - bind_inv Hrun as mc1 Hc.
    apply run_setup_call_counts in Hc as [Es Ev].
    assert (Hs1 : is_guint (sparam_len mc1)).
    { rewrite Es. destruct c; try exact Hs. apply guint_range. }
    assert (Hv1 : is_guint (vparam_len mc1)).
    { rewrite Ev. destruct c; try exact Hv. apply guint_range. }
    destruct (IH mc1 mc' Hs1 Hv1 Hrun) as [Es' Ev'].
    rewrite Es', Ev', Es, Ev.
    destruct c; simpl; try (split; reflexivity).
    rewrite !guint_add_l. split; f_equal; lia.
Qed.

Lemma check_all_set_spec {A} (arr : option (list (option A))) len msg :
  check_all_set arr len msg = Ok tt ->
  forall i, 0 <= i < len -> exists d, g_ptr_array_index arr i = Ok (Some d).
Proof.
  intros Hrun i Hi. revert i Hi.
  destruct (Z_le_gt_dec 0 len) as [Hn|Hn]; [|intros; lia].
  unfold check_all_set in Hrun.
  refine (for_loop_ind
            (fun n (_ : unit) => forall i, 0 <= i < n ->
               exists d, g_ptr_array_index arr i = Ok (Some d))
            _ len tt tt Hn _ _ Hrun); [intros; lia|].
  intros n [] [] Hn' IH Hbody i Hi.
  bind_inv Hbody as [d|] Hslot; [|discriminate].
  destruct (Z.eq_dec i n) as [->|Hne]; [eauto|].
  apply IH. lia.
Qed.

(** A class that passes [ncm_model_class_check_params_info] is closed. *)
Lemma check_params_info_closed model_class :
  ncm_model_class_check_params_info model_class = Ok tt ->
  class_closed model_class.
Proof.
  unfold ncm_model_class_check_params_info. intros H.
  bind_inv H as [] H0. bind_inv H as [] Hs. bind_inv H as [] Hv.
  split.
  - exact (check_all_set_spec _ _ _ Hs).
  - exact (check_all_set_spec _ _ _ Hv).
Qed.

End ModelClassSpec.

(** ** The instance level *)

Module ModelSpec.

Import Glib GlibFacts Param Vector Model Scenario.
Import ModelClassSpec.

(** *** Construction: layout and total length *)

Lemma sum_lengths_app l1 l2 :
  sum_lengths (l1 ++ l2) = sum_lengths l1 + sum_lengths l2.
Proof.
  unfold sum_lengths. induction l1 as [|x l1 IH]; simpl; [reflexivity|].
  rewrite IH. lia.
Qed.

Lemma constructed_layout_spec model_class lens pos layout :
  is_guint (ModelClass.sparam_len model_class) ->
  Z.of_nat (length lens) = ModelClass.vparam_len model_class ->
  constructed_layout model_class lens pos = Ok layout ->
  snd layout = guint (ModelClass.sparam_len model_class + sum_lengths lens)
  /\ length (fst layout) = length pos.
Proof.
  intros Hsl Hlen Hrun. unfold constructed_layout in Hrun.
  assert (Hn : 0 <= ModelClass.vparam_len model_class) by lia.
  pose (P := fun (n : Z) (acc : list Z * Z) =>
    snd acc = guint (ModelClass.sparam_len model_class
                     + sum_lengths (take (Z.to_nat n) lens))
    /\ length (fst acc) = length pos).
  assert (HP : P (ModelClass.vparam_len model_class) layout).
  { refine (for_loop_ind P _ _ _ _ Hn _ _ Hrun).
    - split; [|reflexivity]. simpl. unfold sum_lengths. simpl.
      rewrite Z.add_0_r. symmetry. now apply guint_small.
    - intros i [ps tot] acc' Hi [Htot Hps] Hbody. simpl in *.
      bind_inv Hbody as pos' Hset. bind_inv Hbody as len Hidx.
      injection Hbody as <-. simpl.
      apply g_array_index_Ok in Hidx as [_ Hidx].
      split; cbn [fst snd].
      + replace (Z.to_nat (i + 1)) with (S (Z.to_nat i)) by lia.
        rewrite (take_S_r _ _ _ Hidx), sum_lengths_app.
        unfold guint_add. rewrite Htot, guint_add_l.
        change (sum_lengths [len]) with (len + 0). f_equal. lia.
      + rewrite (g_array_set_length _ _ _ _ Hset). exact Hps. }
  destruct HP as [Htot Hps]. split; [|exact Hps].
  rewrite Htot. rewrite take_ge; [reflexivity | lia].
Qed.

Lemma same_frame_refl m : same_frame m m.
Proof. unfold same_frame. tauto. Qed.

Lemma same_frame_trans m1 m2 m3 :
  same_frame m1 m2 -> same_frame m2 m3 -> same_frame m1 m3.
Proof.
  unfold same_frame.
  intros (?&?&?&?&?&?&?&?&?&?&?) (?&?&?&?&?&?&?&?&?&?&?).
  repeat split; congruence.
Qed.

Lemma set_sparams_slot_frame m n sp m' :
  set_sparams_slot m n sp = Ok m' -> same_frame m m'.
Proof.
  unfold set_sparams_slot. intros H.
  bind_inv H as pt Hpt. bind_inv H as sps Hsps. injection H as <-.
  unfold same_frame. cbn.
  rewrite (g_array_set_length _ _ _ _ Hpt), (g_array_set_length _ _ _ _ Hsps).
  tauto.
Qed.

Section ConstructionFacts.

Variable peek : NcmVParam -> Z -> NcmSParam.

Lemma set_sparams_frame m m' :
  _ncm_model_set_sparams peek m = Ok m' ->
  same_frame
    (with_tables m (ptypes m) (g_ptr_array_sized (total_len m)) ∅) m'.
Proof.
  unfold _ncm_model_set_sparams. intros H.
  bind_inv H as m1 H1.
  set (m0 := with_tables m (ptypes m) (g_ptr_array_sized (total_len m)) ∅) in *.
  assert (F1 : same_frame m0 m1).
  { refine (for_loop_preserves (same_frame m0) _ _ _ _ (same_frame_refl m0)
              _ H1).
    intros i s1 s2 Hs Hb.
    bind_inv Hb as [sp|] Hslot; [|discriminate].
    apply set_sparams_slot_frame in Hb. now apply (same_frame_trans _ s1). }
  refine (for_loop_preserves (same_frame m0) _ _ _ _ F1 _ H).
  intros i s1 s2 Hs Hb.
  bind_inv Hb as len Hlen. bind_inv Hb as pos Hpos.
  bind_inv Hb as [vp|] Hslot; [|discriminate].
  refine (for_loop_preserves (same_frame m0) _ _ _ _ Hs _ Hb).
  intros j t1 t2 Ht Hj.
  apply set_sparams_slot_frame in Hj. now apply (same_frame_trans _ t1).
Qed.

Lemma g_array_set_size_length {A} (zero : A) (arr : list A) (n : Z) :
  length (g_array_set_size zero arr n) = Z.to_nat n.
Proof.
  unfold g_array_set_size.
  rewrite length_app, length_take, length_replicate. lia.
Qed.

Lemma ncm_vector_set_at st l i x st' :
  ncm_vector_set st (Some l) i x = Ok st' ->
  exists d, st !! l = Some d
            /\ 0 <= i < Z.of_nat (length d)
            /\ st' = <[l := <[Z.to_nat i := x]> d]> st.
Proof.
  unfold ncm_vector_set, ncm_vector_data. intros H.
  destruct (st !! l) as [d|] eqn:E; [|discriminate]. simpl in H.
  bind_inv H as d' Hset. injection H as <-.
  apply g_array_set_Ok in Hset as [Hi ->]. eauto.
Qed.

Lemma params_set_default_spec st m st' m' l v :
  reparam m = None ->
  p m = Some l ->
  st !! l = Some v ->
  ncm_model_params_set_default st m = Ok (st', m') ->
  m' = with_pkey m (pkey m + 1)
  /\ exists v', st' !! l = Some v' /\ length v' = length v.
Proof.
  intros Hr Hp Hv H. unfold ncm_model_params_set_default in H.
  bind_inv H as st1 Hloop.
  unfold ncm_model_params_update in H. cbn in H. rewrite Hr in H.
  injection H as <- <-. split; [reflexivity|].
  refine (for_loop_preserves
            (fun s => exists v', s !! l = Some v' /\ length v' = length v)
            _ _ _ _ _ _ Hloop); [eauto|].
  intros i s1 s2 (v1 & Hv1 & Hlen) Hb.
  bind_inv Hb as sp Hsp. rewrite Hp in Hb.
  apply ncm_vector_set_at in Hb as (d & Hd & Hi & ->).
  rewrite Hv1 in Hd. injection Hd as <-.
  eexists. split; [apply lookup_insert_eq|].
  now rewrite length_insert.
Qed.

Lemma constructed_spec st m st' m' :
  reparam m = None ->
  _ncm_model_constructed peek st m = Ok (st', m') ->
  exists layout,
    constructed_layout (klass m) (vparam_len m) (vparam_pos m) = Ok layout
    /\ total_len m' = snd layout
    /\ klass m' = klass m
    /\ g_type m' = g_type m
    /\ reparam m' = None
    /\ p m' = params m'
    /\ vparam_len m' = vparam_len m
    /\ length (ptypes m') = Z.to_nat (snd layout)
    /\ length (sparams m') = Z.to_nat (snd layout)
    /\ exists l v, params m' = Some l /\ st' !! l = Some v
                   /\ length v = Z.to_nat (snd layout).
Proof.
  intros Hr H. unfold _ncm_model_constructed in H.
  bind_inv H as layout Hlay. exists layout. split; [exact Hlay|].
  unfold ncm_vector_new in H. cbv zeta in H.
  bind_inv H as m2 Hset.
  apply set_sparams_frame in Hset.
  destruct Hset as (Hty & Hk & Hpar & Hp & Hvl & Hvp & Hpk & Hrp & Htl & Hpt
                    & Hsp).
  cbn in Hty, Hk, Hpar, Hp, Hvl, Hvp, Hpk, Hrp, Htl, Hpt, Hsp.
  rewrite Hr in Hrp.
  pose proof (params_set_default_spec _ m2 st' m' (fresh (dom st))
                (replicate (Z.to_nat (snd layout)) 0%float) Hrp Hp
                (lookup_insert_eq _ _ _) H) as [-> (v' & Hv' & Hlen)].
  cbn. rewrite Htl, Hk, Hty, Hrp, Hp, Hpar, Hvl, Hpt, Hsp.
  rewrite g_array_set_size_length.
  unfold g_ptr_array_sized. rewrite length_replicate.
  repeat split; try reflexivity.
  exists (fresh (dom st)), v'. rewrite length_replicate in Hlen. auto.
Qed.

(** Without vector lengths to write, [ncm_model_new] is the construction
    on the instance [ncm_model_init] leaves. *)
Lemma ncm_model_new_nil st type_name model_class :
  ncm_model_new peek st type_name model_class []
  = _ncm_model_constructed peek st (ncm_model_init type_name model_class).
Proof. reflexivity. Qed.

(** A new instance of a type without vector parameter has the shape
    [instance_wf], no transform attached, its working vector aliased to
    the original one, and as many slots as the class has scalars. *)
Lemma ncm_model_new_spec st type_name model_class st' m :
  is_guint (ModelClass.sparam_len model_class) ->
  ModelClass.vparam_len model_class = 0 ->
  ncm_model_new peek st type_name model_class [] = Ok (st', m) ->
  instance_wf st' m
  /\ total_len m = ModelClass.sparam_len model_class
  /\ klass m = model_class
  /\ g_type m = type_name
  /\ reparam m = None
  /\ p m = params m.
Proof.
  intros Hsl Hvl H. rewrite ncm_model_new_nil in H.
  apply constructed_spec in H; [|reflexivity].
  destruct H as (layout & Hlay & Htl & Hk & Hty & Hr & Hp & _ & Hpt & Hsp
                 & l & v & Hpar & Hv & Hlv).
  cbn in Hlay, Hk, Hty.
  apply (constructed_layout_spec model_class [] []) in Hlay as [Htot _];
    [|exact Hsl|now rewrite Hvl].
  assert (E : snd layout = ModelClass.sparam_len model_class).
  { rewrite Htot. unfold sum_lengths. cbn. rewrite Z.add_0_r.
    now apply guint_small. }
  rewrite <- Htl in Hpt, Hsp, Hlv, E.
  repeat split; try assumption.
  - rewrite E. unfold is_guint in Hsl. lia.
  - exists l, v. auto.
Qed.

(** The instance [ncm_model_init] leaves has no room for the length or
    the position of a vector parameter: for a type with at least one
    vector parameter the construction reads or writes past the end of
    one of the two tables, whatever lengths are asked for. *)
Lemma ncm_model_new_vector_invalid st type_name model_class lens :
  0 < ModelClass.vparam_len model_class ->
  ncm_model_new peek st type_name model_class lens
  = Fatal invalid_memory_access.
Proof.
  intros Hvl. destruct lens as [|x rest].
  - rewrite ncm_model_new_nil.
    unfold _ncm_model_constructed, constructed_layout, for_loop.
    change (ModelClass.vparam_len (klass (ncm_model_init type_name model_class)))
      with (ModelClass.vparam_len model_class).
    destruct (Z.to_nat (ModelClass.vparam_len model_class)) as [|k] eqn:E;
      [lia|].
    reflexivity.
  - unfold ncm_model_new, for_loop. rewrite Nat2Z.id.
    cbn [length for_loop_from].
    rewrite (g_array_index_lookup (x :: rest) 0 x) by (lia || reflexivity).
    reflexivity.
Qed.

(** *** Construction returns on a closed class *)

Lemma sum_lengths_nonneg lens :
  Forall (fun x => 0 <= x) lens -> 0 <= sum_lengths lens.
Proof.
  unfold sum_lengths. induction 1 as [|x l Hx _ IH]; simpl; lia.
Qed.

Lemma sum_lengths_take_le lens k :
  Forall (fun x => 0 <= x) lens ->
  0 <= sum_lengths (take k lens) <= sum_lengths lens.
Proof.
  intros H.
  pose proof (sum_lengths_nonneg _ (Forall_take _ k _ H)).
  pose proof (sum_lengths_nonneg _ (Forall_drop _ k _ H)).
  rewrite <- (take_drop k lens) at 3. rewrite sum_lengths_app. lia.
Qed.

Lemma sum_lengths_take_S lens i len :
  0 <= i ->
  lens !! Z.to_nat i = Some len ->
  sum_lengths (take (Z.to_nat (i + 1)) lens)
  = sum_lengths (take (Z.to_nat i) lens) + len.
Proof.
  intros Hi Hl.
  replace (Z.to_nat (i + 1)) with (S (Z.to_nat i)) by lia.
  rewrite (take_S_r _ _ _ Hl), sum_lengths_app.
  change (sum_lengths [len]) with (len + 0). lia.
Qed.

(** The position the layout gives the [i]-th vector parameter. *)
Lemma constructed_layout_total model_class lens pos :
  is_guint (ModelClass.sparam_len model_class) ->
  Z.of_nat (length lens) = ModelClass.vparam_len model_class ->
  length pos = length lens ->
  Forall (fun x => 0 <= x) lens ->
  ModelClass.sparam_len model_class + sum_lengths lens < guint_modulus ->
  exists layout,
    constructed_layout model_class lens pos = Ok layout
    /\ snd layout = ModelClass.sparam_len model_class + sum_lengths lens
    /\ forall i, 0 <= i < ModelClass.vparam_len model_class ->
          g_array_index (fst layout) i
          = Ok (ModelClass.sparam_len model_class
                + sum_lengths (take (Z.to_nat i) lens)).
Proof.
  intros Hsl Hlen Hpos Hnn Hfit.
  set (sl := ModelClass.sparam_len model_class) in *.
  set (vl := ModelClass.vparam_len model_class) in *.
  assert (Hvl : 0 <= vl) by lia.
  pose (P := fun (n : Z) (acc : list Z * Z) =>
    snd acc = sl + sum_lengths (take (Z.to_nat n) lens)
    /\ length (fst acc) = length lens
    /\ forall i, 0 <= i < n ->
          g_array_index (fst acc) i
          = Ok (sl + sum_lengths (take (Z.to_nat i) lens))).
  destruct (for_loop_total P
              (fun i acc =>
                 pos' ← g_array_set (fst acc) i (snd acc);
                 len ← g_array_index lens i;
                 Ok (pos', guint_add (snd acc) len))
              vl (pos, sl) Hvl) as (layout & Hrun & Htot & _ & Hidx).
  - unfold P. cbn. repeat split; [unfold sum_lengths; simpl; lia | exact Hpos |].
    intros; lia.
  - intros i [ps tot] Hi (Htot & Hps & Hidx). cbn [fst snd] in *.
    assert (Hset : g_array_set ps i tot = Ok (<[Z.to_nat i := tot]> ps))
      by (apply g_array_set_in_range; lia).
    destruct (lookup_lt_is_Some_2 lens (Z.to_nat i)) as [len Hl]; [lia|].
    rewrite Hset, (g_array_index_lookup lens i len) by (lia || exact Hl).
    cbn. eexists. split; [reflexivity|].
    pose proof (sum_lengths_take_le lens (Z.to_nat (i + 1)) Hnn) as Hle.
    pose proof (sum_lengths_take_le lens (Z.to_nat i) Hnn) as Hle0.
    unfold P. cbn [fst snd].
    rewrite (sum_lengths_take_S lens i len) in * by (lia || exact Hl).
    repeat split.
    + unfold guint_add. rewrite guint_small; [lia|].
      unfold is_guint, guint_modulus in *. lia.
    + now rewrite length_insert.
    + intros k Hk. destruct (Z.eq_dec k i) as [->|Hne].
      * rewrite (g_array_index_set_eq _ _ _ _ Hset). now rewrite Htot.
      * rewrite (g_array_index_set_ne _ _ _ _ _ Hset Hne). apply Hidx. lia.
  - exists layout. unfold constructed_layout. fold sl vl.
    split; [exact Hrun|]. split; [|exact Hidx].
    rewrite Htot. rewrite take_ge; [reflexivity | lia].
Qed.

Lemma set_sparams_slot_total m n sp :
  0 <= n < Z.of_nat (length (ptypes m)) ->
  0 <= n < Z.of_nat (length (sparams m)) ->
  exists m',
    set_sparams_slot m n sp = Ok m'
    /\ same_frame m m'
    /\ g_array_index (sparams m') n = Ok (Some sp)
    /\ forall k, k <> n ->
          g_array_index (sparams m') k = g_array_index (sparams m) k.
Proof.
  intros Hpt Hsp.
  pose proof (g_array_set_in_range (ptypes m) n NCM_PARAM_TYPE_FIXED Hpt) as H1.
  pose proof (g_array_set_in_range (sparams m) n (Some sp) Hsp) as H2.
  eexists. split; [|split; [|split]].
  - unfold set_sparams_slot. rewrite H1. cbn. rewrite H2. cbn. reflexivity.
  - apply (set_sparams_slot_frame m n sp).
    unfold set_sparams_slot. rewrite H1. cbn. rewrite H2. reflexivity.
  - cbn. exact (g_array_index_set_eq _ _ _ _ H2).
  - intros k Hk. cbn. exact (g_array_index_set_ne _ _ _ _ _ H2 Hk).
Qed.

Lemma filled_below_next m m' n sp :
  filled_below n m ->
  g_array_index (sparams m') n = Ok (Some sp) ->
  (forall j, j <> n -> g_array_index (sparams m') j = g_array_index (sparams m) j) ->
  filled_below (n + 1) m'.
Proof.
  intros Hf Hn Hothers j Hj.
  destruct (Z.eq_dec j n) as [->|Hne]; [eauto|].
  rewrite (Hothers j Hne). apply Hf. lia.
Qed.

(** Filling the slots: on a closed class whose layout does not wrap,
    [_ncm_model_set_sparams] returns and every slot of the instance has
    its descriptor. *)
Lemma set_sparams_total m lens :
  let model_class := klass m in
  let sl := ModelClass.sparam_len model_class in
  ModelClass.class_closed model_class ->
  is_guint sl ->
  Z.of_nat (length lens) = ModelClass.vparam_len model_class ->
  Forall (fun x => 0 <= x) lens ->
  sl + sum_lengths lens < guint_modulus ->
  vparam_len m = lens ->
  (forall i, 0 <= i < ModelClass.vparam_len model_class ->
     g_array_index (vparam_pos m) i
     = Ok (sl + sum_lengths (take (Z.to_nat i) lens))) ->
  total_len m = sl + sum_lengths lens ->
  length (ptypes m) = Z.to_nat (total_len m) ->
  exists m',
    _ncm_model_set_sparams peek m = Ok m'
    /\ filled_below (total_len m) m'.
Proof.
  intros mc sl [Hcs Hcv] Hsl Hlen Hnn Hfit Hvl Hpos Htot Hpt.
  set (vl := ModelClass.vparam_len mc) in *.
  set (m0 := with_tables m (ptypes m) (g_ptr_array_sized (total_len m)) ∅).
  pose proof (sum_lengths_nonneg lens Hnn) as Hsum.
  assert (Hsl0 : 0 <= sl) by (unfold is_guint in Hsl; lia).
  pose (Inv := fun (k : Z) (s : NcmModel) =>
                 same_frame m0 s /\ filled_below k s).
  assert (Hsizes : forall s, same_frame m0 s ->
            Z.of_nat (length (ptypes s)) = total_len m
            /\ Z.of_nat (length (sparams s)) = total_len m
            /\ vparam_len s = lens
            /\ vparam_pos s = vparam_pos m).
  { intros s (_ & _ & _ & _ & Hv & Hp & _ & _ & _ & Hpt' & Hsp').
    cbn in Hv, Hp, Hpt', Hsp'.
    unfold g_ptr_array_sized in Hsp'. rewrite length_replicate in Hsp'.
    rewrite Hpt', Hsp', Hpt, Hv. repeat split; try lia; assumption. }
  (* the scalar slots *)
  destruct (for_loop_total Inv
              (fun i s =>
                 slot ← g_ptr_array_index (ModelClass.sparam mc) i;
                 match slot with
                 | None => Fatal invalid_memory_access
                 | Some sp => set_sparams_slot s i (ncm_sparam_copy sp)
                 end)
              sl m0 Hsl0) as (m1 & Hrun1 & Hf1 & Hfill1).
  { split; [apply same_frame_refl | intros n Hn; lia]. }
  { intros i s Hi [Hfr Hfill].
    destruct (Hcs i Hi) as [d Hd]. rewrite Hd. cbn.
    destruct (Hsizes s Hfr) as (Hp1 & Hs1 & _).
    destruct (set_sparams_slot_total s i (ncm_sparam_copy d))
      as (s' & Hs' & Hfr' & Hnew & Hothers); [lia | lia |].
    exists s'. split; [exact Hs'|]. split.
    - exact (same_frame_trans _ _ _ Hfr Hfr').
    - exact (filled_below_next s s' i _ Hfill Hnew Hothers). }
  (* the components of the vector parameters *)
  assert (Hvl0 : 0 <= vl) by lia.
  destruct (for_loop_total
              (fun i s => Inv (sl + sum_lengths (take (Z.to_nat i) lens)) s)
              (fun i s =>
                 len ← g_array_index (vparam_len s) i;
                 pos ← g_array_index (vparam_pos s) i;
                 slot ← g_ptr_array_index (ModelClass.vparam mc) i;
                 match slot with
                 | None => Fatal invalid_memory_access
                 | Some vp0 =>
                     let vp := ncm_vparam_set_len (ncm_vparam_copy vp0) len in
                     for_loop len (fun j s' =>
                       set_sparams_slot s' (guint_add pos j)
                         (peek vp j)) s
                 end)
              vl m1 Hvl0) as (m2 & Hrun2 & Hf2 & Hfill2).
  { cbn. unfold sum_lengths. simpl. rewrite Z.add_0_r. split; assumption. }
  { intros i s Hi [Hfr Hfill].
    destruct (Hsizes s Hfr) as (_ & _ & Hv & Hp).
    destruct (lookup_lt_is_Some_2 lens (Z.to_nat i)) as [len Hl]; [lia|].
    rewrite Hv, Hp, (g_array_index_lookup lens i len) by (lia || exact Hl).
    cbn. rewrite (Hpos i Hi). cbn.
    destruct (Hcv i Hi) as [vp0 Hvp]. rewrite Hvp. cbn.
    set (pos := sl + sum_lengths (take (Z.to_nat i) lens)) in *.
    assert (Hlen0 : 0 <= len).
    { rewrite Forall_forall in Hnn. apply Hnn.
      now apply (list_elem_of_lookup_2 _ (Z.to_nat i)). }
    pose proof (sum_lengths_take_le lens (Z.to_nat (i + 1)) Hnn) as Hle.
    pose proof (sum_lengths_take_le lens (Z.to_nat i) Hnn) as Hle0.
    rewrite (sum_lengths_take_S lens i len) in * by (lia || exact Hl).
    destruct (for_loop_total (fun j s' => Inv (pos + j) s')
                (fun j s' =>
                   set_sparams_slot s' (guint_add pos j)
                     (peek (ncm_vparam_set_len (ncm_vparam_copy vp0) len) j))
                len s Hlen0) as (s2 & Hrun & Hfr2 & Hfill2').
    - rewrite Z.add_0_r. split; assumption.
    - intros j t Hj [Hfrt Hfillt].
      destruct (Hsizes t Hfrt) as (Hp1 & Hs1 & _).
      assert (Hn : guint_add pos j = pos + j).
      { unfold guint_add. apply guint_small.
        unfold is_guint, guint_modulus in *. fold pos in Hle, Hle0. lia. }
      rewrite Hn.
      destruct (set_sparams_slot_total t (pos + j)
                  (peek (ncm_vparam_set_len (ncm_vparam_copy vp0) len) j))
        as (t' & Ht' & Hfr' & Hnew & Hothers);
        [fold pos in Hle, Hle0; lia | fold pos in Hle, Hle0; lia |].
      exists t'. split; [exact Ht'|]. split.
      + exact (same_frame_trans _ _ _ Hfrt Hfr').
      + rewrite Z.add_assoc.
        exact (filled_below_next t t' (pos + j) _ Hfillt Hnew Hothers).
    - exists s2. split; [exact Hrun|].
      replace (sl + (sum_lengths (take (Z.to_nat i) lens) + len))
        with (pos + len) by (unfold pos; lia).
      split; assumption. }
  exists m2. split.
  - unfold _ncm_model_set_sparams. fold mc m0 sl vl. rewrite Hrun1. cbn.
    exact Hrun2.
  - rewrite take_ge in Hfill2 by lia. now rewrite Htot.
Qed.

Lemma params_set_default_total st m l v :
  reparam m = None ->
  p m = Some l ->
  st !! l = Some v ->
  length v = Z.to_nat (total_len m) ->
  0 <= total_len m ->
  filled_below (total_len m) m ->
  exists st',
    ncm_model_params_set_default st m = Ok (st', with_pkey m (pkey m + 1)).
Proof.
  intros Hr Hp Hv Hlen Htl Hfill.
  destruct (for_loop_total
              (fun (_ : Z) (s : store) =>
                 exists v', s !! l = Some v'
                            /\ length v' = Z.to_nat (total_len m))
              (fun i s =>
                 sp ← ncm_model_param_peek_desc m i;
                 ncm_vector_set s (p m) i (ncm_sparam_get_default_value sp))
              (total_len m) st Htl) as (st' & Hrun & _).
  - eauto.
  - intros i s Hi (v' & Hv' & Hlen').
    destruct (Hfill i Hi) as [sp Hsp].
    unfold ncm_model_param_peek_desc, ncm_model_peek_reparam.
    destruct (Z.ltb_spec i (total_len m)); [|lia].
    cbn. rewrite Hr, Hsp. cbn. rewrite Hp.
    unfold ncm_vector_set, ncm_vector_data. rewrite Hv'. cbn.
    rewrite g_array_set_in_range by lia. cbn.
    eexists. split; [reflexivity|].
    eexists. split; [apply lookup_insert_eq|].
    now rewrite length_insert.
  - exists st'. unfold ncm_model_params_set_default. rewrite Hrun. cbn.
    unfold ncm_model_params_update. cbn. rewrite Hr. reflexivity.
Qed.

(** On a closed class without vector parameter the construction of an
    instance returns. *)
Lemma ncm_model_new_total st type_name model_class :
  ModelClass.class_closed model_class ->
  is_guint (ModelClass.sparam_len model_class) ->
  ModelClass.vparam_len model_class = 0 ->
  exists st' m, ncm_model_new peek st type_name model_class [] = Ok (st', m).
Proof.
  intros Hclosed Hsl Hvl.
  assert (Hlen : Z.of_nat (length (@nil Z)) = ModelClass.vparam_len model_class)
    by now rewrite Hvl.
  assert (Hnn : Forall (fun x => 0 <= x) (@nil Z)) by apply List.Forall_nil.
  assert (Hfit : ModelClass.sparam_len model_class + sum_lengths []
                 < guint_modulus)
    by (unfold sum_lengths, is_guint in *; cbn; lia).
  assert (Hsl0 : 0 <= ModelClass.sparam_len model_class)
    by (unfold is_guint in Hsl; lia).
  destruct (constructed_layout_total model_class [] [] Hsl Hlen eq_refl Hnn
              Hfit) as (layout & Hlay & Htot & Hpos).
  rewrite ncm_model_new_nil. unfold _ncm_model_constructed.
  change (constructed_layout (klass (ncm_model_init type_name model_class))
            (vparam_len (ncm_model_init type_name model_class))
            (vparam_pos (ncm_model_init type_name model_class)))
    with (constructed_layout model_class [] []).
  rewrite Hlay. cbn.
  set (l := fresh (dom st)).
  set (store1 := <[l := replicate (Z.to_nat (snd layout)) 0%float]> st).
  match goal with
  | |- context [_ncm_model_set_sparams peek ?m] => set (m1 := m)
  end.
  destruct (set_sparams_total m1 []) as (m2 & Hset & Hfill);
    try assumption; try reflexivity.
  - cbn. now rewrite g_array_set_size_length.
  - rewrite Hset. cbn.
    pose proof (set_sparams_frame m1 m2 Hset)
      as (_ & _ & _ & Hp & _ & _ & _ & Hr & Htl & _).
    cbn in Hp, Hr, Htl, Hfill.
    destruct (params_set_default_total store1 m2 l
                (replicate (Z.to_nat (snd layout)) 0%float))
      as (st' & Hdef); try assumption.
    + apply lookup_insert_eq.
    + now rewrite length_replicate, Htl.
    + rewrite Htl, Htot. unfold sum_lengths. cbn. lia.
    + now rewrite Htl.
    + eauto.
Qed.

End ConstructionFacts.

(** What holds of the consequence C3 draws: for a base type set up
    from the root class and a child type set up from the base, by any
    sequences of registration calls, when the child has no vector
    parameter and passes [ncm_model_class_check_params_info], the
    construction returns an instance whose total length is the scalars
    the base declares plus the scalars the child declares. *)
Lemma scalar_child_total_len_is_sum_of_declared
  (peek : NcmVParam -> Z -> NcmSParam)
  (calls_of_base calls_of_child : list ModelClass.setup_call)
  (base child : ModelClass.NcmModelClass) (st : store) (type_name : string) :
  ModelClass.run_class_init calls_of_base ModelClass.ncm_model_class_init
  = Ok base ->
  ModelClass.run_class_init calls_of_child base = Ok child ->
  ModelClass.ncm_model_class_check_params_info child = Ok tt ->
  ModelClass.vparam_len child = 0 ->
  0 <= ModelClass.declared_sparams calls_of_base
       + ModelClass.declared_sparams calls_of_child < guint_modulus ->
  exists st' m,
    ncm_model_new peek st type_name child [] = Ok (st', m)
    /\ total_len m
       = ModelClass.declared_sparams calls_of_base
         + ModelClass.declared_sparams calls_of_child.
Proof.
  intros Hb Hc Hchk Hvl Hsc.
  assert (G0 : is_guint 0) by (unfold is_guint, guint_modulus; lia).
  destruct (run_class_init_counts calls_of_base
              ModelClass.ncm_model_class_init base G0 G0 Hb) as [Esb Evb].
  simpl in Esb, Evb.
  assert (Gsb : is_guint (ModelClass.sparam_len base))
    by (rewrite Esb; apply guint_range).
  assert (Gvb : is_guint (ModelClass.vparam_len base))
    by (rewrite Evb; apply guint_range).
  destruct (run_class_init_counts calls_of_child base child Gsb Gvb Hc)
    as [Esc Evc].
  assert (Es : ModelClass.sparam_len child
               = ModelClass.declared_sparams calls_of_base
                 + ModelClass.declared_sparams calls_of_child).
  { rewrite Esc, Esb, guint_add_l. apply guint_small.
    unfold is_guint in *. lia. }
  assert (Gsc : is_guint (ModelClass.sparam_len child))
    by (rewrite Esc; apply guint_range).
  destruct (ncm_model_new_total peek st type_name child) as (st' & m & Hnew);
    [now apply check_params_info_closed | exact Gsc | exact Hvl |].
  exists st', m. split; [exact Hnew|].
  destruct (ncm_model_new_spec peek st type_name child st' m Gsc Hvl Hnew)
    as (_ & Htot & _).
  now rewrite Htot.
Qed.

(** C3, where the code departs from it.  The base type set up by
    [many_base_calls] declares one scalar and ten vector parameters, the
    child type set up by [many_child_calls] two more scalars; the child
    class passes [ncm_model_class_check_params_info].  An instance of the
    child with every vector parameter of length 1 should have the total
    length 3 + 10.  The tables [vparam_len] and [vparam_pos] of the
    instance are created by [ncm_model_init] with as many entries as the
    class of [NcmModel] itself has vector parameters, none, so the
    construction goes past the end of a table and no instance is built:
    the outcome is an invalid memory access. *)
Theorem child_with_vector_parameters_is_not_constructed :
  ModelClass.run_class_init many_base_calls ModelClass.ncm_model_class_init
  = Ok many_base_level
  /\ ModelClass.run_class_init many_child_calls many_base_level
     = Ok many_child_level
  /\ ModelClass.ncm_model_class_check_params_info many_child_level = Ok tt
  /\ ModelClass.declared_sparams many_base_calls
     + ModelClass.declared_sparams many_child_calls = 3
  /\ ModelClass.vparam_len many_child_level = 10
  /\ sum_lengths (replicate 10 1) = 10
  /\ vparam_len (ncm_model_init "FooMany" many_child_level) = []
  /\ vparam_pos (ncm_model_init "FooMany" many_child_level) = []
  /\ ncm_model_new numbered_component ∅ "FooMany" many_child_level
       (replicate 10 1)
     = Fatal invalid_memory_access.
Proof.
  split; [reflexivity|]. split; [reflexivity|]. split; [reflexivity|].
  split; [reflexivity|]. split; [reflexivity|]. split; [reflexivity|].
  split; [reflexivity|]. split; [reflexivity|].
  apply (ncm_model_new_vector_invalid numbered_component).
  reflexivity.
Qed.

(** *** Fit flags *)

(** C10.  On an instance of constructed shape and for a slot index
    within its total length, [ncm_model_param_set_ftype] returns; the fit
    type read back at that index is the one just set, the fit type of
    every other index reads as before, and the pointers to the original
    and to the working vector are the same, so that every read of either
    vector gives what it gave before. *)
Theorem set_ftype_changes_only_slot
  (st : store) (m : NcmModel) (n : Z) (t : NcmParamType) :
  instance_wf st m ->
  0 <= n < total_len m ->
  exists m',
    ncm_model_param_set_ftype m n t = Ok m'
    /\ ncm_model_param_get_ftype m' n = Ok t
    /\ (forall k, k <> n ->
                  ncm_model_param_get_ftype m' k = ncm_model_param_get_ftype m k)
    /\ params m' = params m
    /\ p m' = p m
    /\ (forall st0 i,
           ncm_model_orig_param_get st0 m' i = ncm_model_orig_param_get st0 m i
           /\ ncm_model_param_get st0 m' i = ncm_model_param_get st0 m i).
Proof.
  intros (Htl & Hpt & _) Hn.
  assert (Hset : g_array_set (ptypes m) n t
                 = Ok (<[Z.to_nat n := t]> (ptypes m)))
    by (apply g_array_set_in_range; lia).
  exists (with_ptypes m (<[Z.to_nat n := t]> (ptypes m))).
  unfold ncm_model_param_set_ftype, ncm_model_param_get_ftype.
  rewrite Hset. cbn.
  split; [reflexivity|].
  split; [exact (g_array_index_set_eq _ _ _ _ Hset)|].
  split; [intros k Hk; exact (g_array_index_set_ne _ _ _ _ _ Hset Hk)|].
  repeat split.
Qed.

Lemma child_model_wf : instance_wf (fst child_model) (snd child_model).
Proof.
  unfold instance_wf. cbn.
  repeat split; try lia.
  exists 1%positive, [2%float; 5%float; 7%float; 0.5%float; 0.5%float; 0.5%float].
  repeat split.
Qed.

Lemma set_ftype_changes_only_slot_witness :
  instance_wf (fst child_model) (snd child_model)
  /\ 0 <= 4 < total_len (snd child_model)
  /\ exists m',
       ncm_model_param_set_ftype (snd child_model) 4 NCM_PARAM_TYPE_FREE = Ok m'
       /\ ncm_model_param_get_ftype m' 4 = Ok NCM_PARAM_TYPE_FREE
       /\ ncm_model_param_get_ftype m' 3 = Ok NCM_PARAM_TYPE_FIXED
       /\ params m' = params (snd child_model)
       /\ p m' = p (snd child_model).
Proof.
  assert (Hn : 0 <= 4 < total_len (snd child_model)) by (cbn; lia).
  split; [exact child_model_wf | split; [exact Hn|]].
  destruct (set_ftype_changes_only_slot (fst child_model) (snd child_model) 4
              NCM_PARAM_TYPE_FREE child_model_wf Hn)
    as (m' & Hset & Hget & Hothers & Hpar & Hp & _).
  exists m'.
  split; [exact Hset | split; [exact Hget | split; [| split; assumption]]].
  rewrite (Hothers 3); [reflexivity | lia].
Defined.

(** *** Attaching and detaching a transform *)

Lemma ncm_vector_data_insert_ne st l l' d :
  l <> Some l' ->
  ncm_vector_data (<[l' := d]> st) l = ncm_vector_data st l.
Proof.
  intros Hne. destruct l as [k|]; [|reflexivity].
  unfold ncm_vector_data. rewrite lookup_insert_ne; [reflexivity|].
  intros ->. now apply Hne.
Qed.

(** What [ncm_model_set_reparam] does with a transform, whatever the
    length of the transform. *)
Lemma set_reparam_attach st m r v :
  ncm_vector_data st (params m) = Ok v ->
  is_Some (st !! Reparam.new_params r) ->
  ncm_model_set_reparam st m (Some r)
  = match Reparam.old2new r v with
    | Ok w =>
        Ok (<[Reparam.new_params r := w]> st,
            with_reparam_p m (Some r) (Some (Reparam.new_params r)))
    | Fatal e => Fatal e
    end.
Proof.
  intros Hv [d Hd].
  unfold ncm_model_set_reparam, Reparam.ncm_reparam_old2new. cbn.
  rewrite Hv. cbn.
  destruct (Reparam.old2new r v) as [w|e]; cbn; [|reflexivity].
  unfold ncm_vector_store, ncm_vector_data. rewrite Hd. reflexivity.
Qed.

(** C4.  Take an instance whose original vector holds [v] and a valid
    transform [r].  Attaching [r] returns, and detaching afterwards
    returns; the original vector still holds [v], cell by cell, the
    working vector is the original vector again (the same pointer), and
    no transform is attached. *)
Theorem set_reparam_round_trip
  (st : store) (m : NcmModel) (r : Reparam.NcmReparam) (v : list float) :
  ncm_vector_data st (params m) = Ok v ->
  valid_reparam st m r ->
  exists st1 m1 st2 m2,
    ncm_model_set_reparam st m (Some r) = Ok (st1, m1)
    /\ ncm_model_set_reparam st1 m1 None = Ok (st2, m2)
    /\ reparam m1 = Some r
    /\ p m1 = Some (Reparam.new_params r)
    /\ ncm_vector_data st1 (params m1) = Ok v
    /\ params m2 = params m
    /\ ncm_vector_data st2 (params m2) = Ok v
    /\ (forall i, ncm_model_orig_param_get st2 m2 i
                  = ncm_model_orig_param_get st m i)
    /\ p m2 = params m2
    /\ reparam m2 = None.
Proof.
  intros Hv (Hne & Halloc & Hfwd).
  destruct (Hfwd v Hv) as [w Hw].
  pose proof (set_reparam_attach st m r v Hv Halloc) as Hattach.
  rewrite Hw in Hattach.
  assert (Hv1 : ncm_vector_data (<[Reparam.new_params r := w]> st) (params m)
                = Ok v)
    by (rewrite ncm_vector_data_insert_ne; assumption).
  exists (<[Reparam.new_params r := w]> st),
         (with_reparam_p m (Some r) (Some (Reparam.new_params r))),
         (<[Reparam.new_params r := w]> st),
         (with_reparam_p
            (with_reparam_p m (Some r) (Some (Reparam.new_params r)))
            None (params m)).
  split; [exact Hattach|].
  split; [reflexivity|].
  cbn. repeat split; try assumption.
  intros i. unfold ncm_model_orig_param_get, ncm_vector_get. cbn.
  now rewrite Hv1, Hv.
Qed.

Lemma half_and_target_valid :
  valid_reparam (fst (fst half_and_target)) (snd (fst half_and_target))
    (padding_reparam 1 (snd half_and_target)).
Proof.
  unfold valid_reparam. cbn.
  split; [discriminate|].
  split; [eexists; reflexivity|].
  intros v _. eexists. reflexivity.
Qed.

Lemma set_reparam_round_trip_witness :
  ncm_vector_data (fst (fst half_and_target))
    (params (snd (fst half_and_target))) = Ok [0.5%float]
  /\ valid_reparam (fst (fst half_and_target)) (snd (fst half_and_target))
       (padding_reparam 1 (snd half_and_target))
  /\ exists st1 m1 st2 m2,
       ncm_model_set_reparam (fst (fst half_and_target))
         (snd (fst half_and_target))
         (Some (padding_reparam 1 (snd half_and_target))) = Ok (st1, m1)
       /\ ncm_model_set_reparam st1 m1 None = Ok (st2, m2)
       /\ ncm_vector_data st2 (params m2) = Ok [0.5%float]
       /\ p m2 = params m2
       /\ reparam m2 = None.
Proof.
  assert (Hv : ncm_vector_data (fst (fst half_and_target))
                 (params (snd (fst half_and_target))) = Ok [0.5%float])
    by reflexivity.
  split; [exact Hv | split; [exact half_and_target_valid|]].
  destruct (set_reparam_round_trip _ _ _ _ Hv half_and_target_valid)
    as (st1 & m1 & st2 & m2 & H1 & H2 & _ & _ & _ & _ & H3 & _ & H4 & H5).
  exists st1, m1, st2, m2. repeat split; assumption.
Defined.

(** *** Comparing two instances *)

(** What [ncm_model_is_equal] computes. *)
Lemma is_equal_spec st m1 m2 len1 len2 :
  ncm_vector_len st (params m1) = Ok len1 ->
  ncm_vector_len st (params m2) = Ok len2 ->
  ncm_model_is_equal st m1 m2
  = Ok (bool_decide (g_type m1 = g_type m2)
        && (len1 =? len2)
        && match reparam m1, reparam m2 with
           | None, _ => true
           | Some _, None => false
           | Some r1, Some r2 =>
               bool_decide (Reparam.g_type r1 = Reparam.g_type r2)
           end).
Proof.
  intros H1 H2. unfold ncm_model_is_equal. rewrite H1, H2. cbn.
  destruct (bool_decide (g_type m1 = g_type m2)); cbn; [|reflexivity].
  destruct (len1 =? len2); cbn; [|reflexivity].
  destruct (reparam m1) as [r1|]; [|reflexivity].
  destruct (reparam m2) as [r2|]; [|reflexivity].
  destruct (bool_decide (Reparam.g_type r1 = Reparam.g_type r2)); reflexivity.
Qed.

(** C5 fails on the code.  Two instances of one concrete type, each with
    one slot; the first has no transform attached and the second has one:
    [ncm_model_is_equal] answers TRUE, where the claim (and the
    function's own documentation: same dimension and reparametrization)
    asks for FALSE.  With the arguments exchanged the answer is FALSE. *)
Theorem is_equal_ignores_reparam_of_second :
  g_type plain_instance = g_type reparametrized_instance
  /\ ncm_vector_len shared_store (params plain_instance) = Ok 1
  /\ ncm_vector_len shared_store (params reparametrized_instance) = Ok 1
  /\ reparam plain_instance = None
  /\ is_Some (reparam reparametrized_instance)
  /\ ncm_model_is_equal shared_store plain_instance reparametrized_instance
     = Ok true
  /\ ncm_model_is_equal shared_store reparametrized_instance plain_instance
     = Ok false.
Proof. cbn. repeat split. eexists; reflexivity. Qed.

(** The cases of C5 the code does agree with. *)
Lemma is_equal_length_differs st m1 m2 len1 len2 :
  ncm_vector_len st (params m1) = Ok len1 ->
  ncm_vector_len st (params m2) = Ok len2 ->
  len1 <> len2 ->
  ncm_model_is_equal st m1 m2 = Ok false.
Proof.
  intros H1 H2 Hne. rewrite (is_equal_spec st m1 m2 len1 len2 H1 H2).
  destruct (Z.eqb_spec len1 len2); [contradiction|].
  now rewrite andb_false_r.
Qed.

Lemma is_equal_plain st m1 m2 len :
  g_type m1 = g_type m2 ->
  ncm_vector_len st (params m1) = Ok len ->
  ncm_vector_len st (params m2) = Ok len ->
  reparam m1 = None ->
  reparam m2 = None ->
  ncm_model_is_equal st m1 m2 = Ok true.
Proof.
  intros Ht H1 H2 R1 R2. rewrite (is_equal_spec st m1 m2 len len H1 H2).
  rewrite R1, Z.eqb_refl, bool_decide_eq_true_2 by exact Ht. reflexivity.
Qed.

(** *** Looking a parameter up by name *)

(** C6.  Without a transform attached the lookup is the lookup in the
    instance's own name table.  With a transform attached: a name found
    in the transform's table is answered from there; a name missing there
    and found in the instance's table at a slot the transform renames is
    a fatal error; found at a slot the transform does not rename it is
    answered with that slot; missing in both tables the answer is not
    found (with the index left at the all-ones value). *)
Theorem param_index_from_name_lookup_chain (m : NcmModel) (param_name : string) :
  (reparam m = None ->
   ncm_model_param_index_from_name m param_name
   = Ok (ncm_model_orig_param_index_from_name m param_name))
  /\ (forall i, sparams_name_id m !! param_name = Some i ->
                ncm_model_orig_param_index_from_name m param_name = (true, i))
  /\ (sparams_name_id m !! param_name = None ->
      ncm_model_orig_param_index_from_name m param_name
      = (false, guint_modulus - 1))
  /\ (forall r, reparam m = Some r ->
        (forall i, Reparam.sparams_name_id r !! param_name = Some i ->
                   ncm_model_param_index_from_name m param_name = Ok (true, i))
        /\ (Reparam.sparams_name_id r !! param_name = None ->
            (forall i, sparams_name_id m !! param_name = Some i ->
               (is_Some (Reparam.ncm_reparam_peek_param_desc r i) ->
                ncm_model_param_index_from_name m param_name
                = Fatal (g_error index_from_name_changed_msg))
               /\ (Reparam.ncm_reparam_peek_param_desc r i = None ->
                   ncm_model_param_index_from_name m param_name
                   = Ok (true, i)))
            /\ (sparams_name_id m !! param_name = None ->
                ncm_model_param_index_from_name m param_name
                = Ok (false, guint_modulus - 1)))).
Proof.
  unfold ncm_model_param_index_from_name, ncm_model_peek_reparam,
    ncm_model_orig_param_index_from_name, Reparam.ncm_reparam_index_from_name.
  split; [intros ->; reflexivity|].
  split; [intros i ->; reflexivity|].
  split; [intros ->; reflexivity|].
  intros r ->. split.
  - intros i ->. reflexivity.
  - intros ->. split.
    + intros i ->. split.
      * intros [d ->]. reflexivity.
      * intros ->. reflexivity.
    + intros ->. reflexivity.
Qed.

Lemma param_index_from_name_lookup_chain_witness :
  reparam (snd renamed_instance) = Some (renaming_reparam 2%positive)
  /\ ncm_model_param_index_from_name (snd renamed_instance) "y" = Ok (true, 0)
  /\ ncm_model_param_index_from_name (snd renamed_instance) "x"
     = Fatal (g_error index_from_name_changed_msg)
  /\ ncm_model_param_index_from_name (snd renamed_instance) "z"
     = Ok (false, 4294967295).
Proof.
  assert (Hr : reparam (snd renamed_instance)
               = Some (renaming_reparam 2%positive)) by reflexivity.
  split; [exact Hr|].
  split; [|split].
  - exact (proj1 (proj2 (proj2 (proj2
             (param_index_from_name_lookup_chain (snd renamed_instance) "y")))
             (renaming_reparam 2%positive) Hr) 0 eq_refl).
  - exact (proj1 (proj1 (proj2 (proj2 (proj2 (proj2
             (param_index_from_name_lookup_chain (snd renamed_instance) "x")))
             (renaming_reparam 2%positive) Hr) eq_refl) 0 eq_refl)
             (ex_intro _ _ eq_refl)).
  - exact (proj2 (proj2 (proj2 (proj2 (proj2
             (param_index_from_name_lookup_chain (snd renamed_instance) "z")))
             (renaming_reparam 2%positive) Hr) eq_refl) eq_refl).
Defined.

(** *** The bound check *)

(** C1 fails on the code.  The instance has one slot with lower bound 0
    and upper bound 1 and no transform attached.  Holding 0.5 the check
    of the specification answers TRUE and [ncm_model_params_valid_bounds]
    answers FALSE: it reads the lower bound a second time where the upper
    bound was meant, so 0.5 is compared against an upper bound of 0.
    Holding -1 or 2 both answer FALSE. *)
Theorem valid_bounds_rejects_value_within_bounds :
  unit_interval_instance 0.5%float = Ok instance_half
  /\ reparam (snd instance_half) = None
  /\ ncm_model_param_get_lower_bound (snd instance_half) 0 = Ok 0%float
  /\ ncm_model_param_get_upper_bound (snd instance_half) 0 = Ok 1%float
  /\ ncm_model_orig_param_get (fst instance_half) (snd instance_half) 0
     = Ok 0.5%float
  /\ spec_bounds_check (fst instance_half) (snd instance_half) = Ok true
  /\ ncm_model_params_valid_bounds (fst instance_half) (snd instance_half)
     = Ok false
  /\ ncm_model_orig_param_get (fst instance_minus_one)
       (snd instance_minus_one) 0 = Ok (-1)%float
  /\ ncm_model_params_valid_bounds (fst instance_minus_one)
       (snd instance_minus_one) = Ok false
  /\ ncm_model_orig_param_get (fst instance_two) (snd instance_two) 0
     = Ok 2%float
  /\ ncm_model_params_valid_bounds (fst instance_two) (snd instance_two)
     = Ok false.
Proof. repeat split. Qed.

(** The check as coded never looks at an upper bound: it answers TRUE
    only if every working value is neither below nor above the lower
    bound of its slot. *)
Lemma params_valid_bounds_from_true st m count :
  forall i0,
    params_valid_bounds_from st m i0 count = Ok true ->
    forall i, i0 <= i < i0 + Z.of_nat count ->
      exists lb val,
        ncm_model_param_get_lower_bound m i = Ok lb
        /\ ncm_model_param_get st m i = Ok val
        /\ PrimFloat.ltb val lb = false
        /\ PrimFloat.ltb lb val = false.
Proof.
  induction count as [|c IH]; intros i0 H i Hi; [lia|].
  simpl in H.
  destruct (ncm_model_param_get_lower_bound m i0) as [lb|e] eqn:Elb;
    [|discriminate].
  cbn in H.
  destruct (ncm_model_param_get st m i0) as [val|e] eqn:Eval; [|discriminate].
  cbn in H.
  destruct (PrimFloat.ltb val lb) eqn:E1; [discriminate|].
  destruct (PrimFloat.ltb lb val) eqn:E2; [discriminate|].
  cbn in H.
  destruct (Z.eq_dec i i0) as [->|Hne].
  - exists lb, val. auto.
  - apply (IH (i0 + 1) H). lia.
Qed.

Lemma params_valid_bounds_true st m :
  ncm_model_params_valid_bounds st m = Ok true ->
  forall i, 0 <= i < total_len m ->
    exists lb val,
      ncm_model_param_get_lower_bound m i = Ok lb
      /\ ncm_model_param_get st m i = Ok val
      /\ PrimFloat.ltb val lb = false
      /\ PrimFloat.ltb lb val = false.
Proof.
  intros H i Hi.
  apply (params_valid_bounds_from_true st m _ 0 H). lia.
Qed.

End ModelSpec.

(** * Further properties of the class level *)

Module ModelClassExtra.

Import Glib GlibFacts Param ModelClass Scenario ScenarioExtra.
Import ModelClassSpec.

(** Both routers answer an id at or above the nonparam count by the walk
    over the level's own regions. *)
Lemma dispatch_above_nonparam model_class prop_id :
  counts_wf model_class ->
  prop_id_in_range model_class prop_id ->
  nonparam_prop_len model_class <= prop_id ->
  _ncm_model_class_get_property model_class prop_id
  = spec_walk_regions model_class prop_id
  /\ _ncm_model_class_set_property model_class prop_id
     = spec_walk_regions model_class prop_id.
Proof.
  intros Hwf Hid Hge.
  pose proof (region_tests_walk model_class prop_id Hwf Hid Hge) as Hwalk.
  cbv zeta in Hwalk.
  unfold _ncm_model_class_get_property, _ncm_model_class_set_property.
  cbv zeta.
  destruct (Z.ltb_spec prop_id (nonparam_prop_len model_class)); [lia|].
  split; exact Hwalk.
Qed.

(** The walk, region by region. *)
Lemma walk_regions_cases model_class k :
  counts_wf model_class ->
  let np := nonparam_prop_len model_class in
  let os := own_sparam_count model_class in
  let ov := own_vparam_count model_class in
  (0 <= k < os ->
   spec_walk_regions model_class (np + k)
   = SParamValue (parent_sparam_len model_class + k))
  /\ (0 <= k < ov ->
      spec_walk_regions model_class (np + os + k)
      = VParamValue (parent_vparam_len model_class + k))
  /\ (0 <= k < ov ->
      spec_walk_regions model_class (np + os + ov + k)
      = VParamLength (parent_vparam_len model_class + k))
  /\ (0 <= k < os ->
      spec_walk_regions model_class (np + os + 2 * ov + k)
      = SParamFit (parent_sparam_len model_class + k))
  /\ (0 <= k < ov ->
      spec_walk_regions model_class (np + 2 * os + 2 * ov + k)
      = VParamFit (parent_vparam_len model_class + k)).
Proof.
  intros (Hnp & Hsl & Hvl & Hps & Hpv) np os ov.
  unfold spec_walk_regions. fold np os ov. cbv zeta.
  assert (Hos : 0 <= os) by (unfold os, own_sparam_count; lia).
  assert (Hov : 0 <= ov) by (unfold ov, own_vparam_count; lia).
  repeat split; intros Hk;
    repeat match goal with
      | |- context [?a <? ?b] => destruct (Z.ltb_spec a b); try lia
      end;
    f_equal; lia.
Qed.

(** The class a successful [ncm_model_class_set_sparam] returns. *)
Lemma set_sparam_result model_class i sy na lb ub sc tol dv pt model_class' :
  ncm_model_class_set_sparam model_class i sy na lb ub sc tol dv pt
  = Ok model_class' ->
  exists arr,
    g_ptr_array_store (sparam model_class) i
      (ncm_sparam_new na sy lb ub sc tol dv pt) = Ok arr
    /\ model_class'
       = g_object_class_install_property
           (g_object_class_install_property (with_sparam model_class arr)
              (guint_add (guint_sub i (parent_sparam_len model_class))
                 (nonparam_prop_len model_class))
              (g_param_spec_double na sy lb ub dv))
           (guint_add
              (guint_add
                 (guint_add (guint_sub i (parent_sparam_len model_class))
                    (nonparam_prop_len model_class))
                 (guint_sub (sparam_len model_class)
                    (parent_sparam_len model_class)))
              (guint_mul 2
                 (guint_sub (vparam_len model_class)
                    (parent_vparam_len model_class))))
           (g_param_spec_boolean (na +:+ "-fit") (sy +:+ ":fit")
              (bool_decide (pt = NCM_PARAM_TYPE_FREE))).
Proof.
  unfold ncm_model_class_set_sparam. intros H.
  bind_inv H as [] Hassert.
  bind_inv H as [d|] Hslot; [discriminate|].
  bind_inv H as arr Hstore. injection H as <-.
  exists arr. split; [exact Hstore | reflexivity].
Qed.

(** X1.  The ids under which a scalar slot is registered lead back to
    the slot: on a level whose ids fit in 32 bits, after
    [ncm_model_class_set_sparam] has registered the own scalar slot [i],
    the property installed for its value is routed, by the getter and by
    the setter, to the value of slot [i], and the property installed for
    its fit flag to the fit flag of slot [i]; the two ids differ. *)
Theorem sparam_property_ids_route_back
  (model_class model_class' : NcmModelClass) (i : Z)
  (symbol pname : string) (lb ub scale abstol dflt : float)
  (ppt : NcmParamType) :
  counts_wf model_class ->
  level_ids_fit model_class ->
  parent_sparam_len model_class <= i < sparam_len model_class ->
  ncm_model_class_set_sparam model_class i symbol pname lb ub scale abstol
    dflt ppt = Ok model_class' ->
  exists prop_id prop_fit_id,
    oc_properties model_class'
    = (prop_fit_id,
       g_param_spec_boolean (pname +:+ "-fit") (symbol +:+ ":fit")
         (bool_decide (ppt = NCM_PARAM_TYPE_FREE)))
      :: (prop_id, g_param_spec_double pname symbol lb ub dflt)
      :: oc_properties model_class
    /\ prop_id <> prop_fit_id
    /\ _ncm_model_class_get_property model_class' prop_id = SParamValue i
    /\ _ncm_model_class_set_property model_class' prop_id = SParamValue i
    /\ _ncm_model_class_get_property model_class' prop_fit_id = SParamFit i
    /\ _ncm_model_class_set_property model_class' prop_fit_id = SParamFit i.
Proof.
  intros Hwf Hfit Hi H.
  apply set_sparam_result in H as (arr & _ & ->).
  set (np := nonparam_prop_len model_class).
  set (ps := parent_sparam_len model_class).
  set (os := own_sparam_count model_class).
  set (ov := own_vparam_count model_class).
  pose proof Hwf as (Hnp & Hsl & Hvl & Hps & Hpv).
  unfold level_ids_fit in Hfit. fold np os ov in Hfit.
  unfold is_guint, guint_modulus in *.
  assert (Hos : os = sparam_len model_class - ps) by reflexivity.
  assert (Hov : ov = vparam_len model_class - parent_vparam_len model_class)
    by reflexivity.
  assert (E1 : guint_add (guint_sub i ps) np = np + (i - ps)).
  { rewrite guint_add_sub_small; [lia|]. unfold is_guint, guint_modulus. lia. }
  assert (E2 : guint_add
                 (guint_add (guint_add (guint_sub i ps) np)
                    (guint_sub (sparam_len model_class) ps))
                 (guint_mul 2
                    (guint_sub (vparam_len model_class)
                       (parent_vparam_len model_class)))
               = np + os + 2 * ov + (i - ps)).
  { rewrite E1. unfold guint_add, guint_sub, guint_mul.
    rewrite (guint_small (sparam_len model_class - ps))
      by (unfold is_guint, guint_modulus; lia).
    rewrite (guint_small (vparam_len model_class
                          - parent_vparam_len model_class))
      by (unfold is_guint, guint_modulus; lia).
    rewrite (guint_small (2 * _)) by (unfold is_guint, guint_modulus; lia).
    rewrite (guint_small (np + (i - ps) + _))
      by (unfold is_guint, guint_modulus; lia).
    rewrite guint_small by (unfold is_guint, guint_modulus; lia).
    lia. }
  fold np ps. rewrite E2, E1.
  exists (np + (i - ps)), (np + os + 2 * ov + (i - ps)).
  match goal with
  | |- context [_ncm_model_class_get_property ?c _] => set (c' := c)
  end.
  assert (Hwf' : counts_wf c') by exact Hwf.
  pose proof (walk_regions_cases c' (i - ps) Hwf') as (W1 & _ & _ & W4 & _).
  cbv zeta in W1, W4.
  change (nonparam_prop_len c') with np in W1, W4.
  change (own_sparam_count c') with os in W1, W4.
  change (own_vparam_count c') with ov in W1, W4.
  change (parent_sparam_len c') with ps in W1, W4.
  assert (R1 : prop_id_in_range c' (np + (i - ps))).
  { unfold prop_id_in_range, guint_modulus.
    change (sparam_len c') with (sparam_len model_class).
    change (vparam_len c') with (vparam_len model_class). lia. }
  assert (R2 : prop_id_in_range c' (np + os + 2 * ov + (i - ps))).
  { unfold prop_id_in_range, guint_modulus.
    change (sparam_len c') with (sparam_len model_class).
    change (vparam_len c') with (vparam_len model_class). lia. }
  destruct (dispatch_above_nonparam c' _ Hwf' R1) as [G1 S1];
    [change (nonparam_prop_len c') with np; lia|].
  destruct (dispatch_above_nonparam c' _ Hwf' R2) as [G2 S2];
    [change (nonparam_prop_len c') with np; lia|].
  rewrite G1, S1, G2, S2, W1, W4 by lia.
  replace (ps + (i - ps)) with i by lia.
  repeat split; try reflexivity. lia.
Qed.

(** Removing the reductions modulo [2^32] that do nothing, innermost
    first. *)
Ltac guint_exact :=
  unfold guint_add, guint_sub, guint_mul;
  repeat match goal with
    | |- context [guint ?x] =>
        lazymatch x with
        | context [guint _] => fail
        | _ => rewrite (guint_small x)
                 by (unfold is_guint, guint_modulus; lia)
        end
    end.

Lemma set_vparam_result model_class i dl sy na lb ub sc tol dv pt model_class' :
  ncm_model_class_set_vparam model_class i dl sy na lb ub sc tol dv pt
  = Ok model_class' ->
  let own_v :=
    guint_sub (vparam_len model_class) (parent_vparam_len model_class) in
  let own_s :=
    guint_sub (sparam_len model_class) (parent_sparam_len model_class) in
  let prop_id :=
    guint_add
      (guint_sub (guint_add i (nonparam_prop_len model_class))
         (parent_vparam_len model_class))
      own_s in
  let prop_len_id := guint_add prop_id own_v in
  let prop_fit_id := guint_add (guint_add prop_len_id own_v) own_s in
  exists arr,
    g_ptr_array_index (vparam model_class) i = Ok None
    /\ g_ptr_array_store (vparam model_class) i
         (ncm_vparam_full_new dl na sy lb ub sc tol dv pt) = Ok arr
    /\ 0 < prop_id
    /\ 0 < prop_len_id
    /\ model_class'
       = g_object_class_install_property
           (g_object_class_install_property
              (g_object_class_install_property (with_vparam model_class arr)
                 prop_id (g_param_spec_variant na sy "ad"))
              prop_len_id
              (g_param_spec_uint (na +:+ "-length") (sy +:+ ":length")
                 0 (guint_modulus - 1) dl true))
           prop_fit_id
           (g_param_spec_variant (na +:+ "-fit") (sy +:+ ":fit") "a*").
Proof.
  unfold ncm_model_class_set_vparam. intros H.
  bind_inv H as [] Ha1. bind_inv H as [] Ha2.
  bind_inv H as [d|] Hslot; [discriminate|].
  bind_inv H as arr Hstore. injection H as <-.
  apply g_assert_Ok, Z.ltb_lt in Ha1. apply g_assert_Ok, Z.ltb_lt in Ha2.
  exists arr. repeat split; assumption.
Qed.

(** X2.  The three ids under which a vector slot is registered lead
    back to the slot: after [ncm_model_class_set_vparam] has registered the own
    vector slot [i] of a level whose ids fit in 32 bits, the property for
    its values is routed to the values of vector [i], the property for
    its length to the length of vector [i] and the property for its fit
    flags to the fit flags of vector [i], by the getter and by the
    setter; the three ids are pairwise different. *)
Theorem vparam_property_ids_route_back
  (model_class model_class' : NcmModelClass) (i default_length : Z)
  (symbol pname : string) (lb ub scale abstol dflt : float)
  (ppt : NcmParamType) :
  counts_wf model_class ->
  level_ids_fit model_class ->
  parent_vparam_len model_class <= i < vparam_len model_class ->
  ncm_model_class_set_vparam model_class i default_length symbol pname
    lb ub scale abstol dflt ppt = Ok model_class' ->
  exists prop_id prop_len_id prop_fit_id,
    oc_properties model_class'
    = (prop_fit_id,
       g_param_spec_variant (pname +:+ "-fit") (symbol +:+ ":fit") "a*")
      :: (prop_len_id,
          g_param_spec_uint (pname +:+ "-length") (symbol +:+ ":length")
            0 (guint_modulus - 1) default_length true)
      :: (prop_id, g_param_spec_variant pname symbol "ad")
      :: oc_properties model_class
    /\ prop_id < prop_len_id < prop_fit_id
    /\ _ncm_model_class_get_property model_class' prop_id = VParamValue i
    /\ _ncm_model_class_set_property model_class' prop_id = VParamValue i
    /\ _ncm_model_class_get_property model_class' prop_len_id
       = VParamLength i
    /\ _ncm_model_class_set_property model_class' prop_len_id
       = VParamLength i
    /\ _ncm_model_class_get_property model_class' prop_fit_id = VParamFit i
    /\ _ncm_model_class_set_property model_class' prop_fit_id = VParamFit i.
Proof.
  intros Hwf Hfit Hi H.
  apply set_vparam_result in H as (arr & _ & _ & _ & _ & ->).
  set (np := nonparam_prop_len model_class).
  set (pv := parent_vparam_len model_class).
  set (os := own_sparam_count model_class).
  set (ov := own_vparam_count model_class).
  pose proof Hwf as (Hnp & Hsl & Hvl & Hps & Hpv).
  unfold level_ids_fit in Hfit. fold np os ov in Hfit.
  unfold is_guint, guint_modulus in Hnp, Hsl, Hvl, Hfit.
  assert (Hos : os = sparam_len model_class - parent_sparam_len model_class)
    by reflexivity.
  assert (Hov : ov = vparam_len model_class - pv) by reflexivity.
  fold np pv.
  assert (E1 : guint_add (guint_sub (guint_add i np) pv)
                 (guint_sub (sparam_len model_class)
                    (parent_sparam_len model_class))
               = np + os + (i - pv)).
  { guint_exact. lia. }
  assert (Ev : guint_sub (vparam_len model_class) pv = ov).
  { guint_exact. lia. }
  assert (Es : guint_sub (sparam_len model_class)
                 (parent_sparam_len model_class) = os).
  { guint_exact. lia. }
  rewrite Es in E1 |- *. rewrite Ev, E1.
  assert (E2 : guint_add (np + os + (i - pv)) ov = np + os + ov + (i - pv)).
  { guint_exact. lia. }
  rewrite E2.
  assert (E3 : guint_add (guint_add (np + os + ov + (i - pv)) ov) os
               = np + 2 * os + 2 * ov + (i - pv)).
  { guint_exact. lia. }
  rewrite E3.
  exists (np + os + (i - pv)), (np + os + ov + (i - pv)),
         (np + 2 * os + 2 * ov + (i - pv)).
  match goal with
  | |- context [_ncm_model_class_get_property ?c _] => set (c' := c)
  end.
  assert (Hwf' : counts_wf c') by exact Hwf.
  pose proof (walk_regions_cases c' (i - pv) Hwf') as (_ & W2 & W3 & _ & W5).
  cbv zeta in W2, W3, W5.
  change (nonparam_prop_len c') with np in W2, W3, W5.
  change (own_sparam_count c') with os in W2, W3, W5.
  change (own_vparam_count c') with ov in W2, W3, W5.
  change (parent_vparam_len c') with pv in W2, W3, W5.
  assert (R : forall n, np <= n <= np + 2 * os + 3 * ov ->
                        prop_id_in_range c' n).
  { intros n Hn. unfold prop_id_in_range, guint_modulus.
    change (sparam_len c') with (sparam_len model_class).
    change (vparam_len c') with (vparam_len model_class). lia. }
  destruct (dispatch_above_nonparam c' (np + os + (i - pv)) Hwf') as [G1 S1];
    [apply R; lia | change (nonparam_prop_len c') with np; lia|].
  destruct (dispatch_above_nonparam c' (np + os + ov + (i - pv)) Hwf')
    as [G2 S2]; [apply R; lia | change (nonparam_prop_len c') with np; lia|].
  destruct (dispatch_above_nonparam c' (np + 2 * os + 2 * ov + (i - pv)) Hwf')
    as [G3 S3]; [apply R; lia | change (nonparam_prop_len c') with np; lia|].
  rewrite G1, S1, G2, S2, G3, S3, W2, W3, W5 by lia.
  replace (pv + (i - pv)) with i by lia.
  repeat split; try reflexivity; lia.
Qed.

Lemma wide_level_fits : counts_wf wide_level /\ level_ids_fit wide_level.
Proof.
  unfold counts_wf, level_ids_fit, is_guint, guint_modulus,
    own_sparam_count, own_vparam_count.
  cbn. lia.
Qed.

Lemma sparam_property_ids_route_back_witness :
  counts_wf wide_level
  /\ level_ids_fit wide_level
  /\ parent_sparam_len wide_level <= 1 < sparam_len wide_level
  /\ ncm_model_class_set_sparam wide_level 1 "s" "s"
       0%float 1%float 1%float 0%float 0.5%float NCM_PARAM_TYPE_FREE
     = Ok wide_level_scalar
  /\ _ncm_model_class_get_property wide_level_scalar 3 = SParamValue 1
  /\ _ncm_model_class_set_property wide_level_scalar 9 = SParamFit 1.
Proof.
  assert (Hi : parent_sparam_len wide_level <= 1 < sparam_len wide_level)
    by (cbn; lia).
  assert (H : ncm_model_class_set_sparam wide_level 1 "s" "s"
                0%float 1%float 1%float 0%float 0.5%float NCM_PARAM_TYPE_FREE
              = Ok wide_level_scalar) by reflexivity.
  split; [apply wide_level_fits | split; [apply wide_level_fits |]].
  split; [exact Hi | split; [exact H |]].
  destruct (sparam_property_ids_route_back wide_level wide_level_scalar 1
              "s" "s" 0%float 1%float 1%float 0%float 0.5%float
              NCM_PARAM_TYPE_FREE (proj1 wide_level_fits)
              (proj2 wide_level_fits) Hi H)
    as (pid & fid & Hprops & _ & G1 & _ & _ & S2).
  injection Hprops as <- <-. split; assumption.
Defined.

Lemma vparam_property_ids_route_back_witness :
  counts_wf wide_level
  /\ level_ids_fit wide_level
  /\ parent_vparam_len wide_level <= 0 < vparam_len wide_level
  /\ ncm_model_class_set_vparam wide_level 0 4 "w" "w"
       0%float 1%float 1%float 0%float 0.5%float NCM_PARAM_TYPE_FIXED
     = Ok wide_level_vector
  /\ _ncm_model_class_get_property wide_level_vector 5 = VParamValue 0
  /\ _ncm_model_class_set_property wide_level_vector 7 = VParamLength 0
  /\ _ncm_model_class_get_property wide_level_vector 11 = VParamFit 0.
Proof.
  assert (Hi : parent_vparam_len wide_level <= 0 < vparam_len wide_level)
    by (cbn; lia).
  assert (H : ncm_model_class_set_vparam wide_level 0 4 "w" "w"
                0%float 1%float 1%float 0%float 0.5%float
                NCM_PARAM_TYPE_FIXED
              = Ok wide_level_vector) by reflexivity.
  split; [apply wide_level_fits | split; [apply wide_level_fits |]].
  split; [exact Hi | split; [exact H |]].
  destruct (vparam_property_ids_route_back wide_level wide_level_vector 0 4
              "w" "w" 0%float 1%float 1%float 0%float 0.5%float
              NCM_PARAM_TYPE_FIXED (proj1 wide_level_fits)
              (proj2 wide_level_fits) Hi H)
    as (pid & lid & fid & Hprops & _ & G1 & _ & _ & S2 & G3 & _).
  injection Hprops as <- <- <-. repeat split; assumption.
Defined.

Lemma g_ptr_array_store_index {A} (arr arr' : option (list (option A))) i x :
  g_ptr_array_store arr i x = Ok arr' ->
  g_ptr_array_index arr' i = Ok (Some x).
Proof.
  destruct arr as [l|]; [|discriminate]. simpl. intros H.
  bind_inv H as l' Hset. injection H as <-.
  exact (g_array_index_set_eq _ _ _ _ Hset).
Qed.

(** X3.  A vector slot is registered once: after a successful
    [ncm_model_class_set_vparam] the slot holds the descriptor just
    built, and a second call on the same index, with whatever arguments,
    stops with the fatal error "Vector Parameter: %u is already set.". *)
Theorem set_vparam_twice_is_fatal
  (model_class model_class' : NcmModelClass) (vparam_id : Z)
  (len1 : Z) (symbol1 name1 : string) (lb1 ub1 scale1 abstol1 default1 : float)
  (ppt1 : NcmParamType)
  (len2 : Z) (symbol2 name2 : string) (lb2 ub2 scale2 abstol2 default2 : float)
  (ppt2 : NcmParamType) :
  ncm_model_class_set_vparam model_class vparam_id len1 symbol1 name1
    lb1 ub1 scale1 abstol1 default1 ppt1 = Ok model_class' ->
  ncm_model_class_set_vparam model_class' vparam_id len2 symbol2 name2
    lb2 ub2 scale2 abstol2 default2 ppt2
  = Fatal (g_error vparam_already_set_msg)
  /\ g_ptr_array_index (vparam model_class') vparam_id
     = Ok (Some (ncm_vparam_full_new len1 name1 symbol1 lb1 ub1 scale1
                   abstol1 default1 ppt1)).
Proof.
  intros H.
  apply set_vparam_result in H as (arr & _ & Hstore & Hp1 & Hp2 & ->).
  apply g_ptr_array_store_index in Hstore.
  split; [|exact Hstore].
  unfold ncm_model_class_set_vparam. cbn.
  apply Z.ltb_lt in Hp1. apply Z.ltb_lt in Hp2.
  rewrite Hp1, Hp2. cbn. rewrite Hstore. reflexivity.
Qed.

Lemma set_vparam_twice_is_fatal_witness :
  ncm_model_class_set_vparam wide_level 0 4 "w" "w"
    0%float 1%float 1%float 0%float 0.5%float NCM_PARAM_TYPE_FIXED
  = Ok wide_level_vector
  /\ ncm_model_class_set_vparam wide_level_vector 0 2 "u" "u"
       0%float 1%float 1%float 0%float 0.5%float NCM_PARAM_TYPE_FREE
     = Fatal (g_error vparam_already_set_msg).
Proof.
  assert (H : ncm_model_class_set_vparam wide_level 0 4 "w" "w"
                0%float 1%float 1%float 0%float 0.5%float
                NCM_PARAM_TYPE_FIXED
              = Ok wide_level_vector) by reflexivity.
  split; [exact H|].
  exact (proj1 (set_vparam_twice_is_fatal wide_level wide_level_vector 0
                  4 "w" "w" 0%float 1%float 1%float 0%float 0.5%float
                  NCM_PARAM_TYPE_FIXED
                  2 "u" "u" 0%float 1%float 1%float 0%float 0.5%float
                  NCM_PARAM_TYPE_FREE H)).
Defined.

(** *** Closing a class *)

Lemma check_all_set_total {A} (arr : option (list (option A))) len msg :
  (forall i, 0 <= i < len -> exists d, g_ptr_array_index arr i = Ok (Some d)) ->
  check_all_set arr len msg = Ok tt.
Proof.
  intros Hall. unfold check_all_set.
  destruct (Z_le_gt_dec 0 len) as [Hn|Hn].
  - destruct (for_loop_total (fun _ (_ : unit) => True)
                (fun i (_ : unit) =>
                   slot ← g_ptr_array_index arr i;
                   match slot with
                   | None => Fatal (g_error msg)
                   | Some _ => Ok tt
                   end) len tt Hn I) as ([] & Hrun & _); [|exact Hrun].
    intros i [] Hi _. destruct (Hall i Hi) as [d ->]. cbn. eauto.
  - unfold for_loop. replace (Z.to_nat len) with 0%nat by lia. reflexivity.
Qed.

(** X4.  [ncm_model_class_check_params_info] returns exactly on the
    classes that have been given a size, have a descriptor in every declared
    scalar and vector slot, and still have the generic property
    functions of [ncm_model.c] in their object class; on every other
    class it aborts. *)
Theorem check_params_info_iff (model_class : NcmModelClass) :
  ncm_model_class_check_params_info model_class = Ok tt
  <-> (~ (guint_add (sparam_len model_class) (vparam_len model_class) = 0
          /\ nonparam_prop_len model_class = 0)
       /\ class_closed model_class
       /\ oc_set_property model_class = _ncm_model_class_set_property_ptr
       /\ oc_get_property model_class = _ncm_model_class_get_property_ptr).
Proof.
  split.
  - intros H. pose proof (check_params_info_closed _ H) as Hclosed.
    unfold ncm_model_class_check_params_info in H.
    bind_inv H as [] H0. bind_inv H as [] Hs. bind_inv H as [] Hv.
    bind_inv H as [] Hset.
    split; [|split; [exact Hclosed | split]].
    + intros [E1 E2]. rewrite E1, E2 in H0. discriminate H0.
    + destruct (bool_decide_reflect
                  (oc_set_property model_class
                   = _ncm_model_class_set_property_ptr));
        [assumption | discriminate].
    + destruct (bool_decide_reflect
                  (oc_get_property model_class
                   = _ncm_model_class_get_property_ptr));
        [assumption | discriminate].
  - intros (Hsize & [Hcs Hcv] & Es & Eg).
    unfold ncm_model_class_check_params_info.
    destruct ((guint_add (sparam_len model_class) (vparam_len model_class)
               =? 0) && (nonparam_prop_len model_class =? 0)) eqn:E0.
    + exfalso. apply Hsize. apply andb_prop in E0 as [E1 E2]. lia.
    + cbn. rewrite (check_all_set_total _ _ _ Hcs). cbn.
      rewrite (check_all_set_total _ _ _ Hcv). cbn.
      rewrite !bool_decide_eq_true_2 by assumption. reflexivity.
Qed.

(** The loop of the check stops at a NULL slot with the error of the
    array it walks. *)
Lemma check_all_set_from_null {A} (l : list (option A)) msg count :
  forall i0 k,
    0 <= i0 ->
    i0 + Z.of_nat count <= Z.of_nat (length l) ->
    i0 <= k < i0 + Z.of_nat count ->
    l !! Z.to_nat k = Some None ->
    for_loop_from i0 count
      (fun i (_ : unit) =>
         slot ← g_ptr_array_index (Some l) i;
         match slot with
         | None => Fatal (g_error msg)
         | Some _ => Ok tt
         end) tt
    = Fatal (g_error msg).
Proof.
  induction count as [|c IH]; intros i0 k Hi0 Hlen Hk Hnull; [lia|].
  cbn [for_loop_from].
  destruct (lookup_lt_is_Some_2 l (Z.to_nat i0)) as [x Hx]; [lia|].
  rewrite g_ptr_array_index_Some, (g_array_index_lookup l i0 x Hi0 Hx). cbn.
  destruct x as [d|]; [|reflexivity].
  apply (IH (i0 + 1) k); try lia; [|exact Hnull].
  destruct (Z.eq_dec k i0) as [->|]; [congruence | lia].
Qed.

Lemma copy_parent_params_rest {A} (copy : A -> A)
  (old : option (list (option A))) (fresh arr : list (option A))
  (parent_len : Z) :
  copy_parent_params copy old fresh parent_len = Ok arr ->
  length arr = length fresh
  /\ forall k, (Z.to_nat parent_len <= k)%nat -> arr !! k = fresh !! k.
Proof.
  intros Hrun. unfold copy_parent_params in Hrun.
  destruct (Z_le_gt_dec 0 parent_len) as [Hn|Hn].
  - refine (for_loop_ind
              (fun n a => length a = length fresh
                          /\ forall k, (Z.to_nat n <= k)%nat ->
                                       a !! k = fresh !! k)
              _ parent_len fresh arr Hn _ _ Hrun); [split; reflexivity|].
    intros n a a' Hn' [Hlen IH] Hbody.
    bind_inv Hbody as [d|] Hread; [|discriminate].
    apply g_array_set_Ok in Hbody as [_ ->].
    split; [now rewrite length_insert|].
    intros k Hk. rewrite list_lookup_insert_ne by lia. apply IH. lia.
  - unfold for_loop in Hrun.
    replace (Z.to_nat parent_len) with 0%nat in Hrun by lia.
    injection Hrun as <-. split; reflexivity.
Qed.

(** X5.  Declaring is not registering: right after
    [ncm_model_class_add_params] has declared at least one new scalar slot
    (on a level that reserves a property id, the totals fitting in 32
    bits), the check of the class aborts with the error on an
    uninitialized scalar parameter. *)
Theorem check_fails_until_registered
  (model_class model_class' : NcmModelClass)
  (n_sparam n_vparam n_nonparam : Z) :
  0 < n_sparam ->
  0 < n_nonparam ->
  0 <= sparam_len model_class ->
  sparam_len model_class + n_sparam < guint_modulus ->
  ncm_model_class_add_params model_class n_sparam n_vparam n_nonparam
  = Ok model_class' ->
  ncm_model_class_check_params_info model_class'
  = Fatal (g_error check_sparam_msg).
Proof.
  intros Hn Hnp Hsl Hfit H.
  unfold ncm_model_class_add_params in H.
  bind_inv H as sp Hsp. bind_inv H as vp Hvp. injection H as <-.
  unfold ncm_model_class_check_params_info. cbn.
  set (sl := sparam_len model_class) in *.
  assert (Enew : guint_add sl n_sparam = sl + n_sparam).
  { unfold guint_add. apply guint_small. unfold is_guint. lia. }
  rewrite Enew in *.
  destruct (Z.eqb_spec n_nonparam 0) as [->|_]; [lia|].
  rewrite andb_false_r. cbn.
  assert (Hsp' : exists l, sp = Some l
                           /\ length l = Z.to_nat (sl + n_sparam)
                           /\ l !! Z.to_nat sl = Some None).
  { unfold grow_params in Hsp.
    destruct (Z.ltb_spec 0 (sl + n_sparam)); [|lia].
    assert (Hfresh : @g_ptr_array_sized NcmSParam (sl + n_sparam)
                       !! Z.to_nat sl = Some None).
    { unfold g_ptr_array_sized. apply lookup_replicate_2. lia. }
    destruct (sparam model_class) as [l0|].
    - bind_inv Hsp as arr Hloop. injection Hsp as <-.
      apply copy_parent_params_rest in Hloop as [Hlen Hrest].
      exists arr. split; [reflexivity|]. split.
      + rewrite Hlen. unfold g_ptr_array_sized. apply length_replicate.
      + rewrite Hrest by lia. exact Hfresh.
    - injection Hsp as <-. eexists. split; [reflexivity|]. split.
      + unfold g_ptr_array_sized. apply length_replicate.
      + exact Hfresh. }
  destruct Hsp' as (l & -> & Hlen & Hnull).
  assert (Hc : check_all_set (Some l) (sl + n_sparam) check_sparam_msg
               = Fatal (g_error check_sparam_msg)).
  { unfold check_all_set, for_loop.
    apply (check_all_set_from_null l check_sparam_msg _ 0 sl); try lia.
    exact Hnull. }
  rewrite Hc. reflexivity.
Qed.

Lemma check_fails_until_registered_witness :
  0 < 2
  /\ 0 < 3
  /\ 0 <= sparam_len one_slot_level_set
  /\ sparam_len one_slot_level_set + 2 < guint_modulus
  /\ ncm_model_class_add_params one_slot_level_set 2 2 3 = Ok wide_level
  /\ ncm_model_class_check_params_info wide_level
     = Fatal (g_error check_sparam_msg).
Proof.
  assert (H1 : 0 < 2) by lia.
  assert (H2 : 0 < 3) by lia.
  assert (H3 : 0 <= sparam_len one_slot_level_set) by (cbn; lia).
  assert (H4 : sparam_len one_slot_level_set + 2 < guint_modulus)
    by (unfold guint_modulus; cbn; lia).
  assert (H5 : ncm_model_class_add_params one_slot_level_set 2 2 3
               = Ok wide_level) by reflexivity.
  repeat (split; [assumption|]).
  exact (check_fails_until_registered one_slot_level_set wide_level 2 2 3
           H1 H2 H3 H4 H5).
Defined.

(** X6.  A level has to reserve property id 0: when
    [ncm_model_class_add_params] is given a nonparam count of zero, the
    registration of the first scalar slot the level declares fails the
    assertion [prop_id > 0], whatever the descriptor. *)
Theorem first_scalar_needs_nonparam_id
  (model_class model_class' : NcmModelClass) (n_sparam n_vparam : Z)
  (symbol pname : string) (lb ub scale abstol dflt : float)
  (ppt : NcmParamType) :
  ncm_model_class_add_params model_class n_sparam n_vparam 0
  = Ok model_class' ->
  ncm_model_class_set_sparam model_class' (sparam_len model_class)
    symbol pname lb ub scale abstol dflt ppt
  = Fatal (g_assert_failed "prop_id > 0").
Proof.
  intros H.
  apply add_params_spec in H as (Eps & _ & _ & _ & Enp & _).
  unfold ncm_model_class_set_sparam. rewrite Eps, Enp.
  unfold guint_add, guint_sub. rewrite Z.sub_diag. reflexivity.
Qed.

Lemma first_scalar_needs_nonparam_id_witness :
  ncm_model_class_add_params one_slot_level_set 1 0 0 = Ok idless_level
  /\ ncm_model_class_set_sparam idless_level 1 "t" "t"
       0%float 1%float 1%float 0%float 0.5%float NCM_PARAM_TYPE_FREE
     = Fatal (g_assert_failed "prop_id > 0").
Proof.
  assert (H : ncm_model_class_add_params one_slot_level_set 1 0 0
              = Ok idless_level) by reflexivity.
  split; [exact H|].
  exact (first_scalar_needs_nonparam_id one_slot_level_set idless_level 1 0
           "t" "t" 0%float 1%float 1%float 0%float 0.5%float
           NCM_PARAM_TYPE_FREE H).
Defined.

End ModelClassExtra.

(** * Further properties of the instance level *)

Module ModelExtra.

Import Glib GlibFacts Param Vector Model Scenario ScenarioExtra.
Import ModelClassSpec ModelSpec.

Section FreshInstance.

Variable peek : NcmVParam -> Z -> NcmSParam.

Lemma set_sparams_slot_result m n sp :
  0 <= n < Z.of_nat (length (ptypes m)) ->
  0 <= n < Z.of_nat (length (sparams m)) ->
  set_sparams_slot m n sp
  = Ok (with_tables m (<[Z.to_nat n := NCM_PARAM_TYPE_FIXED]> (ptypes m))
          (<[Z.to_nat n := Some sp]> (sparams m))
          (<[ncm_sparam_name sp := n]> (sparams_name_id m))).
Proof.
  intros Hpt Hsp. unfold set_sparams_slot.
  rewrite (g_array_set_in_range (ptypes m) n _ Hpt). cbn.
  rewrite (g_array_set_in_range (sparams m) n _ Hsp). reflexivity.
Qed.

(** Writing the slot at the frontier moves the frontier by one. *)
Lemma tables_filled_step lens m k sp :
  tables_filled peek lens k m ->
  slot_descriptor peek (klass m) lens k sp ->
  0 <= k < Z.of_nat (length (ptypes m)) ->
  0 <= k < Z.of_nat (length (sparams m)) ->
  exists m',
    set_sparams_slot m k sp = Ok m'
    /\ same_frame m m'
    /\ tables_filled peek lens (k + 1) m'.
Proof.
  intros (Hslots & Hsound & Hcompl) Hdesc Hpt Hsp.
  pose proof (set_sparams_slot_result m k sp Hpt Hsp) as Hres.
  pose proof (g_array_set_in_range (ptypes m) k NCM_PARAM_TYPE_FIXED Hpt)
    as Hset1.
  pose proof (g_array_set_in_range (sparams m) k (Some sp) Hsp) as Hset2.
  eexists. split; [exact Hres|].
  split; [exact (set_sparams_slot_frame _ _ _ _ Hres)|].
  unfold tables_filled. cbn. repeat split.
  - intros n Hn. destruct (Z.eq_dec n k) as [->|Hne].
    + exists sp. split; [exact Hdesc|]. split.
      * exact (g_array_index_set_eq _ _ _ _ Hset2).
      * exact (g_array_index_set_eq _ _ _ _ Hset1).
    + destruct (Hslots n) as (spn & Hd & Hs & Hp); [lia|].
      exists spn. split; [exact Hd|]. split.
      * now rewrite (g_array_index_set_ne _ _ _ _ _ Hset2 Hne).
      * now rewrite (g_array_index_set_ne _ _ _ _ _ Hset1 Hne).
  - destruct (decide (sp_name sp = s)) as [<-|Hne].
    + rewrite lookup_insert_eq in H. injection H as <-. lia.
    + rewrite lookup_insert_ne in H by exact Hne.
      destruct (Hsound s i H) as [Hi _]. lia.
  - destruct (decide (sp_name sp = s)) as [<-|Hne].
    + rewrite lookup_insert_eq in H. injection H as <-. lia.
    + rewrite lookup_insert_ne in H by exact Hne.
      destruct (Hsound s i H) as [Hi _]. lia.
  - destruct (decide (sp_name sp = s)) as [<-|Hne].
    + rewrite lookup_insert_eq in H. injection H as <-.
      exists sp. split; [|reflexivity].
      exact (g_array_index_set_eq _ _ _ _ Hset2).
    + rewrite lookup_insert_ne in H by exact Hne.
      destruct (Hsound s i H) as [Hi (spi & Hspi & Hname)].
      exists spi. split; [|exact Hname].
      rewrite (g_array_index_set_ne _ _ _ _ _ Hset2); [exact Hspi | lia].
  - intros n spn Hn Hidx. destruct (Z.eq_dec n k) as [->|Hne].
    + rewrite (g_array_index_set_eq _ _ _ _ Hset2) in Hidx.
      injection Hidx as <-. exists k. split; [lia|].
      apply lookup_insert_eq.
    + rewrite (g_array_index_set_ne _ _ _ _ _ Hset2 Hne) in Hidx.
      destruct (Hcompl n spn) as (j & Hj & Hlook); [lia | exact Hidx |].
      destruct (decide (sp_name sp = sp_name spn)) as [E|E].
      * exists k. split; [lia|]. rewrite <- E. apply lookup_insert_eq.
      * exists j. split; [lia|]. now rewrite lookup_insert_ne.
Qed.

Lemma sum_lengths_take_mono lens a b :
  (a <= b)%nat ->
  Forall (fun x => 0 <= x) lens ->
  sum_lengths (take a lens) <= sum_lengths (take b lens).
Proof.
  intros Hab Hnn.
  replace (take a lens) with (take a (take b lens))
    by (rewrite take_take; f_equal; lia).
  apply (sum_lengths_take_le (take b lens) a).
  now apply Forall_take.
Qed.

(** The slots of the vector parameters lie after the scalars, and the
    blocks of two vector parameters do not overlap. *)
Lemma vparam_start_ge model_class lens i :
  Forall (fun x => 0 <= x) lens ->
  ModelClass.sparam_len model_class <= vparam_start model_class lens i.
Proof.
  intros Hnn. unfold vparam_start.
  pose proof (sum_lengths_take_le lens (Z.to_nat i) Hnn). lia.
Qed.

Lemma vparam_blocks_ordered model_class lens i i' len :
  Forall (fun x => 0 <= x) lens ->
  0 <= i < i' ->
  lens !! Z.to_nat i = Some len ->
  vparam_start model_class lens i + len <= vparam_start model_class lens i'.
Proof.
  intros Hnn Hi Hl. unfold vparam_start.
  rewrite <- Z.add_assoc, <- (sum_lengths_take_S lens i len) by (lia || exact Hl).
  pose proof (sum_lengths_take_mono lens (Z.to_nat (i + 1)) (Z.to_nat i')
                ltac:(lia) Hnn). lia.
Qed.

Lemma slot_descriptor_scalar model_class lens n sp :
  Forall (fun x => 0 <= x) lens ->
  n < ModelClass.sparam_len model_class ->
  slot_descriptor peek model_class lens n sp ->
  g_ptr_array_index (ModelClass.sparam model_class) n = Ok (Some sp).
Proof.
  intros Hnn Hn [[_ H]|(i & vp & len & j & Hi & Hl & Hvp & Hj & -> & _)].
  - exact H.
  - pose proof (vparam_start_ge model_class lens i Hnn). lia.
Qed.

Lemma slot_descriptor_component model_class lens i vp len j sp :
  Forall (fun x => 0 <= x) lens ->
  0 <= i ->
  lens !! Z.to_nat i = Some len ->
  g_ptr_array_index (ModelClass.vparam model_class) i = Ok (Some vp) ->
  0 <= j < len ->
  slot_descriptor peek model_class lens
    (vparam_start model_class lens i + j) sp ->
  sp = peek (ncm_vparam_set_len (ncm_vparam_copy vp) len) j.
Proof.
  intros Hnn Hi Hl Hvp Hj
    [[Hn _]|(i' & vp' & len' & j' & Hi' & Hl' & Hvp' & Hj' & Heq & ->)].
  - pose proof (vparam_start_ge model_class lens i Hnn). lia.
  - assert (i' = i) as ->.
    { destruct (Z.lt_trichotomy i i') as [Hlt|[E|Hgt]]; [|now symmetry|].
      - pose proof (vparam_blocks_ordered model_class lens i i' len Hnn
                      ltac:(lia) Hl). lia.
      - pose proof (vparam_blocks_ordered model_class lens i' i len' Hnn
                      ltac:(lia) Hl'). lia. }
    rewrite Hl in Hl'. injection Hl' as <-.
    rewrite Hvp in Hvp'. injection Hvp' as <-.
    f_equal. lia.
Qed.

(** Filling the slots: every slot gets the descriptor the class gives
    it, the fit type fixed, and its name in the name table. *)
Lemma set_sparams_filled m lens :
  let model_class := klass m in
  let sl := ModelClass.sparam_len model_class in
  ModelClass.class_closed model_class ->
  is_guint sl ->
  Z.of_nat (length lens) = ModelClass.vparam_len model_class ->
  Forall (fun x => 0 <= x) lens ->
  sl + sum_lengths lens < guint_modulus ->
  vparam_len m = lens ->
  (forall i, 0 <= i < ModelClass.vparam_len model_class ->
     g_array_index (vparam_pos m) i = Ok (vparam_start model_class lens i)) ->
  total_len m = sl + sum_lengths lens ->
  length (ptypes m) = Z.to_nat (total_len m) ->
  exists m',
    _ncm_model_set_sparams peek m = Ok m'
    /\ tables_filled peek lens (total_len m) m'.
Proof.
  intros mc sl [Hcs Hcv] Hsl Hlen Hnn Hfit Hvl Hpos Htot Hpt.
  set (vl := ModelClass.vparam_len mc) in *.
  set (m0 := with_tables m (ptypes m) (g_ptr_array_sized (total_len m)) ∅).
  pose proof (sum_lengths_nonneg lens Hnn) as Hsum.
  assert (Hsl0 : 0 <= sl) by (unfold is_guint in Hsl; lia).
  pose (Inv := fun (k : Z) (s : NcmModel) =>
                 same_frame m0 s /\ tables_filled peek lens k s).
  assert (Hsizes : forall s, same_frame m0 s ->
            Z.of_nat (length (ptypes s)) = total_len m
            /\ Z.of_nat (length (sparams s)) = total_len m
            /\ vparam_len s = lens
            /\ vparam_pos s = vparam_pos m
            /\ klass s = mc).
  { intros s (_ & Hk & _ & _ & Hv & Hp & _ & _ & _ & Hpt' & Hsp').
    cbn in Hk, Hv, Hp, Hpt', Hsp'.
    unfold g_ptr_array_sized in Hsp'. rewrite length_replicate in Hsp'.
    rewrite Hpt', Hsp', Hpt, Hv. repeat split; try lia; assumption. }
  (* the scalar slots *)
  destruct (for_loop_total Inv
              (fun i s =>
                 slot ← g_ptr_array_index (ModelClass.sparam mc) i;
                 match slot with
                 | None => Fatal invalid_memory_access
                 | Some sp => set_sparams_slot s i (ncm_sparam_copy sp)
                 end)
              sl m0 Hsl0) as (m1 & Hrun1 & Hf1 & Hfill1).
  { split; [apply same_frame_refl|].
    unfold tables_filled. cbn. repeat split; intros; try lia.
    - rewrite lookup_empty in H. discriminate.
    - rewrite lookup_empty in H. discriminate.
    - rewrite lookup_empty in H. discriminate. }
  { intros i s Hi [Hfr Hfill].
    destruct (Hcs i Hi) as [d Hd]. rewrite Hd. cbn.
    destruct (Hsizes s Hfr) as (Hp1 & Hs1 & _ & _ & Hk).
    destruct (tables_filled_step lens s i (ncm_sparam_copy d))
      as (s' & Hs' & Hfr' & Hfill'); [exact Hfill | | lia | lia |].
    { left. rewrite Hk. split; [exact Hi | exact Hd]. }
    exists s'. split; [exact Hs'|]. split.
    - exact (same_frame_trans _ _ _ Hfr Hfr').
    - exact Hfill'. }
  (* the components of the vector parameters *)
  assert (Hvl0 : 0 <= vl) by lia.
  destruct (for_loop_total
              (fun i s => Inv (vparam_start mc lens i) s)
              (fun i s =>
                 len ← g_array_index (vparam_len s) i;
                 pos ← g_array_index (vparam_pos s) i;
                 slot ← g_ptr_array_index (ModelClass.vparam mc) i;
                 match slot with
                 | None => Fatal invalid_memory_access
                 | Some vp0 =>
                     let vp := ncm_vparam_set_len (ncm_vparam_copy vp0) len in
                     for_loop len (fun j s' =>
                       set_sparams_slot s' (guint_add pos j)
                         (peek vp j)) s
                 end)
              vl m1 Hvl0) as (m2 & Hrun2 & Hf2 & Hfill2).
  { unfold vparam_start. cbn. unfold sum_lengths. simpl. rewrite Z.add_0_r.
    split; assumption. }
  { intros i s Hi [Hfr Hfill].
    destruct (Hsizes s Hfr) as (_ & _ & Hv & Hp & _).
    destruct (lookup_lt_is_Some_2 lens (Z.to_nat i)) as [len Hl]; [lia|].
    rewrite Hv, Hp, (g_array_index_lookup lens i len) by (lia || exact Hl).
    cbn. rewrite (Hpos i Hi). cbn.
    destruct (Hcv i Hi) as [vp0 Hvp]. rewrite Hvp. cbn.
    assert (Hlen0 : 0 <= len).
    { rewrite Forall_forall in Hnn. apply Hnn.
      now apply (list_elem_of_lookup_2 _ (Z.to_nat i)). }
    pose proof (sum_lengths_take_le lens (Z.to_nat (i + 1)) Hnn) as Hle.
    pose proof (sum_lengths_take_le lens (Z.to_nat i) Hnn) as Hle0.
    assert (Hnext : vparam_start mc lens (i + 1)
                    = vparam_start mc lens i + len).
    { unfold vparam_start.
      rewrite (sum_lengths_take_S lens i len) by (lia || exact Hl). lia. }
    rewrite (sum_lengths_take_S lens i len) in Hle by (lia || exact Hl).
    set (pos := vparam_start mc lens i) in *.
    assert (Hpos_eq : pos = sl + sum_lengths (take (Z.to_nat i) lens))
      by reflexivity.
    destruct (for_loop_total (fun j s' => Inv (pos + j) s')
                (fun j s' =>
                   set_sparams_slot s' (guint_add pos j)
                     (peek (ncm_vparam_set_len (ncm_vparam_copy vp0) len) j))
                len s Hlen0) as (s2 & Hrun & Hfr2 & Hfill2').
    - rewrite Z.add_0_r. split; assumption.
    - intros j t Hj [Hfrt Hfillt].
      destruct (Hsizes t Hfrt) as (Hp1 & Hs1 & _ & _ & Hk).
      assert (Hn : guint_add pos j = pos + j).
      { unfold guint_add. apply guint_small.
        unfold is_guint, guint_modulus in *. lia. }
      rewrite Hn.
      destruct (tables_filled_step lens t (pos + j)
                  (peek (ncm_vparam_set_len (ncm_vparam_copy vp0) len) j))
        as (t' & Ht' & Hfr' & Hfill'); [exact Hfillt | | lia | lia |].
      { right. rewrite Hk. exists i, vp0, len, j.
        repeat split; try assumption; lia. }
      exists t'. split; [exact Ht'|]. split.
      + exact (same_frame_trans _ _ _ Hfrt Hfr').
      + rewrite <- Z.add_assoc in Hfill'. exact Hfill'.
    - exists s2. split; [exact Hrun|]. rewrite Hnext.
      split; assumption. }
  exists m2. split.
  - unfold _ncm_model_set_sparams. fold mc m0 sl vl. rewrite Hrun1. cbn.
    exact Hrun2.
  - unfold vparam_start in Hfill2. rewrite take_ge in Hfill2 by lia.
    now rewrite Htot.
Qed.

(** Setting the defaults: the only vector written is the working one,
    and each of its cells gets the default value of its slot's
    descriptor. *)
Lemma params_set_default_values st m l v :
  reparam m = None ->
  p m = Some l ->
  st !! l = Some v ->
  length v = Z.to_nat (total_len m) ->
  0 <= total_len m ->
  filled_below (total_len m) m ->
  exists v',
    ncm_model_params_set_default st m
    = Ok (<[l := v']> st, with_pkey m (pkey m + 1))
    /\ length v' = length v
    /\ forall n sp, 0 <= n < total_len m ->
         g_array_index (sparams m) n = Ok (Some sp) ->
         g_array_index v' n = Ok (sp_default_value sp).
Proof.
  intros Hr Hp Hv Hlen Htl Hfill.
  destruct (for_loop_total
              (fun (k : Z) (s : store) =>
                 exists v', s = <[l := v']> st
                   /\ length v' = length v
                   /\ forall n sp, 0 <= n < k ->
                        g_array_index (sparams m) n = Ok (Some sp) ->
                        g_array_index v' n = Ok (sp_default_value sp))
              (fun i s =>
                 sp ← ncm_model_param_peek_desc m i;
                 ncm_vector_set s (p m) i (ncm_sparam_get_default_value sp))
              (total_len m) st Htl) as (st' & Hrun & v' & -> & Hlen' & Hvals).
  - exists v. split; [symmetry; now apply insert_id|].
    split; [reflexivity | intros; lia].
  - intros i s Hi (v' & -> & Hlen' & Hvals).
    destruct (Hfill i Hi) as [sp Hsp].
    unfold ncm_model_param_peek_desc, ncm_model_peek_reparam.
    destruct (Z.ltb_spec i (total_len m)); [|lia].
    cbn. rewrite Hr, Hsp. cbn. rewrite Hp.
    unfold ncm_vector_set, ncm_vector_data. rewrite lookup_insert_eq. cbn.
    assert (Hset : g_array_set v' i (ncm_sparam_get_default_value sp)
                   = Ok (<[Z.to_nat i := ncm_sparam_get_default_value sp]> v'))
      by (apply g_array_set_in_range; lia).
    rewrite Hset. cbn.
    eexists. split; [reflexivity|].
    eexists. split; [apply insert_insert_eq|].
    split; [now rewrite length_insert|].
    intros n spn Hn Hidx. destruct (Z.eq_dec n i) as [->|Hne].
    + rewrite Hsp in Hidx. injection Hidx as <-.
      exact (g_array_index_set_eq _ _ _ _ Hset).
    + rewrite (g_array_index_set_ne _ _ _ _ _ Hset Hne).
      apply Hvals; [lia | exact Hidx].
  - exists v'. split; [|split; [exact Hlen' | exact Hvals]].
    unfold ncm_model_params_set_default. rewrite Hrun. cbn.
    unfold ncm_model_params_update. cbn. rewrite Hr. reflexivity.
Qed.

(** What [_ncm_model_constructed] builds. *)
Lemma constructed_full st m0 lens :
  ready_to_construct m0 lens ->
  exists v m,
    _ncm_model_constructed peek st m0 = Ok (<[fresh (dom st) := v]> st, m)
    /\ klass m = klass m0
    /\ g_type m = g_type m0
    /\ reparam m = None
    /\ params m = Some (fresh (dom st))
    /\ p m = Some (fresh (dom st))
    /\ total_len m = ModelClass.sparam_len (klass m0) + sum_lengths lens
    /\ length v = Z.to_nat (total_len m)
    /\ vparam_len m = lens
    /\ (forall i, 0 <= i < ModelClass.vparam_len (klass m0) ->
          g_array_index (vparam_pos m) i
          = Ok (vparam_start (klass m0) lens i))
    /\ tables_filled peek lens (total_len m) m
    /\ forall n sp, 0 <= n < total_len m ->
         g_array_index (sparams m) n = Ok (Some sp) ->
         g_array_index v n = Ok (sp_default_value sp).
Proof.
  intros (Hcheck & Hsl & Hlen & Hvl0 & Hpos0 & Hr0 & Hnn & Hfit).
  pose proof (check_params_info_closed (klass m0) Hcheck) as Hclosed.
  pose proof (sum_lengths_nonneg lens Hnn) as Hsum.
  assert (Hsl0 : 0 <= ModelClass.sparam_len (klass m0))
    by (unfold is_guint in Hsl; lia).
  destruct (constructed_layout_total (klass m0) lens (vparam_pos m0)
              Hsl Hlen Hpos0 Hnn Hfit) as (layout & Hlay & Htot & Hpos).
  unfold _ncm_model_constructed. rewrite Hvl0, Hlay. cbn.
  set (l := fresh (dom st)).
  set (store1 := <[l := replicate (Z.to_nat (snd layout)) 0%float]> st).
  match goal with
  | |- context [_ncm_model_set_sparams peek ?m] => set (m1 := m)
  end.
  destruct (set_sparams_filled m1 lens) as (m2 & Hset & Hfill);
    try assumption; try reflexivity.
  { cbn. now rewrite g_array_set_size_length. }
  rewrite Hset. cbn.
  pose proof (set_sparams_frame peek m1 m2 Hset)
    as (Hty & Hk & Hpar & Hp & Hvl & Hvp & _ & Hr & Htl & _).
  cbn in Hty, Hk, Hpar, Hp, Hvl, Hvp, Hr, Htl, Hfill.
  rewrite Hr0 in Hr.
  destruct (params_set_default_values store1 m2 l
              (replicate (Z.to_nat (snd layout)) 0%float))
    as (v' & Hdef & Hlen' & Hvals); try assumption.
  { apply lookup_insert_eq. }
  { now rewrite length_replicate, Htl. }
  { rewrite Htl, Htot. lia. }
  { rewrite Htl. intros n Hn.
    destruct (proj1 Hfill n Hn) as (sp & _ & Hsp & _). eauto. }
  exists v', (with_pkey m2 (pkey m2 + 1)).
  rewrite Hdef. unfold store1. rewrite insert_insert_eq. cbn.
  rewrite length_replicate in Hlen'.
  rewrite Htl, Htot in *.
  split; [reflexivity|].
  split; [exact Hk|]. split; [exact Hty|]. split; [exact Hr|].
  split; [exact Hpar|]. split; [exact Hp|]. split; [reflexivity|].
  split; [exact Hlen'|]. split; [exact Hvl|].
  split; [now rewrite Hvp|].
  split; [exact Hfill | exact Hvals].
Qed.

(** Without a transform, the descriptor of a slot within the total
    length is the one of the instance's own table. *)
Lemma peek_desc_plain m n sp :
  reparam m = None ->
  0 <= n < total_len m ->
  ncm_model_param_peek_desc m n = Ok sp
  <-> g_array_index (sparams m) n = Ok (Some sp).
Proof.
  intros Hr Hn. unfold ncm_model_param_peek_desc, ncm_model_peek_reparam.
  destruct (Z.ltb_spec n (total_len m)) as [_|Hge]; [|lia]. cbn. rewrite Hr.
  destruct (g_array_index (sparams m) n) as [[d|]|e]; cbn;
    split; intros H; try discriminate; congruence.
Qed.

(** The instance [_ncm_model_constructed] builds, in the words of its
    accessors. *)
Lemma constructed_instance st m0 lens :
  ready_to_construct m0 lens ->
  exists st' m,
    _ncm_model_constructed peek st m0 = Ok (st', m)
    /\ reparam m = None
    /\ total_len m = ModelClass.sparam_len (klass m0) + sum_lengths lens
    /\ vparam_len m = lens
    /\ (forall i, 0 <= i < ModelClass.vparam_len (klass m0) ->
          g_array_index (vparam_pos m) i
          = Ok (vparam_start (klass m0) lens i))
    /\ (forall n, 0 <= n < total_len m ->
          exists sp,
            slot_descriptor peek (klass m0) lens n sp
            /\ ncm_model_param_peek_desc m n = Ok sp
            /\ ncm_model_param_get_ftype m n = Ok NCM_PARAM_TYPE_FIXED
            /\ ncm_model_param_get st' m n = Ok (sp_default_value sp)
            /\ ncm_model_orig_param_get st' m n = Ok (sp_default_value sp))
    /\ (forall s i, sparams_name_id m !! s = Some i ->
          0 <= i < total_len m
          /\ exists sp, ncm_model_param_peek_desc m i = Ok sp
                        /\ sp_name sp = s)
    /\ (forall n sp, 0 <= n < total_len m ->
          ncm_model_param_peek_desc m n = Ok sp ->
          exists j, n <= j < total_len m
                    /\ sparams_name_id m !! sp_name sp = Some j).
Proof.
  intros Hc.
  destruct (constructed_full st m0 lens Hc)
    as (v & m & Hnew & Hk & _ & Hr & Hpar & Hp & Htl & Hlen & Hvl & Hpos
        & (Hslots & Hsound & Hcompl) & Hvals).
  exists (<[fresh (dom st) := v]> st), m.
  split; [exact Hnew|]. split; [exact Hr|]. split; [exact Htl|].
  split; [exact Hvl|]. split; [exact Hpos|].
  split; [|split].
  - intros n Hn. destruct (Hslots n Hn) as (sp & Hd & Hsp & Hft).
    exists sp. rewrite Hk in Hd.
    split; [exact Hd|].
    split; [now apply peek_desc_plain|].
    split; [exact Hft|].
    unfold ncm_model_param_get, ncm_model_orig_param_get, ncm_vector_get,
      ncm_vector_data.
    rewrite Hp, Hpar, lookup_insert_eq. cbn.
    split; exact (Hvals n sp Hn Hsp).
  - intros s i Hlook. destruct (Hsound s i Hlook) as [Hi (sp & Hsp & Hname)].
    split; [exact Hi|]. exists sp. split; [|exact Hname].
    now apply peek_desc_plain.
  - intros n sp Hn Hd. apply peek_desc_plain in Hd; [|exact Hr|exact Hn].
    exact (Hcompl n sp Hn Hd).
Qed.

Lemma constructible_ready type_name model_class :
  constructible model_class ->
  ready_to_construct (ncm_model_init type_name model_class) [].
Proof.
  intros (Hcheck & Hsl & Hvl). unfold ready_to_construct. cbn.
  split; [exact Hcheck|]. split; [exact Hsl|]. split; [now rewrite Hvl|].
  split; [reflexivity|]. split; [reflexivity|]. split; [reflexivity|].
  split; [apply List.Forall_nil|].
  unfold sum_lengths, is_guint in *. cbn. lia.
Qed.

(** The new instance of a class without vector parameter, in the words
    of its accessors. *)
Lemma fresh_instance st type_name model_class :
  constructible model_class ->
  exists st' m,
    ncm_model_new peek st type_name model_class [] = Ok (st', m)
    /\ reparam m = None
    /\ total_len m = ModelClass.sparam_len model_class
    /\ (forall n, 0 <= n < total_len m ->
          exists sp,
            g_ptr_array_index (ModelClass.sparam model_class) n = Ok (Some sp)
            /\ ncm_model_param_peek_desc m n = Ok sp
            /\ ncm_model_param_get_ftype m n = Ok NCM_PARAM_TYPE_FIXED
            /\ ncm_model_param_get st' m n = Ok (sp_default_value sp)
            /\ ncm_model_orig_param_get st' m n = Ok (sp_default_value sp))
    /\ (forall s i, sparams_name_id m !! s = Some i ->
          0 <= i < total_len m
          /\ exists sp, ncm_model_param_peek_desc m i = Ok sp
                        /\ sp_name sp = s)
    /\ (forall n sp, 0 <= n < total_len m ->
          ncm_model_param_peek_desc m n = Ok sp ->
          exists j, n <= j < total_len m
                    /\ sparams_name_id m !! sp_name sp = Some j).
Proof.
  intros Hc.
  destruct (constructed_instance st (ncm_model_init type_name model_class) []
              (constructible_ready type_name model_class Hc))
    as (st' & m & Hnew & Hr & Htl & _ & _ & Hslots & Hsound & Hcompl).
  cbn in Htl, Hslots.
  assert (Etl : total_len m = ModelClass.sparam_len model_class)
    by (rewrite Htl; unfold sum_lengths; cbn; lia).
  exists st', m.
  split; [rewrite (ncm_model_new_nil peek); exact Hnew|].
  split; [exact Hr|]. split; [exact Etl|].
  split; [|split; [exact Hsound | exact Hcompl]].
  intros n Hn. destruct (Hslots n Hn) as (sp & Hd & Hrest).
  exists sp. split; [|exact Hrest].
  apply (slot_descriptor_scalar model_class [] n sp);
    [apply List.Forall_nil | lia | exact Hd].
Qed.

(** X7.  Every parameter of a new instance is fixed: for a class
    without vector parameter that has passed
    [ncm_model_class_check_params_info], the construction returns an
    instance with one slot per scalar of the class, and the fit type of
    every slot reads [NCM_PARAM_TYPE_FIXED], whatever fit type the
    descriptors of the class name. *)
Theorem fresh_instance_parameters_fixed
  (st : store) (type_name : string)
  (model_class : ModelClass.NcmModelClass) :
  constructible model_class ->
  exists st' m,
    ncm_model_new peek st type_name model_class [] = Ok (st', m)
    /\ total_len m = ModelClass.sparam_len model_class
    /\ forall n, 0 <= n < total_len m ->
         ncm_model_param_get_ftype m n = Ok NCM_PARAM_TYPE_FIXED.
Proof.
  intros Hc.
  destruct (fresh_instance st type_name model_class Hc)
    as (st' & m & Hnew & _ & Htl & Hslots & _).
  exists st', m. split; [exact Hnew|]. split; [exact Htl|].
  intros n Hn. destruct (Hslots n Hn) as (sp & _ & _ & Hft & _).
  exact Hft.
Qed.

(** X8.  The parameters of a new instance of a class without vector
    parameter: slot [n] has the class's descriptor of scalar [n], and
    both the working and the original value of the slot are the
    descriptor's default value. *)
Theorem fresh_instance_scalars_at_defaults
  (st : store) (type_name : string)
  (model_class : ModelClass.NcmModelClass) :
  constructible model_class ->
  exists st' m,
    ncm_model_new peek st type_name model_class [] = Ok (st', m)
    /\ forall n d,
         0 <= n < ModelClass.sparam_len model_class ->
         g_ptr_array_index (ModelClass.sparam model_class) n = Ok (Some d) ->
         ncm_model_param_peek_desc m n = Ok d
         /\ ncm_model_param_get st' m n = Ok (ncm_sparam_get_default_value d)
         /\ ncm_model_orig_param_get st' m n
            = Ok (ncm_sparam_get_default_value d).
Proof.
  intros Hc.
  destruct (fresh_instance st type_name model_class Hc)
    as (st' & m & Hnew & _ & Htl & Hslots & _).
  exists st', m. split; [exact Hnew|].
  intros n d Hn Hd.
  destruct (Hslots n) as (sp & Hdesc & Hpeek & _ & Hget & Horig); [lia|].
  rewrite Hd in Hdesc. injection Hdesc as ->.
  split; [exact Hpeek|]. split; [exact Hget | exact Horig].
Qed.

(** X9.  What [_ncm_model_constructed] makes of the vector parameters,
    on an instance whose tables [vparam_len] and [vparam_pos] have an
    entry for each of them: the [i]-th vector parameter starts after all
    scalars and all components of the vector parameters before it, at
    the position recorded in [vparam_pos]; its component [j] has the
    [j]-th descriptor of the class's vector descriptor expanded to the
    instance's length, and holds that descriptor's default value. *)
Theorem constructed_vector_components
  (st : store) (m0 : NcmModel) (lens : list Z) :
  ready_to_construct m0 lens ->
  exists st' m,
    _ncm_model_constructed peek st m0 = Ok (st', m)
    /\ forall i vp len,
         0 <= i < ModelClass.vparam_len (klass m0) ->
         g_ptr_array_index (ModelClass.vparam (klass m0)) i = Ok (Some vp) ->
         lens !! Z.to_nat i = Some len ->
         let pos := ModelClass.sparam_len (klass m0)
                    + sum_lengths (take (Z.to_nat i) lens) in
         g_array_index (vparam_pos m) i = Ok pos
         /\ g_array_index (vparam_len m) i = Ok len
         /\ forall j, 0 <= j < len ->
              let sp := peek (ncm_vparam_set_len (ncm_vparam_copy vp) len) j in
              ncm_model_param_peek_desc m (pos + j) = Ok sp
              /\ ncm_model_param_get_ftype m (pos + j)
                 = Ok NCM_PARAM_TYPE_FIXED
              /\ ncm_model_param_get st' m (pos + j)
                 = Ok (ncm_sparam_get_default_value sp).
Proof.
  intros Hc.
  destruct (constructed_instance st m0 lens Hc)
    as (st' & m & Hnew & _ & Htl & Hvl & Hpos & Hslots & _).
  exists st', m. split; [exact Hnew|].
  intros i vp len Hi Hvp Hl pos.
  destruct Hc as (_ & Hsl & Hlen & _ & _ & _ & Hnn & _).
  split; [exact (Hpos i Hi)|].
  split; [rewrite Hvl; apply g_array_index_lookup; [lia | exact Hl]|].
  intros j Hj sp.
  pose proof (sum_lengths_take_le lens (Z.to_nat (i + 1)) Hnn) as Hle.
  pose proof (sum_lengths_take_le lens (Z.to_nat i) Hnn) as Hle0.
  rewrite (sum_lengths_take_S lens i len) in Hle by (lia || exact Hl).
  destruct (Hslots (pos + j)) as (sp' & Hdesc & Hpeek & Hft & Hget & _);
    [rewrite Htl; unfold pos, is_guint in *; lia|].
  apply (slot_descriptor_component (klass m0) lens i vp len j) in Hdesc;
    [|exact Hnn|lia|exact Hl|exact Hvp|exact Hj].
  subst sp'. split; [exact Hpeek|]. split; [exact Hft | exact Hget].
Qed.

(** The name table of a new instance maps a name to the last slot that
    carries it. *)
Lemma fresh_instance_names st type_name model_class :
  constructible model_class ->
  exists st' m,
    ncm_model_new peek st type_name model_class [] = Ok (st', m)
    /\ reparam m = None
    /\ (forall s,
          (forall n sp, 0 <= n < total_len m ->
             ncm_model_param_peek_desc m n = Ok sp -> sp_name sp <> s) ->
          sparams_name_id m !! s = None)
    /\ (forall s j,
          sparams_name_id m !! s = Some j
          <-> (0 <= j < total_len m
               /\ (exists sp, ncm_model_param_peek_desc m j = Ok sp
                              /\ sp_name sp = s)
               /\ forall n sp, j < n < total_len m ->
                    ncm_model_param_peek_desc m n = Ok sp -> sp_name sp <> s))
    /\ (forall n sp, 0 <= n < total_len m ->
          ncm_model_param_peek_desc m n = Ok sp ->
          ncm_model_param_get st' m n = Ok (sp_default_value sp)).
Proof.
  intros Hc.
  destruct (fresh_instance st type_name model_class Hc)
    as (st' & m & Hnew & Hr & _ & Hslots & Hsound & Hcompl).
  exists st', m. split; [exact Hnew|]. split; [exact Hr|].
  split; [|split].
  - intros s Hnone.
    destruct (sparams_name_id m !! s) as [i|] eqn:E; [|reflexivity].
    destruct (Hsound s i E) as [Hi (sp & Hsp & Hname)].
    now destruct (Hnone i sp Hi Hsp).
  - intros s j. split.
    + intros Hlook. destruct (Hsound s j Hlook) as [Hj Hsp].
      split; [exact Hj|]. split; [exact Hsp|].
      intros n sp Hn Hd Hname.
      destruct (Hcompl n sp) as (k & Hk & Hlook'); [lia | exact Hd |].
      rewrite Hname, Hlook in Hlook'. injection Hlook' as ->. lia.
    + intros (Hj & (sp & Hsp & Hname) & Hlast).
      destruct (Hcompl j sp Hj Hsp) as (k & Hk & Hlook).
      rewrite Hname in Hlook.
      destruct (Z.eq_dec k j) as [->|Hne]; [exact Hlook|].
      destruct (Hsound s k Hlook) as [_ (spk & Hspk & Hnamek)].
      destruct (Hlast k spk); [lia | exact Hspk | exact Hnamek].
  - intros n sp Hn Hd.
    destruct (Hslots n Hn) as (sp' & _ & Hpeek & _ & Hget & _).
    rewrite Hd in Hpeek. injection Hpeek as <-. exact Hget.
Qed.

(** X10.  Looking a name up in a new instance of a class without vector
    parameter: the lookup finds slot [j] exactly when [j] is the last
    slot whose descriptor has the name, so that of two parameters
    declared with the same name only the later one can be reached by
    name; a name no slot carries is reported as not found with the index
    set to [(guint) -1]. *)
Theorem fresh_instance_name_finds_last_slot
  (st : store) (type_name : string)
  (model_class : ModelClass.NcmModelClass) :
  constructible model_class ->
  exists st' m,
    ncm_model_new peek st type_name model_class [] = Ok (st', m)
    /\ (forall s j,
          ncm_model_param_index_from_name m s = Ok (true, j)
          <-> (0 <= j < total_len m
               /\ (exists sp, ncm_model_param_peek_desc m j = Ok sp
                              /\ sp_name sp = s)
               /\ forall n sp, j < n < total_len m ->
                    ncm_model_param_peek_desc m n = Ok sp -> sp_name sp <> s))
    /\ (forall s,
          (forall n sp, 0 <= n < total_len m ->
             ncm_model_param_peek_desc m n = Ok sp -> sp_name sp <> s) ->
          ncm_model_param_index_from_name m s = Ok (false, 4294967295)).
Proof.
  intros Hc.
  destruct (fresh_instance_names st type_name model_class Hc)
    as (st' & m & Hnew & Hr & Hnone & Hlast & _).
  exists st', m. split; [exact Hnew|].
  assert (Hidx : forall s,
            ncm_model_param_index_from_name m s
            = Ok (ncm_model_orig_param_index_from_name m s)).
  { intros s. unfold ncm_model_param_index_from_name, ncm_model_peek_reparam.
    now rewrite Hr. }
  split.
  - intros s j. rewrite Hidx, <- Hlast.
    unfold ncm_model_orig_param_index_from_name.
    destruct (sparams_name_id m !! s) as [i|]; split; intros H;
      try discriminate; congruence.
  - intros s Hs. rewrite Hidx.
    unfold ncm_model_orig_param_index_from_name.
    now rewrite (Hnone s Hs).
Qed.

(** X11.  Reading a parameter of a new instance of a class without
    vector parameter by name: the name of the last slot that carries it
    reads that slot's default value, and a name no slot carries fails
    the assertion [has_param]. *)
Theorem fresh_instance_get_by_name
  (st : store) (type_name : string)
  (model_class : ModelClass.NcmModelClass) :
  constructible model_class ->
  exists st' m,
    ncm_model_new peek st type_name model_class [] = Ok (st', m)
    /\ (forall j sp,
          0 <= j < total_len m ->
          ncm_model_param_peek_desc m j = Ok sp ->
          (forall n sp', j < n < total_len m ->
             ncm_model_param_peek_desc m n = Ok sp' ->
             sp_name sp' <> sp_name sp) ->
          ncm_model_param_get_by_name st' m (ncm_sparam_name sp)
          = Ok (ncm_sparam_get_default_value sp)
          /\ ncm_model_orig_param_get_by_name st' m (ncm_sparam_name sp)
             = ncm_model_orig_param_get st' m j)
    /\ (forall s,
          (forall n sp, 0 <= n < total_len m ->
             ncm_model_param_peek_desc m n = Ok sp -> sp_name sp <> s) ->
          ncm_model_param_get_by_name st' m s
          = Fatal (g_assert_failed "has_param")
          /\ ncm_model_orig_param_get_by_name st' m s
             = Fatal (g_assert_failed "has_param")).
Proof.
  intros Hc.
  destruct (fresh_instance_names st type_name model_class Hc)
    as (st' & m & Hnew & Hr & Hnone & Hlast & Hget).
  exists st', m. split; [exact Hnew|].
  split.
  - intros j sp Hj Hsp Hlater.
    assert (Hlook : sparams_name_id m !! sp_name sp = Some j).
    { apply Hlast. split; [exact Hj|]. split; [eauto | exact Hlater]. }
    unfold ncm_model_param_get_by_name, ncm_model_orig_param_get_by_name,
      ncm_model_param_index_from_name, ncm_model_peek_reparam,
      ncm_model_orig_param_index_from_name, ncm_sparam_name.
    rewrite Hr, Hlook. cbn. split; [|reflexivity].
    exact (Hget j sp Hj Hsp).
  - intros s Hs.
    unfold ncm_model_param_get_by_name, ncm_model_orig_param_get_by_name,
      ncm_model_param_index_from_name, ncm_model_peek_reparam,
      ncm_model_orig_param_index_from_name.
    rewrite Hr, (Hnone s Hs). cbn. split; reflexivity.
Qed.

End FreshInstance.

Ltac constructible_by_evaluation :=
  unfold constructible;
  split; [reflexivity|];
  split; [unfold is_guint, guint_modulus; cbn; lia | reflexivity].

Lemma fresh_instance_parameters_fixed_witness :
  constructible scalar_child_level
  /\ exists st' m,
       ncm_model_new numbered_component ∅ "FooScalars" scalar_child_level []
       = Ok (st', m)
       /\ total_len m = ModelClass.sparam_len scalar_child_level
       /\ forall n, 0 <= n < total_len m ->
            ncm_model_param_get_ftype m n = Ok NCM_PARAM_TYPE_FIXED.
Proof.
  assert (Hc : constructible scalar_child_level)
    by constructible_by_evaluation.
  split; [exact Hc|].
  exact (fresh_instance_parameters_fixed numbered_component ∅ "FooScalars"
           scalar_child_level Hc).
Defined.

Lemma fresh_instance_scalars_at_defaults_witness :
  constructible scalar_child_level
  /\ exists st' m,
       ncm_model_new numbered_component ∅ "FooScalars" scalar_child_level []
       = Ok (st', m)
       /\ forall n d,
            0 <= n < ModelClass.sparam_len scalar_child_level ->
            g_ptr_array_index (ModelClass.sparam scalar_child_level) n
            = Ok (Some d) ->
            ncm_model_param_peek_desc m n = Ok d
            /\ ncm_model_param_get st' m n
               = Ok (ncm_sparam_get_default_value d)
            /\ ncm_model_orig_param_get st' m n
               = Ok (ncm_sparam_get_default_value d).
Proof.
  assert (Hc : constructible scalar_child_level)
    by constructible_by_evaluation.
  split; [exact Hc|].
  exact (fresh_instance_scalars_at_defaults numbered_component ∅ "FooScalars"
           scalar_child_level Hc).
Defined.

Lemma constructed_vector_components_witness :
  ready_to_construct child_start [3]
  /\ exists st' m,
       _ncm_model_constructed numbered_component ∅ child_start = Ok (st', m)
       /\ forall i vp len,
            0 <= i < ModelClass.vparam_len (klass child_start) ->
            g_ptr_array_index (ModelClass.vparam (klass child_start)) i
            = Ok (Some vp) ->
            [3] !! Z.to_nat i = Some len ->
            let pos := ModelClass.sparam_len (klass child_start)
                       + sum_lengths (take (Z.to_nat i) [3]) in
            g_array_index (vparam_pos m) i = Ok pos
            /\ g_array_index (vparam_len m) i = Ok len
            /\ forall j, 0 <= j < len ->
                 let sp := numbered_component
                             (ncm_vparam_set_len (ncm_vparam_copy vp) len) j in
                 ncm_model_param_peek_desc m (pos + j) = Ok sp
                 /\ ncm_model_param_get_ftype m (pos + j)
                    = Ok NCM_PARAM_TYPE_FIXED
                 /\ ncm_model_param_get st' m (pos + j)
                    = Ok (ncm_sparam_get_default_value sp).
Proof.
  assert (Hc : ready_to_construct child_start [3]).
  { unfold ready_to_construct.
    split; [reflexivity|].
    split; [unfold is_guint, guint_modulus; cbn; lia|].
    split; [reflexivity|]. split; [reflexivity|]. split; [reflexivity|].
    split; [reflexivity|].
    split; [repeat first [apply List.Forall_nil
                         | apply List.Forall_cons; [lia|]]|].
    unfold guint_modulus. cbn. lia. }
  split; [exact Hc|].
  exact (constructed_vector_components numbered_component ∅ child_start [3]
           Hc).
Defined.

Lemma fresh_instance_name_finds_last_slot_witness :
  constructible scalar_child_level
  /\ exists st' m,
       ncm_model_new numbered_component ∅ "FooScalars" scalar_child_level []
       = Ok (st', m)
       /\ (forall s j,
             ncm_model_param_index_from_name m s = Ok (true, j)
             <-> (0 <= j < total_len m
                  /\ (exists sp, ncm_model_param_peek_desc m j = Ok sp
                                 /\ sp_name sp = s)
                  /\ forall n sp, j < n < total_len m ->
                       ncm_model_param_peek_desc m n = Ok sp ->
                       sp_name sp <> s))
       /\ (forall s,
             (forall n sp, 0 <= n < total_len m ->
                ncm_model_param_peek_desc m n = Ok sp -> sp_name sp <> s) ->
             ncm_model_param_index_from_name m s = Ok (false, 4294967295)).
Proof.
  assert (Hc : constructible scalar_child_level)
    by constructible_by_evaluation.
  split; [exact Hc|].
  exact (fresh_instance_name_finds_last_slot numbered_component ∅
           "FooScalars" scalar_child_level Hc).
Defined.

Lemma fresh_instance_get_by_name_witness :
  constructible scalar_child_level
  /\ exists st' m,
       ncm_model_new numbered_component ∅ "FooScalars" scalar_child_level []
       = Ok (st', m)
       /\ (forall j sp,
             0 <= j < total_len m ->
             ncm_model_param_peek_desc m j = Ok sp ->
             (forall n sp', j < n < total_len m ->
                ncm_model_param_peek_desc m n = Ok sp' ->
                sp_name sp' <> sp_name sp) ->
             ncm_model_param_get_by_name st' m (ncm_sparam_name sp)
             = Ok (ncm_sparam_get_default_value sp)
             /\ ncm_model_orig_param_get_by_name st' m (ncm_sparam_name sp)
                = ncm_model_orig_param_get st' m j)
       /\ (forall s,
             (forall n sp, 0 <= n < total_len m ->
                ncm_model_param_peek_desc m n = Ok sp -> sp_name sp <> s) ->
             ncm_model_param_get_by_name st' m s
             = Fatal (g_assert_failed "has_param")
             /\ ncm_model_orig_param_get_by_name st' m s
                = Fatal (g_assert_failed "has_param")).
Proof.
  assert (Hc : constructible scalar_child_level)
    by constructible_by_evaluation.
  split; [exact Hc|].
  exact (fresh_instance_get_by_name numbered_component ∅ "FooScalars"
           scalar_child_level Hc).
Defined.



(** X16.  [ncm_model_reparam_df] and [ncm_model_reparam_J] never
    return and never reach the transform's code: without a transform the
    assertion on [model->reparam] fails, with one the statement that
    follows is [g_assert_not_reached]. *)
Theorem reparam_derivatives_never_return
  (grad : Reparam.NcmReparam -> NcmModel -> option loc -> option loc ->
          store -> Res store)
  (M : Reparam.NcmReparam -> NcmModel -> Matrix.NcmMatrix ->
       Matrix.NcmMatrix -> Res Matrix.NcmMatrix)
  (st : store) (model : NcmModel) (fv v : option loc)
  (fJ J : Matrix.NcmMatrix) :
  ncm_model_reparam_df grad st model fv v
  = Fatal (match reparam model with
           | Some _ => g_assert_not_reached
           | None => g_assert_failed "model->reparam"
           end)
  /\ ncm_model_reparam_J M model fJ J
     = Fatal (match reparam model with
              | Some _ => g_assert_not_reached
              | None => g_assert_failed "model->reparam"
              end).
Proof.
  unfold ncm_model_reparam_df, ncm_model_reparam_J.
  destruct (reparam model) as [r|]; split; reflexivity.
Qed.

Lemma with_tables_id m :
  with_tables m (ptypes m) (sparams m) (sparams_name_id m) = m.
Proof. now destruct m. Qed.

Lemma g_array_index_ext {A} (a b : list A) :
  length a = length b ->
  (forall n, 0 <= n < Z.of_nat (length a) ->
     g_array_index a n = g_array_index b n) ->
  a = b.
Proof.
  intros Hlen H. apply list_eq. intros i.
  destruct (a !! i) as [x|] eqn:Ea.
  - pose proof (lookup_lt_Some _ _ _ Ea) as Hlt.
    assert (Hx : g_array_index a (Z.of_nat i) = Ok x)
      by (apply g_array_index_lookup; [lia | now rewrite Nat2Z.id]).
    rewrite H in Hx by lia.
    apply g_array_index_Ok in Hx as [_ Hx]. now rewrite Nat2Z.id in Hx.
  - apply lookup_ge_None in Ea. symmetry. apply lookup_ge_None. lia.
Qed.

(** X17.  Saving the current values as defaults and setting the
    defaults again.  On an instance without transform whose slots all
    have a descriptor, [ncm_model_params_save_as_default] returns; it
    changes nothing but the default value of each slot's descriptor,
    which becomes the slot's current value; and whatever the working
    vector holds later, [ncm_model_params_set_default] puts the saved
    values back and leaves every other vector as it is. *)
Theorem save_as_default_then_set_default_restores
  (st : store) (m : NcmModel) (l : loc) (v : list float) :
  reparam m = None ->
  p m = Some l ->
  st !! l = Some v ->
  length v = Z.to_nat (total_len m) ->
  length (sparams m) = Z.to_nat (total_len m) ->
  0 <= total_len m ->
  filled_below (total_len m) m ->
  exists m1,
    ncm_model_params_save_as_default st m = Ok m1
    /\ ptypes m1 = ptypes m
    /\ sparams_name_id m1 = sparams_name_id m
    /\ p m1 = p m
    /\ params m1 = params m
    /\ (forall n sp, 0 <= n < total_len m ->
          ncm_model_param_peek_desc m n = Ok sp ->
          exists x,
            ncm_model_param_get st m n = Ok x
            /\ ncm_model_param_peek_desc m1 n
               = Ok (ncm_sparam_set_default_value sp x))
    /\ forall st2 v2,
         st2 !! l = Some v2 -> length v2 = length v ->
         exists m2,
           ncm_model_params_set_default st2 m1 = Ok (<[l := v]> st2, m2).
Proof.
  intros Hr Hp Hv Hlen Hsps Htl Hfill.
  destruct (for_loop_total
              (fun i m' =>
                 exists sps,
                   m' = with_tables m (ptypes m) sps (sparams_name_id m)
                   /\ length sps = length (sparams m)
                   /\ (forall n sp, 0 <= n < i ->
                         g_array_index (sparams m) n = Ok (Some sp) ->
                         exists x,
                           g_array_index v n = Ok x
                           /\ g_array_index sps n
                              = Ok (Some (ncm_sparam_set_default_value sp x)))
                   /\ forall n, i <= n ->
                        g_array_index sps n = g_array_index (sparams m) n)
              (fun i m' =>
                 sp ← ncm_model_param_peek_desc m' i;
                 val ← ncm_vector_get st (p m') i;
                 store_desc m' i (ncm_sparam_set_default_value sp val))
              (total_len m) m Htl)
    as (m1 & Hrun & sps & -> & Hl1 & Hsaved & _).
  - exists (sparams m). split; [symmetry; apply with_tables_id|].
    split; [reflexivity|]. split; [intros; lia | reflexivity].
  - intros i m' Hi (sps & -> & Hl & Hdone & Hrest).
    destruct (Hfill i Hi) as [sp Hsp].
    unfold ncm_model_param_peek_desc, ncm_model_peek_reparam. cbn.
    destruct (Z.ltb_spec i (total_len m)) as [_|Hge]; [|lia]. cbn.
    rewrite Hr, (Hrest i) by lia. rewrite Hsp. cbn.
    rewrite Hp. unfold ncm_vector_get, ncm_vector_data. rewrite Hv. cbn.
    destruct (lookup_lt_is_Some_2 v (Z.to_nat i)) as [x Hx]; [lia|].
    rewrite (g_array_index_lookup v i x) by (lia || exact Hx). cbn.
    unfold store_desc, ncm_model_peek_reparam. cbn. rewrite Hr.
    assert (Hset : g_array_set sps i
                     (Some (ncm_sparam_set_default_value sp x))
                   = Ok (<[Z.to_nat i :=
                             Some (ncm_sparam_set_default_value sp x)]> sps))
      by (apply g_array_set_in_range; lia).
    rewrite Hset. cbn. eexists. split; [reflexivity|].
    eexists. split; [reflexivity|].
    split; [now rewrite length_insert|]. split.
    + intros n spn Hn Hspn. destruct (Z.eq_dec n i) as [->|Hne].
      * rewrite Hsp in Hspn. injection Hspn as <-. exists x.
        split; [apply g_array_index_lookup; [lia | exact Hx]|].
        exact (g_array_index_set_eq _ _ _ _ Hset).
      * rewrite (g_array_index_set_ne _ _ _ _ _ Hset Hne).
        apply Hdone; [lia | exact Hspn].
    + intros n Hn.
      rewrite (g_array_index_set_ne _ _ _ _ _ Hset) by lia.
      apply Hrest. lia.
  - exists (with_tables m (ptypes m) sps (sparams_name_id m)).
    split; [exact Hrun|]. cbn.
    do 4 (split; [reflexivity|]).
    split.
    + intros n sp Hn Hd.
      apply peek_desc_plain in Hd; [|exact Hr|exact Hn].
      destruct (Hsaved n sp Hn Hd) as (x & Hx & Hs).
      exists x. split.
      * unfold ncm_model_param_get, ncm_vector_get, ncm_vector_data.
        rewrite Hp, Hv. exact Hx.
      * apply peek_desc_plain; [exact Hr | exact Hn | exact Hs].
    + intros st2 v2 Hv2 Hlen2.
      set (m1 := with_tables m (ptypes m) sps (sparams_name_id m)).
      assert (Hlen1 : length v2 = Z.to_nat (total_len m1)) by (cbn; lia).
      assert (Hfill1 : filled_below (total_len m1) m1).
      { intros n Hn. destruct (Hfill n Hn) as [sp Hsp].
        destruct (Hsaved n sp Hn Hsp) as (x & _ & Hs). cbn. eauto. }
      destruct (params_set_default_values st2 m1 l v2 Hr Hp Hv2 Hlen1 Htl
                  Hfill1) as (v' & Hdef & Hlen' & Hvals).
      exists (with_pkey m1 (pkey m1 + 1)). rewrite Hdef.
      replace v' with v; [reflexivity|].
      apply g_array_index_ext; [lia|].
      intros n Hn. destruct (Hfill n) as [sp Hsp]; [lia|].
      destruct (Hsaved n sp) as (x & Hx & Hs); [lia | exact Hsp |].
      rewrite Hx. symmetry.
      exact (Hvals n _ ltac:(cbn; lia) Hs).
Qed.

Lemma save_as_default_then_set_default_restores_witness :
  reparam (snd instance_half) = None
  /\ p (snd instance_half) = Some half_location
  /\ fst instance_half !! half_location = Some [0.5%float]
  /\ exists m1,
       ncm_model_params_save_as_default (fst instance_half)
         (snd instance_half) = Ok m1
       /\ ptypes m1 = ptypes (snd instance_half)
       /\ sparams_name_id m1 = sparams_name_id (snd instance_half)
       /\ p m1 = p (snd instance_half)
       /\ params m1 = params (snd instance_half)
       /\ (forall n sp, 0 <= n < total_len (snd instance_half) ->
             ncm_model_param_peek_desc (snd instance_half) n = Ok sp ->
             exists x,
               ncm_model_param_get (fst instance_half) (snd instance_half) n
               = Ok x
               /\ ncm_model_param_peek_desc m1 n
                  = Ok (ncm_sparam_set_default_value sp x))
       /\ forall st2 v2,
            st2 !! half_location = Some v2 ->
            length v2 = length [0.5%float] ->
            exists m2,
              ncm_model_params_set_default st2 m1
              = Ok (<[half_location := [0.5%float]]> st2, m2).
Proof.
  assert (H1 : reparam (snd instance_half) = None) by reflexivity.
  assert (H2 : p (snd instance_half) = Some half_location) by reflexivity.
  assert (H3 : fst instance_half !! half_location = Some [0.5%float])
    by reflexivity.
  split; [exact H1|]. split; [exact H2|]. split; [exact H3|].
  apply (save_as_default_then_set_default_restores (fst instance_half)
           (snd instance_half) half_location [0.5%float] H1 H2 H3).
  - reflexivity.
  - reflexivity.
  - cbn. lia.
  - intros n Hn. assert (n = 0) as -> by (cbn in Hn; lia).
    eexists. reflexivity.
Defined.

Lemma for_loop_from_ext {St} (body body' : Z -> St -> Res St) (count : nat) :
  forall i0 s,
    (forall i s1, i0 <= i < i0 + Z.of_nat count -> body i s1 = body' i s1) ->
    for_loop_from i0 count body s = for_loop_from i0 count body' s.
Proof.
  induction count as [|c IH]; intros i0 s H; [reflexivity|].
  cbn [for_loop_from]. rewrite (H i0 s) by lia.
  destruct (body' i0 s) as [s1|e]; [|reflexivity]. cbn.
  apply IH. intros i s2 Hi. apply H. lia.
Qed.

Lemma for_loop_ext {St} (body body' : Z -> St -> Res St) n s :
  (forall i s1, 0 <= i < n -> body i s1 = body' i s1) ->
  for_loop n body s = for_loop n body' s.
Proof.
  intros H. unfold for_loop. apply for_loop_from_ext.
  intros i s1 Hi. apply H. lia.
Qed.

Lemma with_ptypes_id m : with_ptypes m (ptypes m) = m.
Proof. now destruct m. Qed.

(** Setting the flags of a block, one component after the other. *)
Lemma set_block_flags m id pos n (f : Z -> bool) :
  g_array_index (vparam_pos m) id = Ok pos ->
  0 <= pos -> 0 <= n ->
  pos + n <= Z.of_nat (length (ptypes m)) ->
  pos + n <= guint_modulus ->
  exists pt,
    for_loop n (fun i m' =>
      pid ← ncm_model_vparam_index m' id i;
      ncm_model_param_set_ftype m' pid (tofit_ftype (f i))) m
    = Ok (with_ptypes m pt)
    /\ length pt = length (ptypes m)
    /\ (forall k, 0 <= k < n ->
          g_array_index pt (pos + k) = Ok (tofit_ftype (f k)))
    /\ forall k, ~ (pos <= k < pos + n) ->
         g_array_index pt k = g_array_index (ptypes m) k.
Proof.
  intros Hpos Hpos0 Hn Hlen Hfit.
  destruct (for_loop_total
              (fun i s =>
                 exists pt,
                   s = with_ptypes m pt
                   /\ length pt = length (ptypes m)
                   /\ (forall k, 0 <= k < i ->
                         g_array_index pt (pos + k) = Ok (tofit_ftype (f k)))
                   /\ forall k, ~ (pos <= k < pos + i) ->
                        g_array_index pt k = g_array_index (ptypes m) k)
              (fun i m' =>
                 pid ← ncm_model_vparam_index m' id i;
                 ncm_model_param_set_ftype m' pid (tofit_ftype (f i)))
              n m Hn) as (m' & Hrun & pt & -> & Hl & Hin & Hout).
  - exists (ptypes m). split; [symmetry; apply with_ptypes_id|].
    split; [reflexivity|]. split; [intros; lia | reflexivity].
  - intros i s Hi (pt & -> & Hl & Hin & Hout).
    unfold ncm_model_vparam_index. cbn. rewrite Hpos. cbn.
    assert (E : guint_add pos i = pos + i).
    { unfold guint_add. apply guint_small. unfold is_guint. lia. }
    rewrite E. unfold ncm_model_param_set_ftype. cbn.
    assert (Hset : g_array_set pt (pos + i) (tofit_ftype (f i))
                   = Ok (<[Z.to_nat (pos + i) := tofit_ftype (f i)]> pt))
      by (apply g_array_set_in_range; lia).
    rewrite Hset. cbn. eexists. split; [reflexivity|].
    eexists. split; [reflexivity|].
    split; [now rewrite length_insert|]. split.
    + intros k Hk. destruct (Z.eq_dec k i) as [->|Hne].
      * exact (g_array_index_set_eq _ _ _ _ Hset).
      * rewrite (g_array_index_set_ne _ _ _ _ _ Hset) by lia.
        apply Hin. lia.
    + intros k Hk. rewrite (g_array_index_set_ne _ _ _ _ _ Hset) by lia.
      apply Hout. lia.
  - exists pt. split; [exact Hrun|]. split; [exact Hl|].
    split; [exact Hin | exact Hout].
Qed.

(** Reading the flags of a block into an array of booleans. *)
Lemma get_block_flags m id pos n (g : Z -> NcmParamType) :
  g_array_index (vparam_pos m) id = Ok pos ->
  0 <= pos -> 0 <= n ->
  pos + n <= guint_modulus ->
  (forall k, 0 <= k < n -> g_array_index (ptypes m) (pos + k) = Ok (g k)) ->
  for_loop n (fun i builder =>
    pid ← ncm_model_vparam_index m id i;
    ftype ← ncm_model_param_get_ftype m pid;
    Ok (builder ++ [g_variant_new_boolean (ftype_tofit ftype)])) []
  = Ok ((fun k : nat => g_variant_new_boolean (ftype_tofit (g (Z.of_nat k))))
        <$> seq 0 (Z.to_nat n)).
Proof.
  intros Hpos Hpos0 Hn Hfit Hg.
  destruct (for_loop_total
              (fun i builder =>
                 builder
                 = (fun k : nat =>
                      g_variant_new_boolean (ftype_tofit (g (Z.of_nat k))))
                   <$> seq 0 (Z.to_nat i))
              (fun i builder =>
                 pid ← ncm_model_vparam_index m id i;
                 ftype ← ncm_model_param_get_ftype m pid;
                 Ok (builder ++ [g_variant_new_boolean (ftype_tofit ftype)]))
              n [] Hn) as (b & Hrun & ->).
  - reflexivity.
  - intros i builder Hi ->.
    unfold ncm_model_vparam_index. rewrite Hpos. cbn.
    assert (E : guint_add pos i = pos + i).
    { unfold guint_add. apply guint_small. unfold is_guint. lia. }
    rewrite E. unfold ncm_model_param_get_ftype. rewrite (Hg i Hi). cbn.
    eexists. split; [reflexivity|].
    replace (Z.to_nat (i + 1)) with (S (Z.to_nat i)) by lia.
    rewrite seq_S, fmap_app. cbn. now rewrite Z2Nat.id by lia.
  - exact Hrun.
Qed.

Lemma fmap_seq_lookup {A B} (h : A -> B) (d : A) (l : list A) :
  (fun k : nat => h (default d (l !! k))) <$> seq 0 (length l) = h <$> l.
Proof.
  apply list_eq. intros i. rewrite !list_lookup_fmap.
  destruct (l !! i) as [x|] eqn:E.
  - rewrite lookup_seq_lt by (eapply lookup_lt_Some; exact E).
    cbn. now rewrite E.
  - rewrite lookup_seq_ge by (apply lookup_ge_None; exact E). reflexivity.
Qed.

(** X18.  The fit flags of a vector parameter, written and read back
    through the property branches.  For an array of as many booleans as
    the vector parameter has components, the setter returns, the getter
    then returns the same array, component [k] of the vector is free
    exactly when the [k]-th boolean is true, and the fit type of every
    slot outside the vector parameter is as before. *)
Theorem vparam_fit_flags_round_trip
  (m : NcmModel) (id pos nv : Z) (bs : list bool) :
  fit_block m id pos nv ->
  Z.of_nat (length bs) = nv ->
  exists m',
    set_property_vparam_fit m id (flags_of bs) = Ok m'
    /\ get_property_vparam_fit m' id = Ok (flags_of bs)
    /\ (forall (k : nat) b, bs !! k = Some b ->
          ncm_model_param_get_ftype m' (pos + Z.of_nat k)
          = Ok (tofit_ftype b))
    /\ (forall k, ~ (pos <= k < pos + nv) ->
          ncm_model_param_get_ftype m' k = ncm_model_param_get_ftype m k)
    /\ m' = with_ptypes m (ptypes m').
Proof.
  intros (Hvl & Hvp & Hpos0 & Hnv0 & Hlen & Hfit) Hbs.
  pose (f := fun i : Z => default false (bs !! Z.to_nat i)).
  destruct (set_block_flags m id pos nv f Hvp Hpos0 Hnv0 Hlen Hfit)
    as (pt & Hrun & Hl & Hin & Hout).
  assert (Hchild : forall i, 0 <= i < nv ->
            g_variant_get_child_boolean (flags_of bs) i = Ok (f i)).
  { intros i Hi. unfold g_variant_get_child_boolean, flags_of, f. cbn.
    destruct (lookup_lt_is_Some_2 bs (Z.to_nat i)) as [b Hb]; [lia|].
    rewrite (g_array_index_lookup _ i (g_variant_new_boolean b));
      [|lia|now rewrite list_lookup_fmap, Hb].
    rewrite Hb. reflexivity. }
  exists (with_ptypes m pt).
  split; [|split; [|split; [|split; [|reflexivity]]]].
  - unfold set_property_vparam_fit. rewrite Hvl. cbn [mbind Res_bind].
    assert (En : g_variant_n_children (flags_of bs) = nv)
      by (unfold flags_of; cbn; now rewrite length_fmap).
    rewrite En.
    destruct (Z.eqb_spec nv 1) as [E1|E1].
    + destruct bs as [|b0 [|b1 bs']]; cbn in Hbs; try lia.
      cbn. rewrite <- Hrun, E1. apply for_loop_ext.
      intros i s Hi. assert (i = 0) as -> by lia. reflexivity.
    + rewrite Z.eqb_refl. cbn [negb].
      change (g_variant_is_of_type (flags_of bs)
                (G_VARIANT_TYPE_ARRAY_OF G_VARIANT_TYPE_BOOLEAN)) with true.
      cbv iota. rewrite <- Hrun. apply for_loop_ext.
      intros i s Hi. rewrite (Hchild i Hi). reflexivity.
  - unfold get_property_vparam_fit. cbn. rewrite Hvl. cbn [mbind Res_bind].
    rewrite (get_block_flags (with_ptypes m pt) id pos nv
               (fun k => tofit_ftype (f k)) Hvp Hpos0 Hnv0 Hfit Hin).
    cbn [mbind Res_bind]. unfold flags_of. do 2 f_equal.
    rewrite <- Hbs, Nat2Z.id.
    rewrite <- (fmap_seq_lookup g_variant_new_boolean false bs).
    apply list_fmap_ext. intros k x Hk. unfold f.
    rewrite Nat2Z.id. now destruct (default false (bs !! x)).
  - intros k b Hb. unfold ncm_model_param_get_ftype. cbn.
    pose proof (lookup_lt_Some _ _ _ Hb) as Hlt.
    rewrite Hin by lia. unfold f. now rewrite Nat2Z.id, Hb.
  - intros k Hk. unfold ncm_model_param_get_ftype. cbn. now apply Hout.
Qed.

Lemma vparam_fit_flags_round_trip_witness :
  fit_block (snd child_model) 0 3 3
  /\ exists m',
       set_property_vparam_fit (snd child_model) 0
         (flags_of [true; false; true]) = Ok m'
       /\ get_property_vparam_fit m' 0 = Ok (flags_of [true; false; true])
       /\ (forall (k : nat) b, [true; false; true] !! k = Some b ->
             ncm_model_param_get_ftype m' (3 + Z.of_nat k)
             = Ok (tofit_ftype b))
       /\ (forall k, ~ (3 <= k < 3 + 3) ->
             ncm_model_param_get_ftype m' k
             = ncm_model_param_get_ftype (snd child_model) k)
       /\ m' = with_ptypes (snd child_model) (ptypes m').
Proof.
  assert (H : fit_block (snd child_model) 0 3 3).
  { unfold fit_block. split; [reflexivity|]. split; [reflexivity|].
    unfold guint_modulus. cbn. lia. }
  split; [exact H|].
  exact (vparam_fit_flags_round_trip (snd child_model) 0 3 3
           [true; false; true] H eq_refl).
Defined.

(** X19.  The other counts the setter of a vector parameter's fit flags
    accepts or refuses.  An array with a single boolean or integer sets
    the flag of every component of the vector parameter, however many
    there are, to that value (an integer counts as true when it is not
    zero); an array with a number of children that is neither one nor
    the number of components is refused with [g_error], whatever its
    type. *)
Theorem vparam_fit_single_value_sets_all
  (m : NcmModel) (id pos nv : Z) :
  fit_block m id pos nv ->
  (forall elt c b,
     c = g_variant_new_boolean b
     \/ (exists z, c = g_variant_new_int32 z /\ b = negb (z =? 0)) ->
     exists m',
       set_property_vparam_fit m id (g_variant_new_array elt [c]) = Ok m'
       /\ get_property_vparam_fit m' id
          = Ok (flags_of (replicate (Z.to_nat nv) b))
       /\ (forall k, 0 <= k < nv ->
             ncm_model_param_get_ftype m' (pos + k) = Ok (tofit_ftype b))
       /\ (forall k, ~ (pos <= k < pos + nv) ->
             ncm_model_param_get_ftype m' k = ncm_model_param_get_ftype m k))
  /\ (forall var,
        g_variant_n_children var <> 1 ->
        g_variant_n_children var <> nv ->
        set_property_vparam_fit m id var = Fatal (g_error set_fit_count_msg)).
Proof.
  intros (Hvl & Hvp & Hpos0 & Hnv0 & Hlen & Hfit). split.
  - intros elt c b Hc.
    destruct (set_block_flags m id pos nv (fun _ => b) Hvp Hpos0 Hnv0 Hlen
                Hfit) as (pt & Hrun & Hl & Hin & Hout).
    exists (with_ptypes m pt).
    split; [|split; [|split]].
    + unfold set_property_vparam_fit. rewrite Hvl. cbn [mbind Res_bind].
      destruct Hc as [->|(z & -> & ->)]; cbn; exact Hrun.
    + unfold get_property_vparam_fit. cbn. rewrite Hvl. cbn [mbind Res_bind].
      rewrite (get_block_flags (with_ptypes m pt) id pos nv
                 (fun _ => tofit_ftype b) Hvp Hpos0 Hnv0 Hfit Hin).
      cbn [mbind Res_bind]. unfold flags_of. do 2 f_equal.
      rewrite fmap_replicate.
      assert (E : ftype_tofit (tofit_ftype b) = b) by now destruct b.
      rewrite E. generalize (Z.to_nat nv) as c0.
      intros c0. generalize 0%nat as start.
      induction c0 as [|c0 IH]; intros start; cbn; [reflexivity|].
      now rewrite IH.
    + intros k Hk. unfold ncm_model_param_get_ftype. cbn. now apply Hin.
    + intros k Hk. unfold ncm_model_param_get_ftype. cbn. now apply Hout.
  - intros var H1 Hn. unfold set_property_vparam_fit.
    rewrite Hvl. cbn [mbind Res_bind].
    destruct (Z.eqb_spec (g_variant_n_children var) 1) as [E|_]; [lia|].
    destruct (Z.eqb_spec (g_variant_n_children var) nv) as [E|_]; [lia|].
    reflexivity.
Qed.

Lemma vparam_fit_single_value_sets_all_witness :
  fit_block (snd child_model) 0 3 3
  /\ (forall elt c b,
        c = g_variant_new_boolean b
        \/ (exists z, c = g_variant_new_int32 z /\ b = negb (z =? 0)) ->
        exists m',
          set_property_vparam_fit (snd child_model) 0
            (g_variant_new_array elt [c]) = Ok m'
          /\ get_property_vparam_fit m' 0
             = Ok (flags_of (replicate (Z.to_nat 3) b))
          /\ (forall k, 0 <= k < 3 ->
                ncm_model_param_get_ftype m' (3 + k) = Ok (tofit_ftype b))
          /\ (forall k, ~ (3 <= k < 3 + 3) ->
                ncm_model_param_get_ftype m' k
                = ncm_model_param_get_ftype (snd child_model) k))
  /\ (forall var,
        g_variant_n_children var <> 1 ->
        g_variant_n_children var <> 3 ->
        set_property_vparam_fit (snd child_model) 0 var
        = Fatal (g_error set_fit_count_msg)).
Proof.
  assert (H : fit_block (snd child_model) 0 3 3).
  { unfold fit_block. split; [reflexivity|]. split; [reflexivity|].
    unfold guint_modulus. cbn. lia. }
  split; [exact H|].
  exact (vparam_fit_single_value_sets_all (snd child_model) 0 3 3 H).
Defined.

(** X20.  [ncm_model_params_set_all_data] overwrites the whole working
    vector and nothing else before it updates the instance: when the
    array has at least as many doubles as the working vector has cells,
    the call is [ncm_model_params_update] on the store in which the
    working vector holds the first doubles of the array; without a
    transform every parameter then reads the double given for it. *)
Theorem params_set_all_data_writes_working_vector
  (st : store) (m : NcmModel) (l : loc) (v data : list float) :
  p m = Some l ->
  st !! l = Some v ->
  (length v <= length data)%nat ->
  ncm_model_params_set_all_data st m data
  = ncm_model_params_update (<[l := take (length v) data]> st) m
  /\ (reparam m = None ->
      exists st' m',
        ncm_model_params_set_all_data st m data = Ok (st', m')
        /\ pkey m' = pkey m + 1
        /\ (forall l', l' <> l -> st' !! l' = st !! l')
        /\ forall (n : nat) x,
             (n < length v)%nat -> data !! n = Some x ->
             ncm_model_param_get st' m' (Z.of_nat n) = Ok x).
Proof.
  intros Hp Hv Hlen.
  assert (Hloop : for_loop (Z.of_nat (length v)) (fun i s =>
                    x ← g_array_index data i;
                    ncm_vector_set s (p m) i x) st
                  = Ok (<[l := take (length v) data]> st)).
  { destruct (for_loop_total
                (fun i s =>
                   s = <[l := take (Z.to_nat i) data ++ drop (Z.to_nat i) v]>
                         st)
                (fun i s =>
                   x ← g_array_index data i;
                   ncm_vector_set s (p m) i x)
                (Z.of_nat (length v)) st ltac:(lia)) as (s' & Hrun & ->).
    - cbn. symmetry. now apply insert_id.
    - intros i s Hi ->.
      destruct (lookup_lt_is_Some_2 data (Z.to_nat i)) as [x Hx]; [lia|].
      destruct (lookup_lt_is_Some_2 v (Z.to_nat i)) as [y Hy]; [lia|].
      rewrite (g_array_index_lookup data i x) by (lia || exact Hx). cbn.
      rewrite Hp. unfold ncm_vector_set, ncm_vector_data.
      rewrite lookup_insert_eq. cbn.
      assert (Hl : length (take (Z.to_nat i) data) = Z.to_nat i)
        by (rewrite length_take; lia).
      rewrite g_array_set_in_range
        by (rewrite length_app, Hl, length_drop; lia).
      cbn. eexists. split; [reflexivity|].
      rewrite insert_insert_eq. f_equal.
      replace (Z.to_nat (i + 1)) with (S (Z.to_nat i)) by lia.
      rewrite insert_app_r_alt by lia.
      rewrite Hl, Nat.sub_diag, (drop_S v y (Z.to_nat i) Hy).
      rewrite (take_S_r data (Z.to_nat i) x Hx), <- app_assoc.
      reflexivity.
    - rewrite Hrun, Nat2Z.id, drop_all, app_nil_r. reflexivity. }
  assert (Heq : ncm_model_params_set_all_data st m data
                = ncm_model_params_update (<[l := take (length v) data]> st) m).
  { unfold ncm_model_params_set_all_data, ncm_vector_len, ncm_vector_data.
    rewrite Hp, Hv. cbn [mbind Res_bind]. rewrite <- Hp, Hloop.
    reflexivity. }
  split; [exact Heq|].
  intros Hr. rewrite Heq. unfold ncm_model_params_update. cbn. rewrite Hr.
  eexists _, _. split; [reflexivity|]. cbn.
  split; [reflexivity|]. split.
  - intros l' Hne. now rewrite lookup_insert_ne.
  - intros n x Hn Hx.
    unfold ncm_model_param_get, ncm_vector_get, ncm_vector_data. cbn.
    rewrite Hp, lookup_insert_eq. cbn.
    apply g_array_index_lookup; [lia|].
    rewrite Nat2Z.id, lookup_take_lt by exact Hn. exact Hx.
Qed.

Lemma params_set_all_data_writes_working_vector_witness :
  p (snd instance_half) = Some half_location
  /\ fst instance_half !! half_location = Some [0.5%float]
  /\ ncm_model_params_set_all_data (fst instance_half) (snd instance_half)
       [0.25%float; 3%float]
     = ncm_model_params_update
         (<[half_location := take (length [0.5%float]) [0.25%float; 3%float]]>
            (fst instance_half))
         (snd instance_half)
  /\ (reparam (snd instance_half) = None ->
      exists st' m',
        ncm_model_params_set_all_data (fst instance_half)
          (snd instance_half) [0.25%float; 3%float] = Ok (st', m')
        /\ pkey m' = pkey (snd instance_half) + 1
        /\ (forall l', l' <> half_location ->
              st' !! l' = fst instance_half !! l')
        /\ forall (n : nat) x,
             (n < length [0.5%float])%nat ->
             [0.25%float; 3%float] !! n = Some x ->
             ncm_model_param_get st' m' (Z.of_nat n) = Ok x).
Proof.
  assert (H1 : p (snd instance_half) = Some half_location) by reflexivity.
  assert (H2 : fst instance_half !! half_location = Some [0.5%float])
    by reflexivity.
  split; [exact H1|]. split; [exact H2|].
  apply (params_set_all_data_writes_working_vector (fst instance_half)
           (snd instance_half) half_location [0.5%float]
           [0.25%float; 3%float] H1 H2).
  cbn. lia.
Defined.

End ModelExtra.

(** * Further properties of the matrix container *)

Module MatrixExtra.

Import Glib GlibFacts Matrix Scenario ScenarioExtra.

Lemma new_array_from_map elt (f : nat -> GVariant)
  (arr : list (option GVariant)) (n : Z) :
  0 <= n ->
  (forall k, 0 <= k < n -> g_array_index arr k = Ok (Some (f (Z.to_nat k)))) ->
  (forall k, 0 <= k < n -> g_variant_get_type (f (Z.to_nat k)) = elt) ->
  g_variant_new_array_from elt arr n
  = Ok (g_variant_new_array elt (f <$> seq 0 (Z.to_nat n))).
Proof.
  intros Hn Harr Hty. unfold g_variant_new_array_from.
  destruct (for_loop_total
              (fun k acc => acc = f <$> seq 0 (Z.to_nat k))
              (fun i acc =>
                 c ← g_array_index arr i;
                 match c with
                 | Some v =>
                     if g_variant_is_of_type v elt then Ok (acc ++ [v])
                     else Fatal invalid_memory_access
                 | None => Fatal invalid_memory_access
                 end)
              n [] Hn) as (cs & Hrun & Hcs).
  - reflexivity.
  - intros i acc Hi ->. rewrite (Harr i Hi). cbn.
    unfold g_variant_is_of_type.
    rewrite bool_decide_eq_true_2 by (apply Hty; exact Hi).
    eexists. split; [reflexivity|].
    replace (Z.to_nat (i + 1)) with (S (Z.to_nat i)) by lia.
    rewrite seq_S, fmap_app. reflexivity.
  - rewrite Hrun. cbn. now rewrite Hcs.
Qed.

Lemma matrix_get_cell cm nrows ncols i j :
  matrix_holds cm nrows ncols ->
  0 <= i < nrows -> 0 <= j < ncols ->
  ncm_matrix_get cm i j = Ok (matrix_cell cm (Z.to_nat i) (Z.to_nat j)).
Proof.
  intros (H1 & H2 & Htda & Hlen) Hi Hj. unfold ncm_matrix_get, matrix_cell.
  rewrite !Z2Nat.id by lia.
  assert (Hr : 0 <= i * tda cm + j < Z.of_nat (length (data cm))) by nia.
  destruct (lookup_lt_is_Some_2 (data cm) (Z.to_nat (i * tda cm + j)))
    as [x Hx]; [lia|].
  rewrite Hx. cbn. apply g_array_index_lookup; [lia | exact Hx].
Qed.

(** What [ncm_matrix_get_variant] builds: the rows of the matrix, as an
    array of arrays of doubles. *)
Lemma get_variant_rows cm nrows ncols :
  matrix_holds cm nrows ncols ->
  is_guint nrows -> is_guint ncols ->
  ncm_matrix_get_variant cm = Ok (blob_of (matrix_rows cm)).
Proof.
  intros Hholds Hnr Hnc.
  pose proof Hholds as (H1 & H2 & _).
  unfold ncm_matrix_get_variant, ncm_matrix_nrows, ncm_matrix_ncols.
  rewrite H1, H2, (guint_small nrows Hnr), (guint_small ncols Hnc).
  cbv zeta.
  pose (row := fun k : nat =>
                 row_of (matrix_cell cm k <$> seq 0 (Z.to_nat ncols))).
  assert (Hnr0 : 0 <= nrows) by (unfold is_guint in Hnr; lia).
  assert (Hnc0 : 0 <= ncols) by (unfold is_guint in Hnc; lia).
  destruct (for_loop_total
              (fun i (acc : list (option GVariant) * list (option GVariant)) =>
                 length (fst acc) = Z.to_nat ncols
                 /\ length (snd acc) = Z.to_nat nrows
                 /\ forall k, 0 <= k < i ->
                      g_array_index (snd acc) k = Ok (Some (row (Z.to_nat k))))
              (fun i acc =>
                 vals ← for_loop ncols (fun j vals =>
                          val ← ncm_matrix_get cm i j;
                          g_array_set vals j (Some (g_variant_new_double val)))
                        (fst acc);
                 row ← g_variant_new_array_from G_VARIANT_TYPE_DOUBLE vals ncols;
                 rows' ← g_array_set (snd acc) i (Some row);
                 Ok (vals, rows'))
              nrows (g_ptr_array_sized ncols, g_ptr_array_sized nrows) Hnr0)
    as ([vals rows] & Hrun & _ & Hlen & Hrows).
  - cbn. unfold g_ptr_array_sized. rewrite !length_replicate.
    split; [reflexivity|]. split; [reflexivity|]. intros; lia.
  - intros i [vals rows] Hi (Hlv & Hlr & Hrows). cbn [fst snd] in *.
    destruct (for_loop_total
                (fun j (vs : list (option GVariant)) =>
                   length vs = Z.to_nat ncols
                   /\ forall k, 0 <= k < j ->
                        g_array_index vs k
                        = Ok (Some (g_variant_new_double
                                      (matrix_cell cm (Z.to_nat i)
                                         (Z.to_nat k)))))
                (fun j vs =>
                   val ← ncm_matrix_get cm i j;
                   g_array_set vs j (Some (g_variant_new_double val)))
                ncols vals Hnc0) as (vals' & Hinner & Hlv' & Hvals).
    + split; [exact Hlv | intros; lia].
    + intros j vs Hj (Hl & Hvs).
      rewrite (matrix_get_cell cm nrows ncols i j Hholds Hi Hj). cbn.
      assert (Hset : g_array_set vs j
                       (Some (g_variant_new_double
                                (matrix_cell cm (Z.to_nat i) (Z.to_nat j))))
                     = Ok (<[Z.to_nat j :=
                               Some (g_variant_new_double
                                       (matrix_cell cm (Z.to_nat i)
                                          (Z.to_nat j)))]> vs))
        by (apply g_array_set_in_range; lia).
      rewrite Hset. eexists. split; [reflexivity|].
      split; [now rewrite length_insert|].
      intros k Hk. destruct (Z.eq_dec k j) as [->|Hne].
      * exact (g_array_index_set_eq _ _ _ _ Hset).
      * rewrite (g_array_index_set_ne _ _ _ _ _ Hset Hne). apply Hvs. lia.
    + rewrite Hinner. cbn.
      rewrite (new_array_from_map G_VARIANT_TYPE_DOUBLE
                 (fun k => g_variant_new_double
                             (matrix_cell cm (Z.to_nat i) k))
                 vals' ncols Hnc0 Hvals) by reflexivity.
      cbn.
      match goal with
      | |- context [g_array_set rows i ?x] =>
          assert (Hset : g_array_set rows i x = Ok (<[Z.to_nat i := x]> rows))
            by (apply g_array_set_in_range; lia)
      end.
      rewrite Hset. cbn. eexists. split; [reflexivity|]. cbn [fst snd].
      split; [exact Hlv'|]. split; [now rewrite length_insert|].
      intros k Hk. destruct (Z.eq_dec k i) as [->|Hne].
      * rewrite (g_array_index_set_eq _ _ _ _ Hset). unfold row, row_of.
        now rewrite <- list_fmap_compose.
      * rewrite (g_array_index_set_ne _ _ _ _ _ Hset Hne). apply Hrows. lia.
  - rewrite Hrun. cbn [fst snd] in *.
    change (g_variant_new_array_from
              (G_VARIANT_TYPE_ARRAY_OF G_VARIANT_TYPE_DOUBLE) rows nrows
            = Ok (blob_of (matrix_rows cm))).
    rewrite (new_array_from_map
               (G_VARIANT_TYPE_ARRAY_OF G_VARIANT_TYPE_DOUBLE)
               row rows nrows Hnr0 Hrows) by reflexivity.
    unfold blob_of, matrix_rows, row. rewrite H1, H2.
    now rewrite <- list_fmap_compose.
Qed.

(** The copy loops of [ncm_matrix_set_from_variant] on a target that
    holds the shape of the serialized matrix. *)
Lemma copy_loops_cells (cm0 : NcmMatrix) (m : list (list float)) (ncols : Z) :
  matrix_holds cm0 (Z.of_nat (length m)) ncols ->
  0 <= ncols ->
  Forall (fun r => ncols <= Z.of_nat (length r)) m ->
  exists cm',
    for_loop (Z.of_nat (length m)) (fun i cmi =>
      row ← g_variant_get_child_value (blob_of m) i;
      for_loop ncols (fun j cmj =>
        val ← g_variant_get_child_double row j;
        ncm_matrix_set cmj i j val) cmi) cm0 = Ok cm'
    /\ matrix_holds cm' (Z.of_nat (length m)) ncols
    /\ type cm' = type cm0
    /\ forall (i j : nat) r x,
         m !! i = Some r -> Z.of_nat j < ncols -> r !! j = Some x ->
         ncm_matrix_get cm' (Z.of_nat i) (Z.of_nat j) = Ok x.
Proof.
  intros Hholds Hnc Hrows.
  set (nrows := Z.of_nat (length m)) in *.
  pose (frame := fun cm' : NcmMatrix =>
                   size1 cm' = size1 cm0 /\ size2 cm' = size2 cm0
                   /\ tda cm' = tda cm0 /\ type cm' = type cm0
                   /\ length (data cm') = length (data cm0)).
  destruct Hholds as (H1 & H2 & Htda & Hlen).
  destruct (for_loop_total
              (fun i cm' =>
                 frame cm'
                 /\ forall (i' j : nat) r x,
                      Z.of_nat i' < i -> m !! i' = Some r ->
                      Z.of_nat j < ncols -> r !! j = Some x ->
                      ncm_matrix_get cm' (Z.of_nat i') (Z.of_nat j) = Ok x)
              (fun i cmi =>
                 row ← g_variant_get_child_value (blob_of m) i;
                 for_loop ncols (fun j cmj =>
                   val ← g_variant_get_child_double row j;
                   ncm_matrix_set cmj i j val) cmi)
              nrows cm0 ltac:(lia)) as (cm' & Hrun & Hfr & Hcells).
  - split; [unfold frame; tauto | intros; lia].
  - intros i cmi Hi (Hfri & Hcellsi).
    destruct (lookup_lt_is_Some_2 m (Z.to_nat i)) as [r Hr]; [lia|].
    assert (Hrlen : ncols <= Z.of_nat (length r)).
    { rewrite Forall_forall in Hrows. apply Hrows.
      now apply (list_elem_of_lookup_2 _ (Z.to_nat i)). }
    assert (Hrow : g_variant_get_child_value (blob_of m) i = Ok (row_of r)).
    { unfold blob_of. cbn. apply g_array_index_lookup; [lia|].
      now rewrite list_lookup_fmap, Hr. }
    rewrite Hrow. cbn.
    destruct (for_loop_total
                (fun j cm' =>
                   frame cm'
                   /\ (forall (i' j' : nat) r' x,
                         Z.of_nat i' < i -> m !! i' = Some r' ->
                         Z.of_nat j' < ncols -> r' !! j' = Some x ->
                         ncm_matrix_get cm' (Z.of_nat i') (Z.of_nat j') = Ok x)
                   /\ forall (j' : nat) x,
                        Z.of_nat j' < j -> r !! j' = Some x ->
                        ncm_matrix_get cm' i (Z.of_nat j') = Ok x)
                (fun j cmj =>
                   val ← g_variant_get_child_double (row_of r) j;
                   ncm_matrix_set cmj i j val)
                ncols cmi Hnc) as (cmi' & Hinner & Hfri' & Hprev & Hthis).
    + split; [exact Hfri|]. split; [exact Hcellsi | intros; lia].
    + intros j cmj Hj (Hfrj & Hprevj & Hthisj).
      destruct (lookup_lt_is_Some_2 r (Z.to_nat j)) as [x Hx]; [lia|].
      assert (Hval : g_variant_get_child_double (row_of r) j = Ok x).
      { unfold g_variant_get_child_double, row_of. cbn.
        rewrite (g_array_index_lookup _ j (g_variant_new_double x));
          [reflexivity | lia |].
        now rewrite list_lookup_fmap, Hx. }
      rewrite Hval. cbn.
      destruct Hfrj as (F1 & F2 & F3 & F4 & F5).
      unfold ncm_matrix_set. rewrite F3.
      assert (Hset : g_array_set (data cmj) (i * tda cm0 + j) x
                     = Ok (<[Z.to_nat (i * tda cm0 + j) := x]> (data cmj))).
      { apply g_array_set_in_range. rewrite F5. nia. }
      rewrite Hset. cbn. eexists. split; [reflexivity|].
      split; [unfold frame; cbn; rewrite length_insert; tauto|].
      split.
      * intros i' j' r' x' Hi' Hr' Hj' Hx'. unfold ncm_matrix_get. cbn.
        rewrite (g_array_index_set_ne _ _ _ _ _ Hset) by nia.
        specialize (Hprevj i' j' r' x' Hi' Hr' Hj' Hx').
        unfold ncm_matrix_get in Hprevj. now rewrite F3 in Hprevj.
      * intros j' x' Hj' Hx'. unfold ncm_matrix_get. cbn.
        destruct (Z.eq_dec (Z.of_nat j') j) as [E|Hne].
        -- subst j. rewrite Nat2Z.id in Hx. rewrite Hx in Hx'.
           injection Hx' as <-.
           exact (g_array_index_set_eq _ _ _ _ Hset).
        -- rewrite (g_array_index_set_ne _ _ _ _ _ Hset) by nia.
           specialize (Hthisj j' x' ltac:(lia) Hx').
           unfold ncm_matrix_get in Hthisj. now rewrite F3 in Hthisj.
    + exists cmi'. split; [exact Hinner|]. split; [exact Hfri'|].
      intros i' j r' x Hi' Hr' Hj Hx.
      destruct (Z.eq_dec (Z.of_nat i') i) as [E|Hne].
      * subst i. rewrite Nat2Z.id in Hr. rewrite Hr in Hr'.
        injection Hr' as <-. exact (Hthis j x Hj Hx).
      * apply (Hprev i' j r' x); [lia | exact Hr' | exact Hj | exact Hx].
  - exists cm'. split; [exact Hrun|].
    destruct Hfr as (F1 & F2 & F3 & F4 & F5).
    split; [unfold matrix_holds; rewrite F1, F2, F3, F5; tauto|].
    split; [exact F4|].
    intros i j r x Hr Hj Hx.
    apply (Hcells i j r x); [|exact Hr|exact Hj|exact Hx].
    pose proof (lookup_lt_Some _ _ _ Hr). unfold nrows. lia.
Qed.

(** Decoding a serialized matrix with at least one row, into a target
    that is empty or holds the same shape. *)
Lemma decode_cells (cm : NcmMatrix) (m : list (list float)) (r0 : list float) :
  m !! 0%nat = Some r0 ->
  Z.of_nat (length m) < guint_modulus ->
  Z.of_nat (length r0) < guint_modulus ->
  Forall (fun r => (length r0 <= length r)%nat) m ->
  (ncm_matrix_nrows cm = 0 /\ ncm_matrix_ncols cm = 0)
  \/ matrix_holds cm (Z.of_nat (length m)) (Z.of_nat (length r0)) ->
  exists cm',
    ncm_matrix_set_from_variant cm (blob_of m) = Ok cm'
    /\ matrix_holds cm' (Z.of_nat (length m)) (Z.of_nat (length r0))
    /\ forall (i j : nat) r x,
         m !! i = Some r -> (j < length r0)%nat -> r !! j = Some x ->
         ncm_matrix_get cm' (Z.of_nat i) (Z.of_nat j) = Ok x.
Proof.
  intros H0 Hnr Hnc Hrows Htarget.
  pose proof (lookup_lt_Some _ _ _ H0) as Hpos.
  set (nrows := Z.of_nat (length m)) in *.
  set (ncols := Z.of_nat (length r0)) in *.
  assert (Hrows' : Forall (fun r => ncols <= Z.of_nat (length r)) m).
  { eapply Forall_impl; [exact Hrows|]. intros r Hr. cbn in Hr.
    unfold ncols. lia. }
  unfold ncm_matrix_set_from_variant.
  change (g_variant_is_of_type (blob_of m) aad) with true. cbn [negb].
  assert (Hrow : g_variant_get_child_value (blob_of m) 0 = Ok (row_of r0)).
  { unfold blob_of. cbn. apply g_array_index_lookup; [lia|].
    change (Z.to_nat 0) with 0%nat. now rewrite list_lookup_fmap, H0. }
  rewrite Hrow.
  assert (En : guint (g_variant_n_children (blob_of m)) = nrows).
  { unfold blob_of. cbn. rewrite length_fmap. apply guint_small.
    unfold is_guint, nrows. lia. }
  assert (Ec : guint (g_variant_n_children (row_of r0)) = ncols).
  { unfold row_of. cbn. rewrite length_fmap. apply guint_small.
    unfold is_guint, ncols. lia. }
  assert (Hgo : forall cm0,
            matrix_holds cm0 nrows ncols ->
            exists cm',
              for_loop nrows (fun i cmi =>
                row ← g_variant_get_child_value (blob_of m) i;
                for_loop ncols (fun j cmj =>
                  val ← g_variant_get_child_double row j;
                  ncm_matrix_set cmj i j val) cmi) cm0 = Ok cm'
              /\ matrix_holds cm' nrows ncols
              /\ forall (i j : nat) r x,
                   m !! i = Some r -> (j < length r0)%nat -> r !! j = Some x ->
                   ncm_matrix_get cm' (Z.of_nat i) (Z.of_nat j) = Ok x).
  { intros cm0 Hholds.
    destruct (copy_loops_cells cm0 m ncols Hholds ltac:(unfold ncols; lia)
                Hrows') as (cm' & Hrun & Hh & _ & Hcells).
    exists cm'. split; [exact Hrun|]. split; [exact Hh|].
    intros i j r x Hr Hj Hx. apply (Hcells i j r x Hr); [|exact Hx].
    unfold ncols. lia. }
  cbn [mbind Res_bind]. rewrite En, Ec.
  destruct ((ncm_matrix_nrows cm =? 0) && (ncm_matrix_ncols cm =? 0)) eqn:E.
  - cbn [mbind]. apply Hgo.
    unfold matrix_holds, gsl_matrix_view_array_fresh. cbn.
    rewrite length_replicate.
    split; [reflexivity|]. split; [reflexivity|]. split; [lia|].
    unfold nrows, ncols in *. nia.
  - destruct Htarget as [[Ha Hb]|Hholds].
    + rewrite Ha, Hb in E. discriminate E.
    + pose proof Hholds as (H1 & H2 & _).
      unfold ncm_matrix_nrows, ncm_matrix_ncols. rewrite H1, H2.
      rewrite !Z.eqb_refl. cbn. apply Hgo. exact Hholds.
Qed.

(** X12.  Decoding a serialized matrix.  When the variant has at least
    one row, no row is shorter than the first one, and the target is
    either empty (no rows and no columns, as a matrix under
    construction) or holds as many rows as the variant and as many
    columns as its first row, [ncm_matrix_set_from_variant] returns a
    matrix of that shape whose cell [(i, j)] is the [j]-th double of the
    [i]-th row; what a row has beyond the length of the first row is
    dropped. *)
Theorem set_from_variant_reads_cells
  (cm : NcmMatrix) (m : list (list float)) (r0 : list float) :
  m !! 0%nat = Some r0 ->
  Z.of_nat (length m) < guint_modulus ->
  Z.of_nat (length r0) < guint_modulus ->
  Forall (fun r => (length r0 <= length r)%nat) m ->
  (ncm_matrix_nrows cm = 0 /\ ncm_matrix_ncols cm = 0)
  \/ matrix_holds cm (Z.of_nat (length m)) (Z.of_nat (length r0)) ->
  exists cm',
    ncm_matrix_set_from_variant cm (blob_of m) = Ok cm'
    /\ ncm_matrix_nrows cm' = Z.of_nat (length m)
    /\ ncm_matrix_ncols cm' = Z.of_nat (length r0)
    /\ forall (i j : nat) r x,
         m !! i = Some r -> (j < length r0)%nat -> r !! j = Some x ->
         ncm_matrix_get cm' (Z.of_nat i) (Z.of_nat j) = Ok x.
Proof.
  intros H0 Hnr Hnc Hrows Htarget.
  destruct (decode_cells cm m r0 H0 Hnr Hnc Hrows Htarget)
    as (cm' & Hrun & (H1 & H2 & _) & Hcells).
  exists cm'. split; [exact Hrun|]. split; [exact H1|]. split; [exact H2|].
  exact Hcells.
Qed.

Lemma set_from_variant_reads_cells_witness :
  [[1%float; 2%float]; [3%float; 4%float; 5%float]] !! 0%nat
  = Some [1%float; 2%float]
  /\ exists cm',
       ncm_matrix_set_from_variant ncm_matrix_init
         (blob_of [[1%float; 2%float]; [3%float; 4%float; 5%float]]) = Ok cm'
       /\ ncm_matrix_nrows cm' = 2
       /\ ncm_matrix_ncols cm' = 2
       /\ forall (i j : nat) r x,
            [[1%float; 2%float]; [3%float; 4%float; 5%float]] !! i = Some r ->
            (j < 2)%nat -> r !! j = Some x ->
            ncm_matrix_get cm' (Z.of_nat i) (Z.of_nat j) = Ok x.
Proof.
  split; [reflexivity|].
  apply (set_from_variant_reads_cells ncm_matrix_init
           [[1%float; 2%float]; [3%float; 4%float; 5%float]]
           [1%float; 2%float]).
  - reflexivity.
  - reflexivity.
  - reflexivity.
  - repeat first [apply List.Forall_nil | apply List.Forall_cons; [cbn; lia|]].
  - left. split; reflexivity.
Defined.

(** X13.  Encoding and decoding again.  For a matrix with at least one
    row whose view lies within its data, [ncm_matrix_get_variant]
    returns a variant from which [ncm_matrix_new_variant] builds a
    matrix with the same numbers of rows and columns and the same cell
    at every position. *)
Theorem get_variant_new_variant_round_trip
  (cm : NcmMatrix) (nrows ncols : Z) :
  matrix_holds cm nrows ncols ->
  1 <= nrows < guint_modulus ->
  0 <= ncols < guint_modulus ->
  exists var cm',
    ncm_matrix_get_variant cm = Ok var
    /\ ncm_matrix_new_variant var = Ok cm'
    /\ ncm_matrix_nrows cm' = nrows
    /\ ncm_matrix_ncols cm' = ncols
    /\ forall i j, 0 <= i < nrows -> 0 <= j < ncols ->
         ncm_matrix_get cm' i j = ncm_matrix_get cm i j.
Proof.
  intros Hholds Hnr Hnc.
  pose proof Hholds as (H1 & H2 & _).
  exists (blob_of (matrix_rows cm)).
  assert (Hlen : length (matrix_rows cm) = Z.to_nat nrows)
    by (unfold matrix_rows; rewrite length_fmap, length_seq, H1; reflexivity).
  assert (Hrow : forall i, (i < Z.to_nat nrows)%nat ->
            matrix_rows cm !! i
            = Some (matrix_cell cm i <$> seq 0 (Z.to_nat ncols))).
  { intros i Hi. unfold matrix_rows. rewrite list_lookup_fmap, H1, H2.
    rewrite lookup_seq_lt by exact Hi. reflexivity. }
  set (r0 := matrix_cell cm 0 <$> seq 0 (Z.to_nat ncols)).
  assert (Hr0 : length r0 = Z.to_nat ncols)
    by (unfold r0; now rewrite length_fmap, length_seq).
  destruct (decode_cells ncm_matrix_init (matrix_rows cm) r0)
    as (cm' & Hrun & (E1 & E2 & _) & Hcells).
  - apply Hrow. lia.
  - rewrite Hlen. lia.
  - rewrite Hr0. lia.
  - apply Forall_forall. intros r Hr.
    apply list_elem_of_lookup_1 in Hr as [i Hi].
    pose proof (lookup_lt_Some _ _ _ Hi) as Hlt. rewrite Hlen in Hlt.
    rewrite (Hrow i Hlt) in Hi. injection Hi as <-.
    rewrite Hr0, length_fmap, length_seq. lia.
  - left. split; reflexivity.
  - exists cm'.
    split; [apply (get_variant_rows cm nrows ncols Hholds);
            unfold is_guint; lia|].
    split; [exact Hrun|].
    unfold ncm_matrix_nrows, ncm_matrix_ncols.
    rewrite E1, E2, Hlen, Hr0.
    split; [lia|]. split; [lia|].
    intros i j Hi Hj.
    rewrite (matrix_get_cell cm nrows ncols i j Hholds Hi Hj).
    rewrite <- (Z2Nat.id i), <- (Z2Nat.id j) at 1 by lia.
    apply (Hcells (Z.to_nat i) (Z.to_nat j)
             (matrix_cell cm (Z.to_nat i) <$> seq 0 (Z.to_nat ncols))).
    + apply Hrow. lia.
    + rewrite Hr0. lia.
    + rewrite list_lookup_fmap, lookup_seq_lt by lia. reflexivity.
Qed.

Lemma get_variant_new_variant_round_trip_witness :
  matrix_holds padded_2x2 2 2
  /\ exists var cm',
       ncm_matrix_get_variant padded_2x2 = Ok var
       /\ ncm_matrix_new_variant var = Ok cm'
       /\ ncm_matrix_nrows cm' = 2
       /\ ncm_matrix_ncols cm' = 2
       /\ forall i j, 0 <= i < 2 -> 0 <= j < 2 ->
            ncm_matrix_get cm' i j = ncm_matrix_get padded_2x2 i j.
Proof.
  assert (H : matrix_holds padded_2x2 2 2)
    by (unfold matrix_holds; cbn; lia).
  split; [exact H|].
  apply (get_variant_new_variant_round_trip padded_2x2 2 2 H);
    unfold guint_modulus; lia.
Defined.

(** X14.  A matrix without rows is encoded by [ncm_matrix_get_variant]
    as an empty array of type [aad], and no target can be set from that
    variant: [ncm_matrix_set_from_variant] asks it for its first row,
    which it does not have. *)
Theorem rowless_variant_cannot_be_decoded (cm target : NcmMatrix) :
  ncm_matrix_nrows cm = 0 ->
  exists var,
    ncm_matrix_get_variant cm = Ok var
    /\ g_variant_is_of_type var aad = true
    /\ g_variant_n_children var = 0
    /\ ncm_matrix_set_from_variant target var = Fatal invalid_memory_access
    /\ ncm_matrix_new_variant var = Fatal invalid_memory_access.
Proof.
  intros H.
  exists (g_variant_new_array
            (G_VARIANT_TYPE_ARRAY_OF G_VARIANT_TYPE_DOUBLE) []).
  split.
  - unfold ncm_matrix_get_variant. rewrite H. reflexivity.
  - repeat split.
Qed.

Lemma rowless_variant_cannot_be_decoded_witness :
  ncm_matrix_nrows ncm_matrix_init = 0
  /\ exists var,
       ncm_matrix_get_variant ncm_matrix_init = Ok var
       /\ g_variant_is_of_type var aad = true
       /\ g_variant_n_children var = 0
       /\ ncm_matrix_set_from_variant target_1x1 var
          = Fatal invalid_memory_access
       /\ ncm_matrix_new_variant var = Fatal invalid_memory_access.
Proof.
  split; [reflexivity|].
  exact (rowless_variant_cannot_be_decoded ncm_matrix_init target_1x1
           eq_refl).
Defined.

End MatrixExtra.
